(** * dm-summative: the correlation pipeline and the vote extractor

  A shallow embedding of the analysis scripts of the repository
  ([all.py], [analysis.py], [scripts/analysis.py], [extract_votes.py]) and
  the properties of its loader, joiner, correlation engine, reporter and
  vote extractor.

  Conventions of the embedding.
  - The numbers of the tables are exact rationals ([Q]); a missing value
    (SQL NULL, JSON null, Python [None], a blank spreadsheet cell, a
    pandas NaN) is [None] of an [option].
  - [scipy.stats.pearsonr] and [scipy.stats.spearmanr] are external: the
    engines take them as parameters.  The engines of [All], [Analysis]
    and [ScriptsAnalysis] take numeric answers and read the test of the
    standard deviation in exact arithmetic.  The engine of [Sweep] keeps
    the two float computations of the full sweep as pandas and scipy
    carry them out: the test of the standard deviation is a parameter
    too, and [pearsonr] may answer NaN.  On numeric answers and with the
    exact test the two engines agree.  Rounding errors of the other
    arithmetic are outside the model.
  - An exception is a value of [outcome]; console output is not modelled.
  - A Python [dict] whose iteration order is observed is an association
    list with unique keys ([odict]); one that is only looked up is a
    [gmap]. *)

From Stdlib Require Import Ascii String QArith Qround Qabs Lqa Permutation Sorted.
From stdpp Require Import gmap strings list sorting.

Open Scope string_scope.

(* ===================================================================== *)
(** * Part I. Definitions                                                  *)
(* ===================================================================== *)

(** ** Python values and exceptions *)

Module Py.

Inductive exn : Set :=
| KeyError (key : string).

Inductive outcome (A : Type) : Type :=
| Ok (a : A)
| Raise (e : exn).
Arguments Ok {A} a.
Arguments Raise {A} e.

Definition bind {A B} (m : outcome A) (k : A -> outcome B) : outcome B :=
  match m with
  | Ok a => k a
  | Raise e => Raise e
  end.

(** An insertion-ordered [dict]: [d[k] = v] overwrites in place when the
    key is present and appends otherwise. *)
Definition odict (K V : Type) := list (K * V).

Section Odict.
Context {K V : Type} `{EqDecision K}.

Fixpoint od_get (d : odict K V) (k : K) : option V :=
  match d with
  | [] => None
  | (k', v) :: d' => if decide (k' = k) then Some v else od_get d' k
  end.

Fixpoint od_set (d : odict K V) (k : K) (v : V) : odict K V :=
  match d with
  | [] => [(k, v)]
  | (k', v') :: d' =>
      if decide (k' = k) then (k, v) :: d' else (k', v') :: od_set d' k v
  end.

Definition od_keys (d : odict K V) : list K := map fst d.
Definition od_values (d : odict K V) : list V := map snd d.
Definition od_mem (d : odict K V) (k : K) : bool :=
  match od_get d k with Some _ => true | None => false end.
End Odict.

(** [str.replace("demo_", "")]: every occurrence of the prefix text is
    removed, scanning from the left. *)
Fixpoint replace_demo (s : string) : string :=
  match s with
  | String "d"%char (String "e"%char (String "m"%char
    (String "o"%char (String "_"%char rest)))) =>
      replace_demo rest
  | String c rest => String c (replace_demo rest)
  | EmptyString => EmptyString
  end.

(** [f"demo_{char_id}"] *)
Definition demo_ (char_id : string) : string := "demo_" ++ char_id.

End Py.
Export Py.

(** ** Numbers *)

Module Num.

Local Open Scope Q_scope.

Definition Qlt_bool (x y : Q) : bool := negb (Qle_bool y x).

(** Truthiness of a Python number: [0] and [0.0] are falsy. *)
Definition truthy (x : Q) : bool := negb (Qeq_bool x 0).

(** Nearest integer, ties to the even one (the rule of [round]). *)
Definition round_half_even (q : Q) : Z :=
  let f := Qfloor q in
  match Qcompare (q - inject_Z f) (1 # 2) with
  | Lt => f
  | Gt => (f + 1)%Z
  | Eq => if Z.even f then f else (f + 1)%Z
  end.

(** [round(q, ndigits)] *)
Definition round (q : Q) (ndigits : nat) : Q :=
  let scale := inject_Z (10 ^ Z.of_nat ndigits) in
  Qred (inject_Z (round_half_even (q * scale)) / scale).

Definition Qsum (l : list Q) : Q := foldr Qplus 0 l.

Definition mean (l : list Q) : Q :=
  Qsum l / inject_Z (Z.of_nat (length l)).

(** [Series.var()]: the sample variance (one degree of freedom removed);
    NaN for fewer than two observations. *)
Definition var (l : list Q) : option Q :=
  if (length l <=? 1)%nat then None
  else
    let m := mean l in
    Some (Qsum (map (fun x => (x - m) * (x - m)) l)
          / inject_Z (Z.of_nat (length l) - 1)%Z).

(** [Series.std() == 0], read in exact arithmetic: the standard
    deviation is the square root of [var], which is zero exactly when
    [var] is; NaN equals nothing.  In floating point pandas can give a
    constant column a tiny nonzero deviation (thirty values 0.1), so this
    reading is that of the program only where the sums are exact, as they
    are on the sample tables; the engine of [Sweep] takes the test as
    pandas evaluates it. *)
Definition std_eq_zero (l : list Q) : bool :=
  match var l with
  | Some v => Qeq_bool v 0
  | None => false
  end.

End Num.
Export Num.

(** ** The spreadsheet of votes and the loader (identical in [all.py],
     [analysis.py] and [scripts/analysis.py]) *)

Module Votes.

(** One row of [cpc_votes_by_election.xlsx]; the columns are the headers
    written by the extractor.  A blank cell is [None]. *)
Record SheetRow : Type := {
  constituency_id : Z;
  riding_name : string;
  riding_code : string;
  province : string;
  region : string;
  subregion : string;
  cpc_votes_2019 : option Z;
  cpc_pct_2019 : option Q;
  total_votes_2019 : option Z;
  cpc_votes_2021 : option Z;
  cpc_pct_2021 : option Q;
  total_votes_2021 : option Z;
  cpc_votes_2025 : option Z;
  cpc_pct_2025 : option Q;
  total_votes_2025 : option Z;
  cpc_change_21_25 : option Q;
  cpc_change_19_25 : option Q
}.

(** The column names of the frame after [df.rename]. *)
Definition vote_columns : list string :=
  [ "constituency_id"; "riding_name"; "Riding Code"; "province"; "Region";
    "Subregion"; "CPC Votes 2019"; "CPC % 2019"; "Total Votes 2019";
    "CPC Votes 2021"; "cpc_pct_2021"; "Total Votes 2021"; "CPC Votes 2025";
    "cpc_pct_2025"; "Total Votes 2025"; "cpc_change_21_25";
    "cpc_change_19_25" ].

Definition notna {A} (c : option A) : bool :=
  match c with Some _ => true | None => false end.

(** [df = df[df["cpc_change_21_25"].notna()]] *)
Definition load_cpc_votes (excel_file : list SheetRow) : list SheetRow :=
  filter (fun row => notna (cpc_change_21_25 row) = true) excel_file.

End Votes.
Export Votes.

(** ** Demographic records, the frame built from them, and the join *)

Module Demo.

(** The JSONB payload [dg.values]: an object whose fields are numbers or
    null; SQL NULL is [None]. *)
Definition jsonb := option (gmap string (option Q)).

(** One fetched row: [(constituency_id, characteristics_id, values)]. *)
Record DemoRecord : Type := {
  dg_constituency_id : Z;
  dc_characteristics_id : string;
  dg_values : jsonb
}.

(** [if values]: a dict is truthy when it is not empty. *)
Definition values_truthy (values : jsonb) : bool :=
  match values with
  | Some o => negb (Nat.eqb (size o) 0)
  | None => false
  end.

(** [demo_data]: constituency id -> the dict of that district.  The entry
    ["constituency_id": constituency_id] of the inner dict is the key
    itself; the inner [odict] holds the ["demo_..."] entries, whose value
    may be [None]. *)
Definition demo_dict := odict Z (odict string (option Q)).

(** [pd.DataFrame(list(demo_data.values()))]: one row per dict, in
    insertion order.  A key missing from a dict, or holding [None], is a
    null cell. *)
Definition DemoFrame := list (Z * odict string (option Q)).

Definition cell (d : odict string (option Q)) (col : string) : option Q :=
  match od_get d col with
  | Some (Some q) => Some q
  | _ => None
  end.

(** The columns of such a frame: the union of the keys of the dicts, in
    order of first appearance; none at all for an empty list. *)
Fixpoint union_keys (seen : list string) (rows : DemoFrame) : list string :=
  match rows with
  | [] => seen
  | (_, d) :: rows' =>
      union_keys
        (fold_left (fun acc k => if bool_decide (k ∈ acc) then acc
                                 else (acc ++ [k])%list) (od_keys d) seen)
        rows'
  end.

Definition demo_frame_columns (df : DemoFrame) : list string :=
  match df with
  | [] => []
  | _ => "constituency_id" :: union_keys [] df
  end.

(** The joined table: the vote row and the demographic dict of a
    district, under the columns of both frames. *)
Record JoinedRow : Type := {
  vote : SheetRow;
  demo : odict string (option Q)
}.

Record Joined : Type := {
  columns : list string;
  rows : list JoinedRow
}.

(** [pd.merge(cpc_df, demo_df, on="constituency_id", how="inner")]: the
    rows follow the left frame; a frame without the key column (the
    empty demographic frame) raises [KeyError]. *)
Definition merge (cpc_df : list SheetRow) (demo_df : DemoFrame)
  : outcome Joined :=
  match demo_frame_columns demo_df with
  | [] => Raise (KeyError "constituency_id")
  | _ :: demo_columns =>
      Ok {| columns := (vote_columns ++ demo_columns)%list;
            rows :=
              flat_map
                (fun v =>
                   map (fun d => {| vote := v; demo := snd d |})
                     (filter (fun d => fst d = constituency_id v) demo_df))
                cpc_df |}
  end.

(** The district of a joined row. *)
Definition joined_id (row : JoinedRow) : Z := constituency_id (vote row).

(** A loader turn [step] adds the district of the record to [demo_data]
    when it is new, and never removes or reorders districts. *)
Definition extends_keys (step : demo_dict -> DemoRecord -> demo_dict) : Prop :=
  forall d rec,
    od_keys (step d rec)
    = if od_mem d (dg_constituency_id rec) then od_keys d
      else (od_keys d ++ [dg_constituency_id rec])%list.

(** [merged_df[["cpc_change_21_25", col]].dropna()]: the aligned pairs
    (target, attribute) of the rows where both are present. *)
Definition valid_pair (col : string) (row : JoinedRow) : option (Q * Q) :=
  match cpc_change_21_25 (vote row), cell (demo row) col with
  | Some y, Some x => Some (y, x)
  | _, _ => None
  end.

Definition valid_data (merged_df : Joined) (col : string) : list (Q * Q) :=
  omap (valid_pair col) (rows merged_df).

End Demo.
Export Demo.

(** ** Results of the correlation engine and their ordering *)

Module Results.

(** One record appended to [results] in [calculate_all_correlations]; the
    fields are the keys of the dict, in order. *)
Record CorrelationResult : Type := {
  characteristics_id : string;      (* "Characteristics ID" *)
  category_l1 : string;             (* "Category (Level 1)" *)
  subcategory_l2 : string;          (* "Subcategory (Level 2)" *)
  subsubcategory_l3 : string;       (* "Subsubcategory (Level 3)" *)
  pearson_r : Q;                    (* "Pearson r" *)
  p_value : Q;                      (* "p-value" *)
  significant : string;             (* "Significant (p<0.05)" *)
  correlation_strength : string;    (* "Correlation Strength" *)
  r_squared : Q;                    (* "R-squared" *)
  sample_size : nat;                (* "Sample Size (n)" *)
  direction : string                (* "Direction" *)
}.

(** The orders of [sort_values("Pearson r", ...)]. *)
Definition by_abs_r_descending (a b : CorrelationResult) : Prop :=
  (Qabs (pearson_r b) <= Qabs (pearson_r a))%Q.
Definition by_r_descending (a b : CorrelationResult) : Prop :=
  (pearson_r b <= pearson_r a)%Q.
Definition by_r_ascending (a b : CorrelationResult) : Prop :=
  (pearson_r a <= pearson_r b)%Q.

#[export] Instance Qle_decision (x y : Q) : Decision (x <= y)%Q.
Proof.
  destruct (Qle_bool x y) eqn:E.
  - left. apply Qle_bool_iff, E.
  - right. intros H. apply Qle_bool_iff in H. congruence.
Defined.

#[export] Instance by_abs_r_descending_dec a b :
  Decision (by_abs_r_descending a b) := Qle_decision _ _.
#[export] Instance by_r_descending_dec a b :
  Decision (by_r_descending a b) := Qle_decision _ _.
#[export] Instance by_r_ascending_dec a b :
  Decision (by_r_ascending a b) := Qle_decision _ _.

(** [df.sort_values("Pearson r", key=abs, ascending=False)],
    [df.sort_values("Pearson r", ascending=False)] and
    [df.sort_values("Pearson r", ascending=True)].  The order pandas gives
    to rows of equal key is its own; nothing below depends on it. *)
Definition sort_values_abs_descending := merge_sort by_abs_r_descending.
Definition sort_values_descending := merge_sort by_r_descending.
Definition sort_values_ascending := merge_sort by_r_ascending.

End Results.
Export Results.

(** ** [all.py]: the full sweep *)

Module All.

(** A row of [demographic_categories]:
    [(id, characteristics_id, category, subcategory, subsubcategory,
      description)]. *)
Record CategoryRow : Type := {
  cr_id : Z;
  cr_characteristics_id : string;
  cr_category : option string;
  cr_subcategory : option string;
  cr_subsubcategory : option string;
  cr_description : option string
}.

Record CategoryInfo : Type := {
  category_id : Z;
  category : string;
  subcategory : string;
  subsubcategory : string;
  description : string
}.

(** [x or ""] *)
Definition or_empty (x : option string) : string :=
  match x with
  | Some s => s
  | None => ""
  end.

Definition build_category_info (categories : list CategoryRow)
  : gmap string CategoryInfo :=
  fold_left
    (fun category_info row =>
       <[ cr_characteristics_id row :=
            {| category_id := cr_id row;
               category := or_empty (cr_category row);
               subcategory := or_empty (cr_subcategory row);
               subsubcategory := or_empty (cr_subsubcategory row);
               description := or_empty (cr_description row) |} ]>
         category_info)
    categories ∅.

(** [rate = values.get("rateTotal", None) if values else None] *)
Definition rate_of (values : jsonb) : option Q :=
  if values_truthy values then
    match values with
    | Some o => default None (o !! "rateTotal")
    | None => None
    end
  else None.

(** A record of [records] supplies the rate [q] of attribute column
    [col] for district [id]. *)
Definition supplies (records : list DemoRecord) (id : Z) (col : string)
  (q : Q) : Prop :=
  exists rec, rec ∈ records /\
    dg_constituency_id rec = id /\
    demo_ (dc_characteristics_id rec) = col /\
    rate_of (dg_values rec) = Some q.

(** The body of the loop over the fetched rows. *)
Definition add_record (demo_data : demo_dict) (rec : DemoRecord) : demo_dict :=
  let constituency_id := dg_constituency_id rec in
  let demo_data :=
    if od_mem demo_data constituency_id then demo_data
    else od_set demo_data constituency_id [] in
  match rate_of (dg_values rec) with
  | Some rate =>
      od_set demo_data constituency_id
        (od_set (default [] (od_get demo_data constituency_id))
           (demo_ (dc_characteristics_id rec)) (Some rate))
  | None => demo_data
  end.

Definition fetch_all_demographics
  (categories : list CategoryRow) (rows : list DemoRecord)
  : DemoFrame * gmap string CategoryInfo :=
  (fold_left add_record rows [], build_category_info categories).

Definition strength_label (r : Q) : string :=
  let abs_r := Qabs r in
  if Qle_bool (5 # 10) abs_r then "Strong"
  else if Qle_bool (3 # 10) abs_r then "Moderate"
  else if Qle_bool (2 # 10) abs_r then "Weak"
  else "Very Weak".

Definition direction_label (r : Q) : string :=
  if Qlt_bool 0 r then "Positive" else "Negative".

Definition significant_label (p_value : Q) : string :=
  if Qlt_bool p_value (5 # 100) then "Yes" else "No".

Section Engine.

Variable pearsonr : list Q -> list Q -> Q * Q.

(** The body of the loop over [demo_cols]; [None] is [continue]. *)
Definition analyze_column
  (merged_df : Joined) (category_info : gmap string CategoryInfo)
  (col : string) : option CorrelationResult :=
  let char_id := replace_demo col in
  let valid_data := valid_data merged_df col in
  if (length valid_data <? 30)%nat then None
  else if std_eq_zero (map snd valid_data) then None
  else
    let '(r, p_value) := pearsonr (map snd valid_data) (map fst valid_data) in
    let info := category_info !! char_id in
    Some {| characteristics_id := char_id;
            category_l1 := default "" (category <$> info);
            subcategory_l2 := default "" (subcategory <$> info);
            subsubcategory_l3 := default "" (subsubcategory <$> info);
            pearson_r := round r 4;
            p_value := p_value;
            significant := significant_label p_value;
            correlation_strength := strength_label r;
            r_squared := round (r * r) 4;
            sample_size := length valid_data;
            direction := direction_label r |}.

Definition demo_cols (merged_df : Joined) : list string :=
  filter (fun col => String.prefix "demo_" col = true) (columns merged_df).

(** The list [results] when the loop ends. *)
Definition collect_results
  (merged_df : Joined) (category_info : gmap string CategoryInfo)
  : list CorrelationResult :=
  omap (analyze_column merged_df category_info) (demo_cols merged_df).

(** [pd.DataFrame(results)] of an empty list has no column, and
    [sort_values("Pearson r", ...)] then raises [KeyError]. *)
Definition calculate_all_correlations
  (merged_df : Joined) (category_info : gmap string CategoryInfo)
  : outcome (list CorrelationResult) :=
  match collect_results merged_df category_info with
  | [] => Raise (KeyError "Pearson r")
  | results => Ok (sort_values_abs_descending results)
  end.

End Engine.

(** The frames written to the sheets of the report. *)
Record Report : Type := {
  sig_df : list CorrelationResult;       (* "All Significant" *)
  pos_df : list CorrelationResult;       (* "Positive Correlations" *)
  neg_df : list CorrelationResult;       (* "Negative Correlations" *)
  all_results : list CorrelationResult   (* "All Results" *)
}.

Definition create_excel_report (results_df : list CorrelationResult)
  : Report :=
  {| sig_df :=
       sort_values_abs_descending
         (filter (fun row => significant row = "Yes") results_df);
     pos_df :=
       sort_values_descending
         (filter (fun row => significant row = "Yes"
                             ∧ direction row = "Positive") results_df);
     neg_df :=
       sort_values_ascending
         (filter (fun row => significant row = "Yes"
                             ∧ direction row = "Negative") results_df);
     all_results := results_df |}.

(** [main], up to the engine: load, fetch, merge, correlate. *)
Definition pipeline
  (pearsonr : list Q -> list Q -> Q * Q)
  (excel_file : list SheetRow)
  (categories : list CategoryRow) (rows : list DemoRecord)
  : outcome (Joined * list CorrelationResult) :=
  let cpc_df := load_cpc_votes excel_file in
  let '(demo_df, category_info) := fetch_all_demographics categories rows in
  bind (merge cpc_df demo_df) (fun merged_df =>
  bind (calculate_all_correlations pearsonr merged_df category_info)
       (fun results_df => Ok (merged_df, results_df))).

End All.

(** ** [analysis.py]: the focused report on four occupation attributes *)

Module Analysis.

Definition DEMO_CATEGORIES : odict string string :=
  [ ("2255", "Sales and service occupations");
    ("2256", "Trades, transport and equipment operators");
    ("2257", "Natural resources, agriculture");
    ("2258", "Manufacturing and utilities") ].

(** [rate = values.get("rateTotal", 0) if values else 0] *)
Definition rate_of (values : jsonb) : option Q :=
  if values_truthy values then
    match values with
    | Some o => default (Some 0%Q) (o !! "rateTotal")
    | None => Some 0%Q
    end
  else Some 0%Q.

(** The body of the loop over the fetched rows: the rate is stored
    whatever it is. *)
Definition add_record (demo_data : demo_dict) (rec : DemoRecord) : demo_dict :=
  let constituency_id := dg_constituency_id rec in
  let demo_data :=
    if od_mem demo_data constituency_id then demo_data
    else od_set demo_data constituency_id [] in
  let rate := rate_of (dg_values rec) in
  od_set demo_data constituency_id
    (od_set (default [] (od_get demo_data constituency_id))
       (demo_ (dc_characteristics_id rec)) rate).

(** [rows] is the answer of the query, already restricted to
    [characteristics_ids]. *)
Definition fetch_demographics (rows : list DemoRecord) : DemoFrame :=
  fold_left add_record rows [].

(** One record appended to [results] in [calculate_correlations]. *)
Record FocusedResult : Type := {
  f_characteristics_id : string;
  f_category : string;
  f_n : nat;
  f_pearson_r : Q;
  f_pearson_p : Q;
  f_spearman_rho : Q;
  f_spearman_p : Q;
  f_significant : bool
}.

Section Engine.

Variable pearsonr : list Q -> list Q -> Q * Q.
Variable spearmanr : list Q -> list Q -> Q * Q.

(** The body of the loop over [DEMO_CATEGORIES.items()]; [None] is
    [continue]. *)
Definition analyze_category
  (merged_df : Joined) (item : string * string) : option FocusedResult :=
  let '(char_id, label) := item in
  let col_name := demo_ char_id in
  if negb (bool_decide (col_name ∈ columns merged_df)) then None
  else
    let valid_data := valid_data merged_df col_name in
    if (length valid_data <? 10)%nat then None
    else
      let '(r, p_value) :=
        pearsonr (map snd valid_data) (map fst valid_data) in
      let '(rho, p_spearman) :=
        spearmanr (map snd valid_data) (map fst valid_data) in
      Some {| f_characteristics_id := char_id;
              f_category := label;
              f_n := length valid_data;
              f_pearson_r := round r 4;
              f_pearson_p := round p_value 6;
              f_spearman_rho := round rho 4;
              f_spearman_p := round p_spearman 6;
              f_significant := Qlt_bool p_value (5 # 100) |}.

(** [pd.DataFrame(results)], returned as it is: an empty list is an
    empty frame, not an error. *)
Definition calculate_correlations (merged_df : Joined)
  : list FocusedResult :=
  omap (analyze_category merged_df) DEMO_CATEGORIES.

End Engine.

(** [main], up to the engine. *)
Definition pipeline
  (pearsonr spearmanr : list Q -> list Q -> Q * Q)
  (excel_file : list SheetRow) (rows : list DemoRecord)
  : outcome (Joined * list FocusedResult) :=
  let cpc_df := load_cpc_votes excel_file in
  let demo_df := fetch_demographics rows in
  bind (merge cpc_df demo_df) (fun merged_df =>
  Ok (merged_df, calculate_correlations pearsonr spearmanr merged_df)).

End Analysis.

(** ** [scripts/analysis.py]: the focused report over a dict of categories *)

Module ScriptsAnalysis.

(** The text of [fetch_demographics] is that of [analysis.py]. *)
Definition fetch_demographics (rows : list DemoRecord) : DemoFrame :=
  fold_left Analysis.add_record rows [].

(** A value of [demo_categories_dict]: the dict built by
    [fetch_all_demographic_categories], or a plain label. *)
Inductive cat_info : Type :=
| CatDict (category subcategory subsubcategory : option string)
          (full_name short_name : string)
| CatLabel (label : string).

Record FocusedResult : Type := {
  f_characteristics_id : string;
  f_category : option string;
  f_subcategory : option string;
  f_subsubcategory : option string;
  f_short_name : string;
  f_full_name : string;
  f_n : nat;
  f_pearson_r : Q;
  f_pearson_p : Q;
  f_spearman_rho : Q;
  f_spearman_p : Q;
  f_significant : bool
}.

Section Engine.

Variable pearsonr : list Q -> list Q -> Q * Q.
Variable spearmanr : list Q -> list Q -> Q * Q.

Definition analyze_category
  (merged_df : Joined) (item : string * cat_info) : option FocusedResult :=
  let '(char_id, info) := item in
  let '(short_name, full_name, category, subcategory, subsubcategory) :=
    match info with
    | CatDict cat subcat subsubcat full short =>
        (short, full, cat, subcat, subsubcat)
    | CatLabel label =>
        (label, label, Some label, Some "", Some "")
    end in
  let col_name := demo_ char_id in
  if negb (bool_decide (col_name ∈ columns merged_df)) then None
  else
    let valid_data := valid_data merged_df col_name in
    if (length valid_data <? 10)%nat then None
    else
      let '(r, p_value) :=
        pearsonr (map snd valid_data) (map fst valid_data) in
      let '(rho, p_spearman) :=
        spearmanr (map snd valid_data) (map fst valid_data) in
      Some {| f_characteristics_id := char_id;
              f_category := category;
              f_subcategory := subcategory;
              f_subsubcategory := subsubcategory;
              f_short_name := short_name;
              f_full_name := full_name;
              f_n := length valid_data;
              f_pearson_r := round r 4;
              f_pearson_p := round p_value 6;
              f_spearman_rho := round rho 4;
              f_spearman_p := round p_spearman 6;
              f_significant := Qlt_bool p_value (5 # 100) |}.

Definition calculate_correlations
  (merged_df : Joined) (demo_categories_dict : odict string cat_info)
  : list FocusedResult :=
  omap (analyze_category merged_df) demo_categories_dict.

End Engine.

End ScriptsAnalysis.

(** ** [extract_votes.py]: the vote extractor *)

Module ExtractVotes.

(** An element of the JSONB array [party_results]; a missing key is
    [None]. *)
Record Party : Type := {
  partyCode : option string;
  votes : option Z;
  percentage : option Q
}.

(** A row of the results query. *)
Record ResultRow : Type := {
  er_constituency_id : Z;
  er_riding_name : string;
  er_riding_code : string;
  er_province : string;
  er_region : string;
  er_subregion : string;
  er_election_year : Z;
  er_total_votes : option Z;
  er_party_results : option (list Party);
  er_rep_order : Z
}.

(** [constituency_data[id]['elections'][year]] *)
Record ElectionEntry : Type := {
  total_votes : option Z;
  cpc_votes : Z;
  cpc_percentage : Q;
  rep_order : Z
}.

(** [constituency_data[id]] *)
Record ConstituencyEntry : Type := {
  ce_riding_name : string;
  ce_riding_code : string;
  ce_province : string;
  ce_region : string;
  ce_subregion : string;
  elections : gmap Z ElectionEntry
}.

Definition is_cpc (party : Party) : bool :=
  bool_decide (partyCode party = Some "CPC").

(** The scan of [party_results] up to the first CPC entry:
    [(cpc_votes, cpc_percentage)]. *)
Definition extract_cpc (party_results : option (list Party)) : Z * Q :=
  match party_results with
  | Some parties =>
      match List.find is_cpc parties with
      | Some party =>
          (default 0%Z (votes party),
           (default 0 (percentage party) * 100)%Q)
      | None => (0%Z, 0%Q)
      end
  | None => (0%Z, 0%Q)
  end.

Definition entry_of (row : ResultRow) : ElectionEntry :=
  let '(cpc_votes, cpc_percentage) := extract_cpc (er_party_results row) in
  {| total_votes := er_total_votes row;
     cpc_votes := cpc_votes;
     cpc_percentage := round cpc_percentage 2;
     rep_order := er_rep_order row |}.

(** [constituency_data[id] = {...}] for an id not seen before. *)
Definition fresh_entry (row : ResultRow) : ConstituencyEntry :=
  {| ce_riding_name := er_riding_name row;
     ce_riding_code := er_riding_code row;
     ce_province := er_province row;
     ce_region := er_region row;
     ce_subregion := er_subregion row;
     elections := ∅ |}.

(** [constituency_data[id]['elections'][year] = entry] *)
Definition set_election (year : Z) (entry : ElectionEntry)
  (data : ConstituencyEntry) : ConstituencyEntry :=
  {| ce_riding_name := ce_riding_name data;
     ce_riding_code := ce_riding_code data;
     ce_province := ce_province data;
     ce_region := ce_region data;
     ce_subregion := ce_subregion data;
     elections := <[year := entry]> (elections data) |}.

(** The body of the loop over [rows]: a row is skipped ([continue]) when
    the entry already stored for its year has a [rep_order] at least as
    high. *)
Definition process_row
  (constituency_data : gmap Z ConstituencyEntry) (row : ResultRow)
  : gmap Z ConstituencyEntry :=
  let constituency_id := er_constituency_id row in
  let constituency_data :=
    match constituency_data !! constituency_id with
    | Some _ => constituency_data
    | None => <[constituency_id := fresh_entry row]> constituency_data
    end in
  let existing :=
    constituency_data !! constituency_id
      ≫= (fun data => elections data !! er_election_year row) in
  let store :=
    alter (set_election (er_election_year row) (entry_of row))
      constituency_id constituency_data in
  match existing with
  | Some existing =>
      if (er_rep_order row <=? rep_order existing)%Z then constituency_data
      else store
  | None => store
  end.

Definition organize (rows : list ResultRow) : gmap Z ConstituencyEntry :=
  fold_left process_row rows ∅.

(** [constituency_data[id]['elections'].get(year)], when the id is
    there. *)
Definition stored (constituency_data : gmap Z ConstituencyEntry)
  (constituency_id year : Z) : option ElectionEntry :=
  constituency_data !! constituency_id
    ≫= (fun data => elections data !! year).

(** The rows of the query for one constituency and one election year, in
    query order. *)
Definition candidates (rows : list ResultRow) (constituency_id year : Z)
  : list ResultRow :=
  filter (fun row => er_constituency_id row = constituency_id
                     /\ er_election_year row = year) rows.

(** [row] is the first of [rows] with the highest [rep_order]: the rows
    before it are strictly lower, the rows after it lower or equal. *)
Definition first_highest (rows : list ResultRow) (row : ResultRow) : Prop :=
  exists before after,
    rows = (before ++ row :: after)%list /\
    Forall (fun r => (er_rep_order r < er_rep_order row)%Z) before /\
    Forall (fun r => (er_rep_order r <= er_rep_order row)%Z) after.

(** [e.get('cpc_percentage', 0)] for [e = elections.get(year, {})] *)
Definition pct (elections : gmap Z ElectionEntry) (year : Z) : Q :=
  match elections !! year with
  | Some e => cpc_percentage e
  | None => 0%Q
  end.

(** [round(pct_to - pct_from, 2) if pct_from and pct_to else None] *)
Definition change (pct_from pct_to : Q) : option Q :=
  if truthy pct_from && truthy pct_to
  then Some (round (pct_to - pct_from) 2)
  else None.

(** [pct if pct else ''] *)
Definition pct_cell (pct : Q) : option Q :=
  if truthy pct then Some pct else None.

(** [row_data] of one constituency. *)
Definition row_data (constituency_id : Z) (data : ConstituencyEntry)
  : SheetRow :=
  let elections := elections data in
  let e2019 := elections !! 2019%Z in
  let e2021 := elections !! 2021%Z in
  let e2025 := elections !! 2025%Z in
  let pct_2019 := pct elections 2019 in
  let pct_2021 := pct elections 2021 in
  let pct_2025 := pct elections 2025 in
  let change_21_25 := change pct_2021 pct_2025 in
  let change_19_25 := change pct_2019 pct_2025 in
  {| constituency_id := constituency_id;
     riding_name := ce_riding_name data;
     riding_code := ce_riding_code data;
     province := ce_province data;
     region := ce_region data;
     subregion := ce_subregion data;
     cpc_votes_2019 := cpc_votes <$> e2019;
     cpc_pct_2019 := pct_cell pct_2019;
     total_votes_2019 := e2019 ≫= total_votes;
     cpc_votes_2021 := cpc_votes <$> e2021;
     cpc_pct_2021 := pct_cell pct_2021;
     total_votes_2021 := e2021 ≫= total_votes;
     cpc_votes_2025 := cpc_votes <$> e2025;
     cpc_pct_2025 := pct_cell pct_2025;
     total_votes_2025 := e2025 ≫= total_votes;
     cpc_change_21_25 := change_21_25;
     cpc_change_19_25 := change_19_25 |}.

(** [sorted(constituency_data.keys())] *)
Definition sorted_keys (constituency_data : gmap Z ConstituencyEntry)
  : list Z :=
  merge_sort Z.le (map fst (map_to_list constituency_data)).

Definition sheet_rows (constituency_data : gmap Z ConstituencyEntry)
  : list SheetRow :=
  omap (fun constituency_id =>
          row_data constituency_id <$> constituency_data !! constituency_id)
       (sorted_keys constituency_data).

(** The workbook written by [extract_cpc_votes]; [None] when the
    elections or the results are not found. *)
Definition extract_cpc_votes
  (elections : list (Z * Z * string)) (rows : list ResultRow)
  : option (list SheetRow) :=
  match elections, rows with
  | [], _ => None
  | _, [] => None
  | _, _ => Some (sheet_rows (organize rows))
  end.

(** [extract_cpc_votes_csv]: the same loop and the same two change
    columns ([''] for blank); the file has no region columns. *)
Definition extract_cpc_votes_csv (rows : list ResultRow) : list SheetRow :=
  map (fun row =>
         {| constituency_id := constituency_id row;
            riding_name := riding_name row;
            riding_code := riding_code row;
            province := province row;
            region := "";
            subregion := "";
            cpc_votes_2019 := cpc_votes_2019 row;
            cpc_pct_2019 := cpc_pct_2019 row;
            total_votes_2019 := total_votes_2019 row;
            cpc_votes_2021 := cpc_votes_2021 row;
            cpc_pct_2021 := cpc_pct_2021 row;
            total_votes_2021 := total_votes_2021 row;
            cpc_votes_2025 := cpc_votes_2025 row;
            cpc_pct_2025 := cpc_pct_2025 row;
            total_votes_2025 := total_votes_2025 row;
            cpc_change_21_25 := cpc_change_21_25 row;
            cpc_change_19_25 := cpc_change_19_25 row |})
      (sheet_rows (organize rows)).

End ExtractVotes.

(** ** Sample data *)

Module Samples.
Import All.

Local Open Scope Q_scope.

(** [pearsonr] on exactly collinear samples: the coefficient is the sign
    of the covariance and the p-value is 0. *)
Definition collinear_pearsonr (xs ys : list Q) : Q * Q :=
  let mx := mean xs in
  let my := mean ys in
  let c := Qsum (zip_with (fun x y => (x - mx) * (y - my)) xs ys) in
  (if Qlt_bool 0 c then 1 else if Qlt_bool c 0 then -1 else 0, 0).

(** A spreadsheet row with only the identifier and the target filled. *)
Definition vote_row (id : Z) (change : option Q) : SheetRow :=
  {| constituency_id := id;
     riding_name := ""; riding_code := ""; province := "";
     region := ""; subregion := "";
     cpc_votes_2019 := None; cpc_pct_2019 := None; total_votes_2019 := None;
     cpc_votes_2021 := None; cpc_pct_2021 := None; total_votes_2021 := None;
     cpc_votes_2025 := None; cpc_pct_2025 := None; total_votes_2025 := None;
     cpc_change_21_25 := change;
     cpc_change_19_25 := None |}.

(** District [i] has vote change [i]: attribute 2255 is [2i + 1]
    (collinear with the target), attribute 2256 is always 0, attribute
    2257 is [-i] and known for the first [k] districts only. *)
Definition district_row (k i : nat) : JoinedRow :=
  let z := Z.of_nat i in
  {| vote := vote_row z (Some (inject_Z z));
     demo :=
       ([ ("demo_2255", Some (inject_Z (2 * z + 1)));
          ("demo_2256", Some 0) ]
        ++ (if (i <=? k)%nat then [("demo_2257", Some (inject_Z (- z)))]
            else []))%list |}.

(** The joined table of the districts [1..n]. *)
Definition districts (n k : nat) : Joined :=
  {| columns := (vote_columns ++ ["demo_2255"; "demo_2256"; "demo_2257"])%list;
     rows := map (district_row k) (seq 1 n) |}.

(** The record of attribute 2255 for the 40 districts. *)
Definition result_2255 : CorrelationResult :=
  {| characteristics_id := "2255";
     category_l1 := ""; subcategory_l2 := ""; subsubcategory_l3 := "";
     pearson_r := 1; p_value := 0; significant := "Yes";
     correlation_strength := "Strong"; r_squared := 1;
     sample_size := 40; direction := "Positive" |}.

(** The record of attribute 2257 when it is known for all 40 districts. *)
Definition result_2257 : CorrelationResult :=
  {| characteristics_id := "2257";
     category_l1 := ""; subcategory_l2 := ""; subsubcategory_l3 := "";
     pearson_r := -1; p_value := 0; significant := "Yes";
     correlation_strength := "Strong"; r_squared := 1;
     sample_size := 40; direction := "Negative" |}.

(** A spreadsheet of three districts; the third has no 2021-2025 change. *)
Definition sheet : list SheetRow :=
  [ vote_row 1 (Some 3); vote_row 2 (Some (-2)); vote_row 3 None ].

(** A payload [{"rateTotal": rate}]. *)
Definition rate_total (rate : Q) : jsonb :=
  Some {[ "rateTotal" := Some rate ]}.

(** Records of districts 2, 3 and 4.  District 2 has a rate for
    attribute 2255 and a record without payload for attribute 2256;
    district 4 has a payload without the rate for attribute 2255. *)
Definition records : list DemoRecord :=
  [ {| dg_constituency_id := 2; dc_characteristics_id := "2255";
       dg_values := rate_total (25 # 2) |};
    {| dg_constituency_id := 2; dc_characteristics_id := "2256";
       dg_values := None |};
    {| dg_constituency_id := 3; dc_characteristics_id := "2255";
       dg_values := rate_total (7 # 1) |};
    {| dg_constituency_id := 4; dc_characteristics_id := "2255";
       dg_values := Some {[ "countTotal" := Some 120 ]} |} ].

(** An entry of [party_results]. *)
Definition party (code : string) (share : Q) : ExtractVotes.Party :=
  {| ExtractVotes.partyCode := Some code;
     ExtractVotes.votes := Some (Qfloor (share * 50000));
     ExtractVotes.percentage := Some share |}.

Definition result_row (id year rep : Z) (parties : list ExtractVotes.Party)
  : ExtractVotes.ResultRow :=
  {| ExtractVotes.er_constituency_id := id;
     ExtractVotes.er_riding_name := "";
     ExtractVotes.er_riding_code := "";
     ExtractVotes.er_province := "";
     ExtractVotes.er_region := "";
     ExtractVotes.er_subregion := "";
     ExtractVotes.er_election_year := year;
     ExtractVotes.er_total_votes := Some 50000%Z;
     ExtractVotes.er_party_results := Some parties;
     ExtractVotes.er_rep_order := rep |}.

(** The answer of the results query.  District 7 had no CPC vote at all
    in 2019 (a share of exactly 0) and has three records for 2021, of
    [rep_order] 1, 2 and 2; district 8 has no CPC entry in 2021; district
    9 has no record for 2021. *)
Definition election_rows : list ExtractVotes.ResultRow :=
  [ result_row 7 2019 2 [party "LPC" (60 # 100); party "CPC" 0];
    result_row 7 2021 1 [party "CPC" (30 # 100)];
    result_row 7 2021 2 [party "CPC" (35 # 100)];
    result_row 7 2021 2 [party "CPC" (38 # 100)];
    result_row 7 2025 1 [party "CPC" (40 # 100)];
    result_row 8 2019 2 [party "CPC" (20 # 100)];
    result_row 8 2021 2 [party "LPC" (55 # 100)];
    result_row 8 2025 1 [party "CPC" (41 # 100)];
    result_row 9 2019 2 [party "CPC" (25 # 100)];
    result_row 9 2025 1 [party "CPC" (45 # 100)] ]%Z.

End Samples.

(** ** Vocabulary for the loaders and the engines *)

Module Vocabulary.

(** The rates that the records of [records] supply, in query order, for
    district [id] and attribute column [col], as [all.py] reads them. *)
Definition supplied_rates (records : list DemoRecord) (id : Z) (col : string)
  : list Q :=
  omap (fun rec => All.rate_of (dg_values rec))
    (filter (fun rec => dg_constituency_id rec = id
                        /\ demo_ (dc_characteristics_id rec) = col) records).

(** The rates that the focused loaders store for the pair, in query
    order: one per record of the pair, null included. *)
Definition stored_rates (records : list DemoRecord) (id : Z) (col : string)
  : list (option Q) :=
  map (fun rec => Analysis.rate_of (dg_values rec))
    (filter (fun rec => dg_constituency_id rec = id
                        /\ demo_ (dc_characteristics_id rec) = col) records).

(** A column passes the two filters of the full sweep. *)
Definition passes_sweep (merged_df : Joined) (col : string) : bool :=
  (30 <=? length (valid_data merged_df col))%nat
  && negb (std_eq_zero (map snd (valid_data merged_df col))).

(** A listed attribute passes the filters of the focused engines. *)
Definition passes_focused (merged_df : Joined) (char_id : string) : bool :=
  bool_decide (demo_ char_id ∈ columns merged_df)
  && (10 <=? length (valid_data merged_df (demo_ char_id)))%nat.

End Vocabulary.
Export Vocabulary.

(** ** [all.py]: the console view, the charts, the cell fills and the
       summary *)

Module AllViews.
Import All.

Inductive fill : Set :=
| strong_pos_fill | weak_pos_fill | strong_neg_fill | weak_neg_fill.

(** The fill that [write_sheet] gives to a cell of the "Pearson r"
    column; [None] leaves the cell as it is. *)
Definition pearson_fill (value : Q) : option fill :=
  if Qle_bool (3 # 10) value then Some strong_pos_fill
  else if Qlt_bool 0 value then Some weak_pos_fill
  else if Qle_bool value (- (3 # 10)) then Some strong_neg_fill
  else if Qlt_bool value 0 then Some weak_neg_fill
  else None.

(** The lists printed by [print_top_correlations] and the frame it
    returns. *)
Record TopCorrelations : Type := {
  top : list CorrelationResult;
  top_positive : list CorrelationResult;
  top_negative : list CorrelationResult;
  returned_sig_df : list CorrelationResult
}.

Definition print_top_correlations
  (results_df : list CorrelationResult) (top_n : nat) : TopCorrelations :=
  let sig_df := filter (fun row => significant row = "Yes") results_df in
  {| top := take top_n sig_df;
     top_positive :=
       take 10 (filter (fun row => direction row = "Positive") sig_df);
     top_negative :=
       take 10 (sort_values_ascending
                  (filter (fun row => direction row = "Negative") sig_df));
     returned_sig_df := sig_df |}.

(** The bars of [create_visualizations]: [(top_pos, top_neg)]. *)
Definition create_visualizations (results_df : list CorrelationResult)
  : list CorrelationResult * list CorrelationResult :=
  let sig_df := filter (fun row => significant row = "Yes") results_df in
  (take 12 (filter (fun row => direction row = "Positive") sig_df),
   take 12 (sort_values_ascending
              (filter (fun row => direction row = "Negative") sig_df))).

(** The counts of the summary printed by [main]. *)
Record Summary : Type := {
  total_tested : nat;
  significant_count : nat;
  pos_count : nat;
  neg_count : nat
}.

Definition summary_statistics (results_df : list CorrelationResult)
  : Summary :=
  {| total_tested := length results_df;
     significant_count :=
       length (filter (fun row => significant row = "Yes") results_df);
     pos_count :=
       length (filter (fun row => significant row = "Yes"
                                  ∧ direction row = "Positive") results_df);
     neg_count :=
       length (filter (fun row => significant row = "Yes"
                                  ∧ direction row = "Negative") results_df) |}.

End AllViews.

(** ** The wording of the focused reports ([analysis.py],
       [scripts/analysis.py]) *)

Module Wording.

(** [strength = "weak"], then ["strong"] or ["moderate"] by [abs(r)]. *)
Definition strength_text (r : Q) : string :=
  if Qle_bool (5 # 10) (Qabs r) then "strong"
  else if Qle_bool (3 # 10) (Qabs r) then "moderate"
  else "weak".

Definition direction_text (r : Q) : string :=
  if Qlt_bool 0 r then "positive" else "negative".

(** The significance stars of the charts. *)
Definition stars (p : Q) : string :=
  if Qlt_bool p (1 # 1000) then "***"
  else if Qlt_bool p (1 # 100) then "**"
  else if Qlt_bool p (5 # 100) then "*"
  else "".

End Wording.

(** ** [scripts/analysis.py]: the category names and the charts *)

Module ScriptsViews.
Import ScriptsAnalysis.

(** Truthiness of a label: [None] and [""] are falsy. *)
Definition label_truthy (x : option string) : bool :=
  match x with
  | Some s => negb (bool_decide (s = ""))
  | None => false
  end.

(** [[p for p in [cat, subcat, subsubcat] if p]] *)
Definition name_parts (cat subcat subsubcat : option string) : list string :=
  omap (fun x => if label_truthy x then x else None)
    [cat; subcat; subsubcat].

(** [sep.join(parts)] *)
Fixpoint join (sep : string) (parts : list string) : string :=
  match parts with
  | [] => ""
  | [p] => p
  | p :: rest => p ++ sep ++ join sep rest
  end.

(** [" → ".join(parts) if parts else "Unknown"] *)
Definition full_name_of (cat subcat subsubcat : option string) : string :=
  match name_parts cat subcat subsubcat with
  | [] => "Unknown"
  | parts => join " → " parts
  end.

(** [x or y] on labels, the last operand being a plain string. *)
Definition or_label (x : option string) (y : string) : string :=
  match x with
  | Some s => if label_truthy x then s else y
  | None => y
  end.

(** [subsubcat or subcat or cat or "Unknown"] *)
Definition short_name_of (cat subcat subsubcat : option string) : string :=
  or_label subsubcat (or_label subcat (or_label cat "Unknown")).

(** A row of the categories query:
    [(characteristics_id, category, subcategory, subsubcategory)]. *)
Definition CategoryRow : Type :=
  string * option string * option string * option string.

Definition fetch_all_demographic_categories (rows : list CategoryRow)
  : odict string cat_info :=
  fold_left
    (fun categories row =>
       let '(char_id, cat, subcat, subsubcat) := row in
       od_set categories char_id
         (CatDict cat subcat subsubcat
            (full_name_of cat subcat subsubcat)
            (short_name_of cat subcat subsubcat)))
    rows [].

(** [sort_values("pearson_r", ascending=False)] *)
Definition by_pearson_r_descending (a b : FocusedResult) : Prop :=
  (f_pearson_r b <= f_pearson_r a)%Q.

#[export] Instance by_pearson_r_descending_dec a b :
  Decision (by_pearson_r_descending a b) := Qle_decision _ _.



Section Text.

(** The characters of Python strings, with the four that the code
    names. *)
Context {C : Type} `{EqDecision C}.
Variable isalnum : C -> bool.
Variables dot space underscore hyphen : C.

(** [label[:limit - 3] + "..." if len(label) > limit else label]: the
    chart labels ([limit] 50) and the plot titles ([limit] 60). *)
Definition truncate_label (limit : nat) (label : list C) : list C :=
  if (limit <? length label)%nat
  then (take (limit - 3) label ++ [dot; dot; dot])%list
  else label.

(** ["".join(c if c.isalnum() or c in " _-" else "_"
             for c in label[:30])] *)
Definition safe_label (label : list C) : list C :=
  map (fun c => if isalnum c || bool_decide (c ∈ [space; underscore; hyphen])
                then c else underscore)
    (take 30 label).

(** The characters [safe_label] keeps. *)
Definition kept (c : C) : Prop :=
  isalnum c = true \/ c ∈ [space; underscore; hyphen].

End Text.

End ScriptsViews.

(** ** [extract_votes.py]: the closing summary *)

Module ExtractSummary.
Import ExtractVotes.

(** [2019 in c['elections'] and 2021 in c['elections']
     and 2025 in c['elections']] *)
Definition has_all_years (c : ConstituencyEntry) : bool :=
  bool_decide (is_Some (elections c !! 2019%Z))
  && bool_decide (is_Some (elections c !! 2021%Z))
  && bool_decide (is_Some (elections c !! 2025%Z)).

Definition constituencies_with_all_years
  (constituency_data : gmap Z ConstituencyEntry) : nat :=
  length (filter (fun c => has_all_years c = true)
            (map snd (map_to_list constituency_data))).

(** The five descriptive fields: of a query row, of an entry of
    [constituency_data], and of a sheet row. *)
Definition row_metadata (row : ResultRow)
  : string * string * string * string * string :=
  (er_riding_name row, er_riding_code row, er_province row,
   er_region row, er_subregion row).

Definition metadata (c : ConstituencyEntry)
  : string * string * string * string * string :=
  (ce_riding_name c, ce_riding_code c, ce_province c,
   ce_region c, ce_subregion c).

Definition sheet_metadata (r : SheetRow)
  : string * string * string * string * string :=
  (riding_name r, riding_code r, province r, region r, subregion r).

(** The three "CPC Votes" cells of a sheet row are filled. *)
Definition all_votes_filled (r : SheetRow) : bool :=
  bool_decide (is_Some (cpc_votes_2019 r))
  && bool_decide (is_Some (cpc_votes_2021 r))
  && bool_decide (is_Some (cpc_votes_2025 r)).

(** Both change cells of a sheet row are filled. *)
Definition both_changes_filled (r : SheetRow) : bool :=
  bool_decide (is_Some (cpc_change_21_25 r))
  && bool_decide (is_Some (cpc_change_19_25 r)).

End ExtractSummary.

(** ** More sample data *)

Module MoreSamples.
Import Samples.

Local Open Scope Q_scope.

(** The spreadsheet of the districts [1..n], with vote change [i]. *)
Definition wide_sheet (n : nat) : list SheetRow :=
  map (fun i => vote_row (Z.of_nat i) (Some (inject_Z (Z.of_nat i))))
    (seq 1 n).

(** One record per district [1..n]: attribute 2255 with rate [2i + 1]. *)
Definition wide_records (n : nat) : list DemoRecord :=
  map (fun i => {| dg_constituency_id := Z.of_nat i;
                   dc_characteristics_id := "2255";
                   dg_values := rate_total (inject_Z (2 * Z.of_nat i + 1)) |})
    (seq 1 n).

(** Two records for the same pair: the second rate replaces the first. *)
Definition repeated_records : list DemoRecord :=
  [ {| dg_constituency_id := 5; dc_characteristics_id := "2255";
       dg_values := rate_total (11 # 1) |};
    {| dg_constituency_id := 5; dc_characteristics_id := "2255";
       dg_values := rate_total (13 # 1) |};
    {| dg_constituency_id := 5; dc_characteristics_id := "2255";
       dg_values := Some {[ "rateTotal" := None ]} |} ].

End MoreSamples.

(** ** Python floats *)

Module PyFloats.

Local Open Scope Q_scope.

(** A Python float: a number or NaN, the answer that scipy gives for a
    constant sample.  Infinities are not modelled. *)
Inductive float : Type :=
| Number (q : Q)
| NaN.

(** [abs(x)], [round(x, ndigits)] and [x ** 2]: NaN stays NaN. *)
Definition fabs (x : float) : float :=
  match x with
  | Number q => Number (Qabs q)
  | NaN => NaN
  end.

Definition fround (x : float) (ndigits : nat) : float :=
  match x with
  | Number q => Number (round q ndigits)
  | NaN => NaN
  end.

Definition fsquare (x : float) : float :=
  match x with
  | Number q => Number (q * q)
  | NaN => NaN
  end.

(** [x >= c], [x > c] and [x < c] for a constant [c]: every comparison
    with NaN is false. *)
Definition ge_const (x : float) (c : Q) : bool :=
  match x with
  | Number q => Qle_bool c q
  | NaN => false
  end.

Definition gt_const (x : float) (c : Q) : bool :=
  match x with
  | Number q => Qlt_bool c q
  | NaN => false
  end.

Definition lt_const (x : float) (c : Q) : bool :=
  match x with
  | Number q => Qlt_bool q c
  | NaN => false
  end.

End PyFloats.
Export PyFloats.

(** ** [all.py]: the correlation engine with the floats of pandas and
       scipy

    The engine of [All] reads the variance test in exact arithmetic and
    takes a numeric answer of [pearsonr].  Here the two float
    computations are kept as the program has them: the test
    [valid_data[col].std() == 0] is whatever pandas evaluates it to (a
    parameter), and [pearsonr] may answer NaN. *)

Module Sweep.

Local Open Scope Q_scope.

(** One record appended to [results]; the fields are the keys of the
    dict, in order. *)
Record CorrelationResult : Type := {
  characteristics_id : string;      (* "Characteristics ID" *)
  category_l1 : string;             (* "Category (Level 1)" *)
  subcategory_l2 : string;          (* "Subcategory (Level 2)" *)
  subsubcategory_l3 : string;       (* "Subsubcategory (Level 3)" *)
  pearson_r : float;                (* "Pearson r" *)
  p_value : float;                  (* "p-value" *)
  significant : string;             (* "Significant (p<0.05)" *)
  correlation_strength : string;    (* "Correlation Strength" *)
  r_squared : float;                (* "R-squared" *)
  sample_size : nat;                (* "Sample Size (n)" *)
  direction : string                (* "Direction" *)
}.

Definition strength_label (r : float) : string :=
  let abs_r := fabs r in
  if ge_const abs_r (5 # 10) then "Strong"
  else if ge_const abs_r (3 # 10) then "Moderate"
  else if ge_const abs_r (2 # 10) then "Weak"
  else "Very Weak".

Definition direction_label (r : float) : string :=
  if gt_const r 0 then "Positive" else "Negative".

Definition significant_label (p_value : float) : string :=
  if lt_const p_value (5 # 100) then "Yes" else "No".

(** The order of [sort_values("Pearson r", key=abs, ascending=False)]:
    larger [|r|] first, NaN last. *)
Definition by_abs_r_descending (a b : CorrelationResult) : Prop :=
  match pearson_r a, pearson_r b with
  | Number x, Number y => Qabs y <= Qabs x
  | _, NaN => True
  | NaN, Number _ => False
  end.

#[export] Instance by_abs_r_descending_dec a b :
  Decision (by_abs_r_descending a b).
Proof.
  unfold by_abs_r_descending.
  destruct (pearson_r a), (pearson_r b); apply _.
Defined.

(** The order pandas gives to rows of equal key is its own. *)
Definition sort_values_abs_descending := merge_sort by_abs_r_descending.

Section Engine.

(** [values.std() == 0], as pandas evaluates it in floating point. *)
Variable std_is_zero : list Q -> bool.

Variable pearsonr : list Q -> list Q -> float * float.

(** The body of the loop over [demo_cols]; [None] is [continue]. *)
Definition analyze_column
  (merged_df : Joined) (category_info : gmap string All.CategoryInfo)
  (col : string) : option CorrelationResult :=
  let char_id := replace_demo col in
  let valid_data := valid_data merged_df col in
  if (length valid_data <? 30)%nat then None
  else if std_is_zero (map snd valid_data) then None
  else
    let '(r, p_value) := pearsonr (map snd valid_data) (map fst valid_data) in
    let info := category_info !! char_id in
    Some {| characteristics_id := char_id;
            category_l1 := default "" (All.category <$> info);
            subcategory_l2 := default "" (All.subcategory <$> info);
            subsubcategory_l3 := default "" (All.subsubcategory <$> info);
            pearson_r := fround r 4;
            p_value := p_value;
            significant := significant_label p_value;
            correlation_strength := strength_label r;
            r_squared := fround (fsquare r) 4;
            sample_size := length valid_data;
            direction := direction_label r |}.

(** The list [results] when the loop ends. *)
Definition collect_results
  (merged_df : Joined) (category_info : gmap string All.CategoryInfo)
  : list CorrelationResult :=
  omap (analyze_column merged_df category_info) (All.demo_cols merged_df).

(** [pd.DataFrame(results)] of an empty list has no column, and
    [sort_values("Pearson r", ...)] then raises [KeyError]. *)
Definition calculate_all_correlations
  (merged_df : Joined) (category_info : gmap string All.CategoryInfo)
  : outcome (list CorrelationResult) :=
  match collect_results merged_df category_info with
  | [] => Raise (KeyError "Pearson r")
  | results => Ok (sort_values_abs_descending results)
  end.

End Engine.

(** A record of [All], read as a record of floats, and a numeric
    [pearsonr], read as one that never answers NaN. *)
Definition of_numeric (res : Results.CorrelationResult) : CorrelationResult :=
  {| characteristics_id := Results.characteristics_id res;
     category_l1 := Results.category_l1 res;
     subcategory_l2 := Results.subcategory_l2 res;
     subsubcategory_l3 := Results.subsubcategory_l3 res;
     pearson_r := Number (Results.pearson_r res);
     p_value := Number (Results.p_value res);
     significant := Results.significant res;
     correlation_strength := Results.correlation_strength res;
     r_squared := Number (Results.r_squared res);
     sample_size := Results.sample_size res;
     direction := Results.direction res |}.

Definition numeric_answers (pearsonr : list Q -> list Q -> Q * Q)
  (xs ys : list Q) : float * float :=
  let '(r, p_value) := pearsonr xs ys in (Number r, Number p_value).

(** Neither external computation depends on the order of the
    observations (they do in floating point, through the order of their
    sums, and only through it). *)
Definition order_blind
  (std_is_zero : list Q -> bool)
  (pearsonr : list Q -> list Q -> float * float) : Prop :=
  (forall xs xs', xs ≡ₚ xs' -> std_is_zero xs = std_is_zero xs') /\
  (forall pairs pairs' : list (Q * Q),
     pairs ≡ₚ pairs' ->
     pearsonr (map snd pairs) (map fst pairs)
     = pearsonr (map snd pairs') (map fst pairs')).

(** No two records have the same ordering key. *)
Definition distinct_keys (results : list CorrelationResult) : Prop :=
  forall a b, a ∈ results -> b ∈ results ->
    by_abs_r_descending a b -> by_abs_r_descending b a -> a = b.

End Sweep.

(** ** The standard formula of the Pearson coefficient *)

Module Formula.

Local Open Scope Q_scope.

(** The sum of the products of the deviations from the means. *)
Definition Sxy (xs ys : list Q) : Q :=
  let mx := mean xs in
  let my := mean ys in
  Qsum (zip_with (fun x y => (x - mx) * (y - my)) xs ys).

(** After the spec's words, "the Pearson product-moment correlation as
    given by the standard formula": [rho = Sxy / sqrt (Sxx * Syy)], said
    without the square root.  [rho] is a rational value of the formula;
    the formula has no value when a sample is constant. *)
Definition pearson_formula (xs ys : list Q) (rho : Q) : Prop :=
  0 < Sxy xs xs /\ 0 < Sxy ys ys /\
  rho * rho * (Sxy xs xs * Sxy ys ys) == Sxy xs ys * Sxy xs ys /\
  (0 <= rho <-> 0 <= Sxy xs ys).

End Formula.

(** ** Sample tables for the float engine *)

Module SweepSamples.
Import Samples Formula.

Local Open Scope Q_scope.

(** [pearsonr] on two samples of equal spread ([Sxx = Syy]), where the
    formula needs no square root: the coefficient is [Sxy / Sxx].  The
    p-value needs the t distribution and is not computed: it is given. *)
Definition equal_spread_pearsonr (p_value : Q) (xs ys : list Q)
  : float * float :=
  (Number (Qred (Sxy xs ys / Sxy xs xs)), Number p_value).

(** Points [(x, y)] that leave the means at 0 and the two sums of squares
    equal. *)
Definition diagonal (u : Z) : list (Z * Z) := [(u, u); (- u, - u)]%Z.
Definition antidiagonal (v : Z) : list (Z * Z) := [(v, - v); (- v, v)]%Z.
Definition cross (w : Z) : list (Z * Z) :=
  [(w, 0); (- w, 0); (0, w); (0, - w)]%Z.

(** Thirty points whose sums of squares are both 50000 and whose sum of
    products is 24998: the Pearson coefficient is exactly 0.49996. *)
Definition near_half_points : list (Z * Z) :=
  (diagonal 111 ++ diagonal 13 ++ diagonal 3
   ++ cross 111 ++ cross 12 ++ cross 6
   ++ replicate 12 (0, 0)%Z)%list.

(** Thirty points with sums of squares 50000 and sum of products 2: the
    Pearson coefficient is exactly 0.00004. *)
Definition near_zero_points : list (Z * Z) :=
  (diagonal 2 ++ diagonal 1 ++ antidiagonal 2
   ++ cross 158 ++ cross 5 ++ cross 1 ++ cross 1
   ++ replicate 8 (0, 0)%Z)%list.

(** The joined table of the districts [1..n] of a list of points: the
    rate of attribute 2255 is [(x + 160) / 4] and the vote change
    [y / 4]. *)
Definition point_row (i : nat) (point : Z * Z) : JoinedRow :=
  {| vote := vote_row (Z.of_nat (S i)) (Some (inject_Z (snd point) / 4));
     demo := [("demo_2255", Some ((inject_Z (fst point) + 160) / 4))] |}.

Definition point_table (points : list (Z * Z)) : Joined :=
  {| columns := (vote_columns ++ ["demo_2255"])%list;
     rows := imap point_row points |}.

(** [pearsonr] for the two tables: thirty pairs of coefficient 0.49996
    have the p-value 0.004904, thirty pairs of coefficient 0.00004 the
    p-value 0.999833 (to six decimals). *)
Definition near_half_pearsonr : list Q -> list Q -> float * float :=
  equal_spread_pearsonr (4904 # 1000000).
Definition near_zero_pearsonr : list Q -> list Q -> float * float :=
  equal_spread_pearsonr (999833 # 1000000).

(** The same table with its rows in the opposite order. *)
Definition reversed (merged_df : Joined) : Joined :=
  {| columns := columns merged_df; rows := reverse (rows merged_df) |}.

(** The records of the two tables. *)
Definition near_half_result : Sweep.CorrelationResult :=
  {| Sweep.characteristics_id := "2255";
     Sweep.category_l1 := ""; Sweep.subcategory_l2 := "";
     Sweep.subsubcategory_l3 := "";
     Sweep.pearson_r := Number (1 # 2);
     Sweep.p_value := Number (4904 # 1000000);
     Sweep.significant := "Yes"; Sweep.correlation_strength := "Moderate";
     Sweep.r_squared := Number (1 # 4); Sweep.sample_size := 30;
     Sweep.direction := "Positive" |}.

Definition near_zero_result : Sweep.CorrelationResult :=
  {| Sweep.characteristics_id := "2255";
     Sweep.category_l1 := ""; Sweep.subcategory_l2 := "";
     Sweep.subsubcategory_l3 := "";
     Sweep.pearson_r := Number 0;
     Sweep.p_value := Number (999833 # 1000000);
     Sweep.significant := "No"; Sweep.correlation_strength := "Very Weak";
     Sweep.r_squared := Number 0; Sweep.sample_size := 30;
     Sweep.direction := "Positive" |}.

End SweepSamples.


(* ===================================================================== *)
(** * Part II. Properties                                                  *)
(* ===================================================================== *)

(** ** Numbers *)

Module NumFacts.

Local Open Scope Q_scope.

Lemma Qlt_bool_iff (x y : Q) : Qlt_bool x y = true <-> x < y.
Proof.
  unfold Qlt_bool. rewrite negb_true_iff.
  destruct (Qle_bool y x) eqn:E.
  - apply Qle_bool_iff in E. split; [discriminate | lra].
  - split; [intros _ | reflexivity].
    apply Qnot_le_lt. intros H. apply Qle_bool_iff in H. congruence.
Qed.

Lemma Qle_bool_false (x y : Q) : Qle_bool x y = false <-> y < x.
Proof.
  rewrite <- Qlt_bool_iff. unfold Qlt_bool.
  destruct (Qle_bool x y); simpl; intuition congruence.
Qed.

Lemma truthy_false_iff (x : Q) : truthy x = false <-> x == 0.
Proof.
  unfold truthy. rewrite negb_false_iff. apply Qeq_bool_iff.
Qed.

Lemma Qsum_constant (c : Q) (l : list Q) :
  Forall (fun x => x == c) l ->
  Qsum l == inject_Z (Z.of_nat (length l)) * c.
Proof.
  induction 1 as [|x l Hx _ IH]; simpl.
  - unfold Qsum; simpl. ring.
  - unfold Qsum in *. cbn [foldr length]. rewrite IH, Hx.
    rewrite Nat2Z.inj_succ. unfold Z.succ. rewrite inject_Z_plus. ring.
Qed.

Lemma Qsum_zero (l : list Q) : Forall (fun x => x == 0) l -> Qsum l == 0.
Proof.
  intros H. rewrite (Qsum_constant 0 l H). ring.
Qed.

Lemma mean_constant (c : Q) (l : list Q) :
  l <> [] -> Forall (fun x => x == c) l -> mean l == c.
Proof.
  intros Hne H. unfold mean. rewrite (Qsum_constant c l H).
  field. intros E.
  destruct l; [congruence|].
  unfold Qeq in E. simpl in E. lia.
Qed.

(** A column whose values are all equal has standard deviation zero, as
    soon as it has the two values that a standard deviation needs. *)
Lemma std_eq_zero_constant (c : Q) (l : list Q) :
  (2 <= length l)%nat -> Forall (fun x => x == c) l -> std_eq_zero l = true.
Proof.
  intros Hlen H. unfold std_eq_zero, var.
  destruct (length l <=? 1)%nat eqn:E; [apply Nat.leb_le in E; lia|].
  apply Qeq_bool_iff.
  assert (Hm : mean l == c).
  { apply mean_constant; [|exact H]. destruct l; simpl in *; [lia|congruence]. }
  rewrite Qsum_zero; [reflexivity|].
  apply Forall_map. eapply Forall_impl; [exact H|].
  intros x Hx. simpl. rewrite Hx, Hm. ring.
Qed.

Lemma round_half_even_comp (q q' : Q) :
  q == q' -> round_half_even q = round_half_even q'.
Proof.
  intros E. unfold round_half_even.
  rewrite (Qfloor_comp _ _ E).
  rewrite (Qcompare_comp (q - inject_Z (Qfloor q')) (q' - inject_Z (Qfloor q'))
             (ltac:(rewrite E; reflexivity)) (1 # 2) (1 # 2) (Qeq_refl _)).
  reflexivity.
Qed.

(** [round] does not see how a rational is written. *)
Lemma round_comp (q q' : Q) (ndigits : nat) :
  q == q' -> round q ndigits = round q' ndigits.
Proof.
  intros E. unfold round. cbv zeta.
  set (scale := inject_Z (10 ^ Z.of_nat ndigits)).
  rewrite (round_half_even_comp (q * scale) (q' * scale)); [reflexivity|].
  rewrite E. reflexivity.
Qed.

End NumFacts.

(** ** Insertion-ordered dicts *)

Module OdictFacts.

Section Odict.
Context {K V : Type} `{EqDecision K}.
Implicit Types (d : odict K V) (k : K) (v : V).

Lemma od_get_set_eq d k v : od_get (od_set d k v) k = Some v.
Proof.
  induction d as [|[k' v'] d IH]; simpl.
  - rewrite decide_True; auto.
  - destruct (decide (k' = k)); simpl.
    + rewrite decide_True; auto.
    + rewrite decide_False; auto.
Qed.

Lemma od_get_set_ne d k k' v :
  k <> k' -> od_get (od_set d k v) k' = od_get d k'.
Proof.
  intros Hne. induction d as [|[k0 v0] d IH]; simpl.
  - rewrite decide_False; auto.
  - destruct (decide (k0 = k)) as [->|]; simpl.
    + rewrite !decide_False; auto.
    + rewrite IH. reflexivity.
Qed.

Lemma od_mem_keys d k : od_mem d k = true <-> k ∈ od_keys d.
Proof.
  unfold od_mem, od_keys. induction d as [|[k' v'] d IH]; simpl.
  - split; [discriminate | inversion 1].
  - rewrite elem_of_cons. destruct (decide (k' = k)) as [->|Hne].
    + tauto.
    + rewrite IH. split; [tauto|]. intros [E|]; [congruence | auto].
Qed.

Lemma od_keys_set d k v :
  od_keys (od_set d k v)
  = if od_mem d k then od_keys d else (od_keys d ++ [k])%list.
Proof.
  unfold od_mem, od_keys. induction d as [|[k' v'] d IH]; simpl.
  - reflexivity.
  - destruct (decide (k' = k)) as [->|Hne]; simpl.
    + reflexivity.
    + rewrite IH. destruct (od_get d k); reflexivity.
Qed.

Lemma od_get_elem_of d k v : od_get d k = Some v -> (k, v) ∈ d.
Proof.
  induction d as [|[k' v'] d IH]; simpl; [discriminate|].
  destruct (decide (k' = k)) as [->|Hne].
  - intros [= ->]. left.
  - intros H. right. auto.
Qed.

Lemma od_elem_of_get d k v :
  NoDup (od_keys d) -> (k, v) ∈ d -> od_get d k = Some v.
Proof.
  unfold od_keys. induction d as [|[k' v'] d IH]; simpl.
  - inversion 2.
  - rewrite NoDup_cons. intros [Hnin Hnd]. rewrite elem_of_cons.
    intros [[= -> ->]|Hin].
    + rewrite decide_True; auto.
    + rewrite decide_False; [auto|].
      intros ->. apply Hnin. apply list_elem_of_fmap. exists (k, v). auto.
Qed.

Lemma od_elem_of_set d k v k' v' :
  (k', v') ∈ od_set d k v -> (k' = k /\ v' = v) \/ (k', v') ∈ d.
Proof.
  induction d as [|[k0 v0] d IH]; simpl.
  - rewrite list_elem_of_singleton. intros [= -> ->]. auto.
  - destruct (decide (k0 = k)) as [->|Hne]; rewrite !elem_of_cons.
    + intros [[= -> ->]|Hin]; auto.
    + intros [[= -> ->]|Hin]; [auto|].
      destruct (IH Hin); auto.
Qed.

Lemma od_keys_set_NoDup d k v :
  NoDup (od_keys d) -> NoDup (od_keys (od_set d k v)).
Proof.
  intros Hnd. rewrite od_keys_set.
  destruct (od_mem d k) eqn:E; [exact Hnd|].
  apply NoDup_app. split; [exact Hnd|]. split; [|apply NoDup_singleton].
  intros x Hx. rewrite list_elem_of_singleton. intros ->.
  apply od_mem_keys in Hx. congruence.
Qed.

End Odict.

End OdictFacts.

(** ** The full sweep of [all.py] *)

Module AllFacts.
Import NumFacts All.

Local Open Scope Q_scope.

Lemma strength_label_spec (r : Q) :
  (strength_label r = "Strong" <-> 5 # 10 <= Qabs r) /\
  (strength_label r = "Moderate" <-> 3 # 10 <= Qabs r < 5 # 10) /\
  (strength_label r = "Weak" <-> 2 # 10 <= Qabs r < 3 # 10) /\
  (strength_label r = "Very Weak" <-> Qabs r < 2 # 10).
Proof.
  unfold strength_label.
  destruct (Qle_bool (5 # 10) (Qabs r)) eqn:E5;
    [apply Qle_bool_iff in E5 | apply Qle_bool_false in E5];
  (destruct (Qle_bool (3 # 10) (Qabs r)) eqn:E3;
    [apply Qle_bool_iff in E3 | apply Qle_bool_false in E3]);
  (destruct (Qle_bool (2 # 10) (Qabs r)) eqn:E2;
    [apply Qle_bool_iff in E2 | apply Qle_bool_false in E2]);
  repeat split; intros; try discriminate; try lra; try reflexivity.
Qed.

Lemma direction_label_spec (r : Q) :
  (direction_label r = "Positive" <-> 0 < r) /\
  (direction_label r = "Negative" <-> ~ 0 < r).
Proof.
  unfold direction_label.
  destruct (Qlt_bool 0 r) eqn:E.
  - apply Qlt_bool_iff in E. repeat split; intros; try discriminate; tauto.
  - assert (~ 0 < r) by (intros H; apply Qlt_bool_iff in H; congruence).
    repeat split; intros; try discriminate; tauto.
Qed.

Lemma significant_label_spec (p : Q) :
  significant_label p = "Yes" <-> p < 5 # 100.
Proof.
  unfold significant_label.
  destruct (Qlt_bool p (5 # 100)) eqn:E.
  - apply Qlt_bool_iff in E. tauto.
  - split; [discriminate|]. intros H. apply Qlt_bool_iff in H. congruence.
Qed.

Section Engine.

Variable pearsonr : list Q -> list Q -> Q * Q.

(** What the loop body did when it appended a record. *)
Lemma analyze_column_Some merged_df category_info col res :
  analyze_column pearsonr merged_df category_info col = Some res ->
  let valid := valid_data merged_df col in
  let rp := pearsonr (map snd valid) (map fst valid) in
  (30 <= length valid)%nat /\
  std_eq_zero (map snd valid) = false /\
  characteristics_id res = replace_demo col /\
  pearson_r res = round (fst rp) 4 /\
  p_value res = snd rp /\
  significant res = significant_label (snd rp) /\
  correlation_strength res = strength_label (fst rp) /\
  direction res = direction_label (fst rp) /\
  sample_size res = length valid.
Proof.
  unfold analyze_column. intros H. cbv zeta.
  destruct (length (valid_data merged_df col) <? 30)%nat eqn:Elen;
    [discriminate|].
  destruct (std_eq_zero (map snd (valid_data merged_df col))) eqn:Estd;
    [discriminate|].
  destruct (pearsonr _ _) as [r p].
  injection H as <-. simpl.
  apply Nat.ltb_ge in Elen. repeat split; try reflexivity. exact Elen.
Qed.

Lemma analyze_column_None_small merged_df category_info col :
  (length (valid_data merged_df col) < 30)%nat ->
  analyze_column pearsonr merged_df category_info col = None.
Proof.
  intros H. unfold analyze_column.
  apply Nat.ltb_lt in H. rewrite H. reflexivity.
Qed.

Lemma analyze_column_None_constant merged_df category_info col c :
  Forall (fun yx => snd yx == c) (valid_data merged_df col) ->
  analyze_column pearsonr merged_df category_info col = None.
Proof.
  intros H. unfold analyze_column.
  destruct (length (valid_data merged_df col) <? 30)%nat eqn:Elen;
    [reflexivity|].
  apply Nat.ltb_ge in Elen.
  rewrite (std_eq_zero_constant c); [reflexivity | |].
  - rewrite length_map. lia.
  - apply Forall_map. exact H.
Qed.

Lemma elem_of_collect_results merged_df category_info res :
  res ∈ collect_results pearsonr merged_df category_info <->
  exists col, col ∈ demo_cols merged_df /\
    analyze_column pearsonr merged_df category_info col = Some res.
Proof.
  unfold collect_results. rewrite list_elem_of_omap. reflexivity.
Qed.

Lemma calculate_all_correlations_Ok merged_df category_info results :
  calculate_all_correlations pearsonr merged_df category_info = Ok results ->
  results = sort_values_abs_descending
              (collect_results pearsonr merged_df category_info) /\
  collect_results pearsonr merged_df category_info <> [].
Proof.
  unfold calculate_all_correlations.
  destruct (collect_results pearsonr merged_df category_info) eqn:E;
    [discriminate|].
  intros H. injection H as <-. split; [reflexivity | discriminate].
Qed.

Lemma elem_of_calculate_all_correlations merged_df category_info results res :
  calculate_all_correlations pearsonr merged_df category_info = Ok results ->
  res ∈ results <->
  exists col, col ∈ demo_cols merged_df /\
    analyze_column pearsonr merged_df category_info col = Some res.
Proof.
  intros H. apply calculate_all_correlations_Ok in H as [-> _].
  unfold sort_values_abs_descending.
  rewrite merge_sort_Permutation. apply elem_of_collect_results.
Qed.

End Engine.

End AllFacts.

(** ** The focused report of [analysis.py] *)

Module AnalysisFacts.
Import NumFacts Analysis.

Local Open Scope nat_scope.

Section Engine.

Variable pearsonr : list Q -> list Q -> Q * Q.
Variable spearmanr : list Q -> list Q -> Q * Q.

(** What the loop body did when it appended a record. *)
Lemma analyze_category_Some merged_df char_id label res :
  analyze_category pearsonr spearmanr merged_df (char_id, label) = Some res ->
  demo_ char_id ∈ columns merged_df /\
  10 <= length (valid_data merged_df (demo_ char_id)) /\
  f_characteristics_id res = char_id /\
  f_n res = length (valid_data merged_df (demo_ char_id)).
Proof.
  unfold analyze_category. intros H.
  destruct (bool_decide (demo_ char_id ∈ columns merged_df)) eqn:Ecol;
    [|discriminate].
  apply bool_decide_eq_true in Ecol. simpl in H.
  destruct (length (valid_data merged_df (demo_ char_id)) <? 10) eqn:Elen;
    [discriminate|].
  apply Nat.ltb_ge in Elen.
  destruct (pearsonr _ _) as [r p]. destruct (spearmanr _ _) as [rho ps].
  injection H as <-. simpl. auto.
Qed.

(** The loop body appends a record for every listed attribute that has a
    column and ten valid rows: nothing else is tested. *)
Lemma analyze_category_emits merged_df char_id label :
  demo_ char_id ∈ columns merged_df ->
  10 <= length (valid_data merged_df (demo_ char_id)) ->
  exists res,
    analyze_category pearsonr spearmanr merged_df (char_id, label) = Some res
    /\ f_characteristics_id res = char_id
    /\ f_n res = length (valid_data merged_df (demo_ char_id)).
Proof.
  intros Hcol Hlen. unfold analyze_category.
  rewrite (bool_decide_eq_true_2 _ Hcol). simpl.
  apply Nat.ltb_ge in Hlen. rewrite Hlen.
  destruct (pearsonr _ _) as [r p]. destruct (spearmanr _ _) as [rho ps].
  eexists. split; [reflexivity|]. simpl. auto.
Qed.

Lemma analyze_category_None_small merged_df char_id label :
  length (valid_data merged_df (demo_ char_id)) < 10 ->
  analyze_category pearsonr spearmanr merged_df (char_id, label) = None.
Proof.
  intros H. unfold analyze_category.
  destruct (bool_decide _); [|reflexivity]. simpl.
  apply Nat.ltb_lt in H. rewrite H. reflexivity.
Qed.

Lemma elem_of_calculate_correlations merged_df res :
  res ∈ calculate_correlations pearsonr spearmanr merged_df <->
  exists item, item ∈ DEMO_CATEGORIES /\
    analyze_category pearsonr spearmanr merged_df item = Some res.
Proof.
  unfold calculate_correlations. rewrite list_elem_of_omap. reflexivity.
Qed.

(** Every record of the focused report rests on at least ten valid
    rows. *)
Lemma focused_threshold merged_df res :
  res ∈ calculate_correlations pearsonr spearmanr merged_df ->
  10 <= f_n res /\
  f_n res
  = length (valid_data merged_df (demo_ (f_characteristics_id res))).
Proof.
  intros H. apply elem_of_calculate_correlations in H
    as ([char_id label] & _ & H).
  apply analyze_category_Some in H as (_ & Hlen & Hid & Hn).
  rewrite Hid, Hn. auto.
Qed.

End Engine.

End AnalysisFacts.

(** ** C4 and C1: the filters of the engines *)

Module Filters.
Import NumFacts All AllFacts Samples.

Local Open Scope nat_scope.

Section Engine.

Variable pearsonr : list Q -> list Q -> Q * Q.

(** Every record of the full sweep rests on at least thirty valid rows of
    a column whose values are not all equal. *)
Lemma full_sweep_threshold merged_df category_info results res :
  calculate_all_correlations pearsonr merged_df category_info = Ok results ->
  res ∈ results ->
  exists col, col ∈ demo_cols merged_df /\
    characteristics_id res = replace_demo col /\
    sample_size res = length (valid_data merged_df col) /\
    30 <= sample_size res /\
    std_eq_zero (map snd (valid_data merged_df col)) = false.
Proof.
  intros Hrun Hin.
  apply (elem_of_calculate_all_correlations _ _ _ _ res Hrun) in Hin
    as (col & Hcol & Hres).
  apply analyze_column_Some in Hres. cbv zeta in Hres.
  destruct Hres as (Hlen & Hstd & Hid & _ & _ & _ & _ & _ & Hn).
  exists col. rewrite Hn. auto.
Qed.

(** The sweep returns as soon as one column passes both filters. *)
Lemma full_sweep_returns merged_df category_info col :
  col ∈ demo_cols merged_df ->
  30 <= length (valid_data merged_df col) ->
  std_eq_zero (map snd (valid_data merged_df col)) = false ->
  exists results,
    calculate_all_correlations pearsonr merged_df category_info = Ok results.
Proof.
  intros Hcol Hlen Hstd.
  assert (exists res,
             analyze_column pearsonr merged_df category_info col = Some res)
    as [res Hres].
  { unfold analyze_column. apply Nat.ltb_ge in Hlen. rewrite Hlen, Hstd.
    destruct (pearsonr _ _). eauto. }
  assert (res ∈ collect_results pearsonr merged_df category_info) as Hin
    by (apply elem_of_collect_results; eauto).
  unfold calculate_all_correlations.
  destruct (collect_results pearsonr merged_df category_info);
    [inversion Hin | eauto].
Qed.

End Engine.

(** C4.  The 25 districts of the sample table have the collinear
    attribute 2255, below the threshold of 30: the loop skips every
    column, and the sort of the empty frame raises [KeyError] instead of
    returning an empty result list. *)
Theorem sweep_below_threshold_raises
  (pearsonr : list Q -> list Q -> Q * Q)
  (category_info : gmap string CategoryInfo) :
  length (valid_data (districts 25 25) "demo_2255") = 25 /\
  analyze_column pearsonr (districts 25 25) category_info "demo_2255" = None /\
  calculate_all_correlations pearsonr (districts 25 25) category_info
  = Raise (KeyError "Pearson r").
Proof.
  split; [vm_compute; reflexivity|].
  split; [apply analyze_column_None_small; vm_compute; lia|].
  unfold calculate_all_correlations, collect_results.
  replace (demo_cols (districts 25 25))
    with ["demo_2255"; "demo_2256"; "demo_2257"] by (vm_compute; reflexivity).
  cbn [omap list_omap].
  rewrite !analyze_column_None_small by (vm_compute; lia).
  reflexivity.
Qed.

(** C1.  Attribute 2256 of the sample table is 0 in every district, so
    its standard deviation is zero.  The full sweep skips its column; the
    focused report, which has no such test, appends a record for it over
    twelve districts. *)
Theorem focused_constant_column_emitted
  (pearsonr spearmanr : list Q -> list Q -> Q * Q)
  (category_info : gmap string CategoryInfo) :
  std_eq_zero (map snd (valid_data (districts 12 12) "demo_2256")) = true /\
  analyze_column pearsonr (districts 40 40) category_info "demo_2256" = None /\
  exists res,
    res ∈ Analysis.calculate_correlations pearsonr spearmanr (districts 12 12)
    /\ Analysis.f_characteristics_id res = "2256"
    /\ Analysis.f_n res = 12.
Proof.
  split; [vm_compute; reflexivity|].
  split.
  { assert (E : std_eq_zero
                  (map snd (valid_data (districts 40 40) "demo_2256")) = true)
      by (vm_compute; reflexivity).
    unfold analyze_column. cbv zeta. rewrite E.
    destruct (length _ <? 30); reflexivity. }
  destruct (AnalysisFacts.analyze_category_emits pearsonr spearmanr
              (districts 12 12) "2256"
              "Trades, transport and equipment operators")
    as (res & Hres & Hid & Hn).
  - vm_compute. repeat constructor.
  - vm_compute. lia.
  - exists res. split; [|split; [exact Hid|]].
    + apply AnalysisFacts.elem_of_calculate_correlations.
      eexists. split; [|exact Hres]. vm_compute. repeat constructor.
    + rewrite Hn. vm_compute. reflexivity.
Qed.

End Filters.

(** ** The demographic frame and the join *)

Module JoinFacts.
Import OdictFacts.

Local Open Scope nat_scope.

Lemma ensure_district_keys (d : demo_dict) (id : Z) :
  od_mem (if od_mem d id then d else od_set d id []) id = true /\
  od_keys (if od_mem d id then d else od_set d id [])
  = if od_mem d id then od_keys d else (od_keys d ++ [id])%list.
Proof.
  destruct (od_mem d id) eqn:E.
  - auto.
  - split; [|rewrite od_keys_set, E; reflexivity].
    unfold od_mem. rewrite od_get_set_eq. reflexivity.
Qed.

Local Ltac use_mem H :=
  match goal with
  | |- (if ?b then _ else _) = _ =>
      replace b with true by (symmetry; exact H)
  end.

Lemma all_add_record_keys : extends_keys All.add_record.
Proof.
  intros d rec. unfold All.add_record. cbv zeta.
  destruct (ensure_district_keys d (dg_constituency_id rec)) as [Hmem Hkeys].
  destruct (All.rate_of (dg_values rec)); [|exact Hkeys].
  rewrite od_keys_set. use_mem Hmem. exact Hkeys.
Qed.

Lemma analysis_add_record_keys : extends_keys Analysis.add_record.
Proof.
  intros d rec. unfold Analysis.add_record. cbv zeta.
  destruct (ensure_district_keys d (dg_constituency_id rec)) as [Hmem Hkeys].
  rewrite od_keys_set. use_mem Hmem. exact Hkeys.
Qed.

Section Fold.

Variable step : demo_dict -> DemoRecord -> demo_dict.
Hypothesis step_keys : extends_keys step.

Lemma fold_keys_NoDup (rows : list DemoRecord) (d : demo_dict) :
  NoDup (od_keys d) -> NoDup (od_keys (fold_left step rows d)).
Proof.
  revert d. induction rows as [|rec rows IH]; intros d Hnd; simpl; [auto|].
  apply IH. rewrite step_keys.
  destruct (od_mem d (dg_constituency_id rec)) eqn:E; [exact Hnd|].
  apply NoDup_app. split; [exact Hnd|]. split; [|apply NoDup_singleton].
  intros x Hx. rewrite list_elem_of_singleton. intros ->.
  apply od_mem_keys in Hx. congruence.
Qed.

Lemma fold_keys_elem_of (rows : list DemoRecord) (d : demo_dict) (id : Z) :
  id ∈ od_keys (fold_left step rows d)
  <-> id ∈ od_keys d \/ id ∈ map dg_constituency_id rows.
Proof.
  revert d. induction rows as [|rec rows IH]; intros d; simpl.
  - split; [auto|]. intros [H|H]; [auto | inversion H].
  - rewrite IH, step_keys, elem_of_cons.
    destruct (od_mem d (dg_constituency_id rec)) eqn:E.
    + apply od_mem_keys in E. split; [tauto|].
      intros [H|[->|H]]; auto.
    + rewrite elem_of_app, list_elem_of_singleton. tauto.
Qed.

End Fold.

(** The number of rows of a frame that carry a given key. *)
Lemma count_key_NoDup {A} (key : A -> Z) (l : list A) (id : Z) :
  NoDup (map key l) ->
  length (filter (fun x => key x = id) l)
  = if decide (id ∈ map key l) then 1 else 0.
Proof.
  induction l as [|x l IH]; simpl; [reflexivity|].
  rewrite NoDup_cons. intros [Hnin Hnd]. rewrite filter_cons.
  specialize (IH Hnd).
  destruct (decide (key x = id)) as [<-|Hne]; simpl.
  - rewrite IH. rewrite decide_False by exact Hnin.
    rewrite decide_True by left. reflexivity.
  - rewrite IH. destruct (decide (id ∈ map key l)) as [Hin|Hin].
    + rewrite decide_True by (right; exact Hin). reflexivity.
    + rewrite decide_False; [reflexivity|].
      rewrite elem_of_cons. intros [E|]; [congruence | auto].
Qed.

Lemma filter_all {A} (P : A -> Prop) `{forall x, Decision (P x)} (l : list A) :
  Forall P l -> filter P l = l.
Proof.
  induction 1 as [|x l Hx _ IH]; [reflexivity|].
  rewrite filter_cons_True by exact Hx. rewrite IH. reflexivity.
Qed.

Lemma filter_none {A} (P : A -> Prop) `{forall x, Decision (P x)} (l : list A) :
  Forall (fun x => ~ P x) l -> filter P l = [].
Proof.
  induction 1 as [|x l Hx _ IH]; [reflexivity|].
  rewrite filter_cons_False by exact Hx. exact IH.
Qed.


(** The joined rows of one vote row all carry its identifier. *)
Lemma matches_of_vote_row (v : SheetRow) (demo_df : DemoFrame) (id : Z) :
  length
    (filter (fun row => joined_id row = id)
       (map (fun d => {| vote := v; demo := snd d |})
          (filter (fun d => fst d = constituency_id v) demo_df)))
  = if decide (constituency_id v = id)
    then length (filter (fun d => fst d = id) demo_df) else 0.
Proof.
  destruct (decide (constituency_id v = id)) as [<-|Hne].
  - rewrite filter_all.
    + apply length_map.
    + apply Forall_forall. intros row Hrow.
      apply list_elem_of_fmap in Hrow as (d & -> & _). reflexivity.
  - rewrite filter_none; [reflexivity|].
    apply Forall_forall. intros row Hrow.
    apply list_elem_of_fmap in Hrow as (d & -> & _). exact Hne.
Qed.

(** In the join the multiplicities of a key multiply. *)
Lemma merge_count (cpc_df : list SheetRow) (demo_df : DemoFrame) merged id :
  merge cpc_df demo_df = Ok merged ->
  length (filter (fun row => joined_id row = id) (rows merged))
  = length (filter (fun v => constituency_id v = id) cpc_df)
    * length (filter (fun d => fst d = id) demo_df).
Proof.
  unfold merge. destruct (demo_frame_columns demo_df); [discriminate|].
  intros [= <-]. simpl.
  induction cpc_df as [|v cpc_df IH]; simpl; [reflexivity|].
  rewrite filter_app, length_app, IH, matches_of_vote_row, filter_cons.
  destruct (decide (constituency_id v = id)); simpl; lia.
Qed.

Lemma merge_returns (cpc_df : list SheetRow) (demo_df : DemoFrame) :
  demo_df <> [] -> exists merged, merge cpc_df demo_df = Ok merged.
Proof.
  intros Hne. unfold merge, demo_frame_columns.
  destruct demo_df; [congruence | eauto].
Qed.

End JoinFacts.

(** ** C6: the join is an inner join on the district identifier *)

Module InnerJoin.
Import OdictFacts JoinFacts Samples.

Local Open Scope nat_scope.

Lemma load_cpc_votes_NoDup (excel_file : list SheetRow) :
  NoDup (map constituency_id excel_file) ->
  NoDup (map constituency_id (load_cpc_votes excel_file)).
Proof.
  unfold load_cpc_votes.
  induction excel_file as [|row l IH]; simpl; [auto|].
  rewrite NoDup_cons. intros [Hnin Hnd]. rewrite filter_cons.
  destruct (decide _); [|auto].
  simpl. apply NoDup_cons. split; [|auto].
  intros Hin. apply Hnin.
  apply list_elem_of_fmap in Hin as (row' & E & Hin).
  apply list_elem_of_filter in Hin as [_ Hin].
  apply list_elem_of_fmap. eauto.
Qed.

(** The frame of either loader has one row per district of the records. *)
Lemma demo_frame_districts categories records demo_df :
  demo_df = fst (All.fetch_all_demographics categories records)
  \/ demo_df = Analysis.fetch_demographics records ->
  NoDup (map fst demo_df) /\
  forall id, id ∈ map fst demo_df <-> id ∈ map dg_constituency_id records.
Proof.
  intros [->| ->]; simpl; unfold Analysis.fetch_demographics.
  - split.
    + apply (fold_keys_NoDup _ all_add_record_keys). constructor.
    + intros id.
      pose proof (fold_keys_elem_of _ all_add_record_keys records [] id) as H.
      unfold od_keys in H. rewrite H. simpl.
      split; [intros [H'|H']; [inversion H' | exact H'] | auto].
  - split.
    + apply (fold_keys_NoDup _ analysis_add_record_keys). constructor.
    + intros id.
      pose proof (fold_keys_elem_of _ analysis_add_record_keys records [] id) as H.
      unfold od_keys in H. rewrite H. simpl.
      split; [intros [H'|H']; [inversion H' | exact H'] | auto].
Qed.

(** C6.  The join of the loaded vote rows with the demographic frame (of
    the full sweep or of the focused report) is an inner join on the
    district identifier: for a vote table with one row per district, a
    district that is in both tables has exactly one joined row, a district
    that is missing from either table has none; and the join returns as
    soon as there is a demographic record. *)
Theorem join_is_inner_join
  (excel_file : list SheetRow) (categories : list All.CategoryRow)
  (records : list DemoRecord) (demo_df : DemoFrame) (id : Z) :
  NoDup (map constituency_id excel_file) ->
  demo_df = fst (All.fetch_all_demographics categories records)
  \/ demo_df = Analysis.fetch_demographics records ->
  let cpc_df := load_cpc_votes excel_file in
  let in_votes := id ∈ map constituency_id cpc_df in
  let in_demographics := id ∈ map dg_constituency_id records in
  let joined_rows merged :=
    filter (fun row => joined_id row = id) (rows merged) in
  (records <> [] -> exists merged, merge cpc_df demo_df = Ok merged) /\
  (forall merged, merge cpc_df demo_df = Ok merged ->
     (in_votes /\ in_demographics -> length (joined_rows merged) = 1) /\
     (~ in_votes \/ ~ in_demographics -> joined_rows merged = [])).
Proof.
  intros Hvotes Hdemo. cbv zeta.
  destruct (demo_frame_districts _ _ _ Hdemo) as [Hnd Hids].
  split.
  - intros Hne. apply merge_returns. intros ->.
    destruct records as [|rec records]; [congruence|].
    specialize (Hids (dg_constituency_id rec)). simpl in Hids.
    assert (dg_constituency_id rec ∈ @nil Z) as H by (apply Hids; left).
    inversion H.
  - intros merged Hmerge.
    pose proof (merge_count _ _ merged id Hmerge) as Hcount.
    rewrite (count_key_NoDup constituency_id)
      in Hcount by (apply load_cpc_votes_NoDup; exact Hvotes).
    unfold DemoFrame in Hcount.
    rewrite (count_key_NoDup fst) in Hcount by exact Hnd.
    split.
    + intros [Hv Hd]. apply Hids in Hd.
      rewrite Hcount, !decide_True by assumption. reflexivity.
    + intros Hnot. apply length_zero_iff_nil. rewrite Hcount.
      destruct Hnot as [Hv|Hd].
      * rewrite (decide_False _ _ Hv). reflexivity.
      * rewrite <- Hids in Hd. rewrite (decide_False _ _ Hd). lia.
Qed.

Lemma join_is_inner_join_witness :
  let demo_df := fst (All.fetch_all_demographics [] records) in
  let cpc_df := load_cpc_votes sheet in
  let joined_rows merged :=
    filter (fun row => joined_id row = 2%Z) (rows merged) in
  (records <> [] -> exists merged, merge cpc_df demo_df = Ok merged) /\
  (forall merged, merge cpc_df demo_df = Ok merged ->
     (2%Z ∈ map constituency_id cpc_df
      /\ 2%Z ∈ map dg_constituency_id records ->
      length (joined_rows merged) = 1) /\
     (~ 2%Z ∈ map constituency_id cpc_df
      \/ ~ 2%Z ∈ map dg_constituency_id records ->
      joined_rows merged = [])).
Proof.
  apply (join_is_inner_join sheet [] records
           (fst (All.fetch_all_demographics [] records)) 2).
  - apply (bool_decide_unpack _). vm_compute. exact I.
  - left. reflexivity.
Defined.

End InnerJoin.

(** ** The sheets of the report: orders and splits *)

Module ReportFacts.
Import NumFacts All AllFacts Samples.

Local Open Scope Q_scope.

#[local] Instance by_abs_r_descending_total : Total by_abs_r_descending.
Proof.
  intros a b. unfold by_abs_r_descending.
  destruct (Qlt_le_dec (Qabs (pearson_r a)) (Qabs (pearson_r b))); [right|left];
    lra.
Qed.

#[local] Instance by_abs_r_descending_trans : Transitive by_abs_r_descending.
Proof. intros a b c. unfold by_abs_r_descending. lra. Qed.

#[local] Instance by_r_descending_total : Total by_r_descending.
Proof.
  intros a b. unfold by_r_descending.
  destruct (Qlt_le_dec (pearson_r a) (pearson_r b)); [right|left]; lra.
Qed.

#[local] Instance by_r_descending_trans : Transitive by_r_descending.
Proof. intros a b c. unfold by_r_descending. lra. Qed.

#[local] Instance by_r_ascending_total : Total by_r_ascending.
Proof.
  intros a b. unfold by_r_ascending.
  destruct (Qlt_le_dec (pearson_r a) (pearson_r b)); [left|right]; lra.
Qed.

#[local] Instance by_r_ascending_trans : Transitive by_r_ascending.
Proof. intros a b c. unfold by_r_ascending. lra. Qed.

Lemma filter_ext_in {A} (P1 P2 : A -> Prop)
  `{forall x, Decision (P1 x)} `{forall x, Decision (P2 x)} (l : list A) :
  (forall x, x ∈ l -> P1 x <-> P2 x) -> filter P1 l = filter P2 l.
Proof.
  induction l as [|x l IH]; intros Hext; [reflexivity|].
  rewrite !filter_cons.
  rewrite IH by (intros y Hy; apply Hext; right; exact Hy).
  pose proof (Hext x (list_elem_of_here _ _)) as Hx.
  destruct (decide (P1 x)) as [H1|H1], (decide (P2 x)) as [H2|H2];
    try reflexivity; tauto.
Qed.

(** A frame is split by a yes/no column. *)
Lemma filter_split {A} (P Q1 Q2 : A -> Prop)
  `{forall x, Decision (P x)} `{forall x, Decision (Q1 x)}
  `{forall x, Decision (Q2 x)} (l : list A) :
  (forall x, x ∈ l -> P x -> Q2 x <-> ~ Q1 x) ->
  filter P l
  ≡ₚ filter (fun x => P x /\ Q1 x) l ++ filter (fun x => P x /\ Q2 x) l.
Proof.
  induction l as [|x l IH]; intros Hext; [reflexivity|].
  rewrite !filter_cons.
  specialize (IH (fun y Hy => Hext y (list_elem_of_further _ _ _ Hy))).
  pose proof (Hext x (list_elem_of_here _ _)) as Hx.
  destruct (decide (P x)) as [HP|HP].
  - specialize (Hx HP).
    destruct (decide (Q1 x)) as [HQ|HQ].
    + rewrite decide_True by auto.
      rewrite decide_False by tauto.
      simpl. constructor. exact IH.
    + rewrite decide_False by tauto.
      rewrite decide_True by tauto.
      rewrite IH. apply Permutation_middle.
  - rewrite !decide_False by tauto. exact IH.
Qed.

(** The labels of every record of the sweep follow its p-value and say
    one of the two directions. *)
Lemma labels_of_results pearsonr merged_df category_info results res :
  calculate_all_correlations pearsonr merged_df category_info = Ok results ->
  res ∈ results ->
  (significant res = "Yes" <-> p_value res < 5 # 100) /\
  (direction res = "Negative" <-> ~ direction res = "Positive").
Proof.
  intros Hrun Hin.
  apply (elem_of_calculate_all_correlations _ _ _ _ res Hrun) in Hin
    as (col & Hcol & Hres).
  apply analyze_column_Some in Hres. cbv zeta in Hres.
  destruct Hres as (_ & _ & _ & _ & Hp & Hs & _ & Hd & _).
  rewrite Hs, Hp, Hd. split; [apply significant_label_spec|].
  unfold direction_label. destruct (Qlt_bool 0 _).
  - split; [discriminate | tauto].
  - split; [discriminate | reflexivity].
Qed.

End ReportFacts.

(** ** The vote extractor *)

Module ExtractFacts.
Import NumFacts ExtractVotes.

Local Open Scope Z_scope.

Lemma rep_order_entry_of (row : ResultRow) :
  rep_order (entry_of row) = er_rep_order row.
Proof.
  unfold entry_of. destruct (extract_cpc _). reflexivity.
Qed.

(** What one turn of the loop does to the stored entries. *)
Lemma stored_process_row data row id year :
  stored (process_row data row) id year
  = if decide (er_constituency_id row = id /\ er_election_year row = year)
    then
      match stored data id year with
      | Some existing =>
          if er_rep_order row <=? rep_order existing then Some existing
          else Some (entry_of row)
      | None => Some (entry_of row)
      end
    else stored data id year.
Proof.
  unfold process_row, stored. cbv zeta.
  set (data' := match data !! er_constituency_id row with
                | Some _ => data
                | None => <[er_constituency_id row := fresh_entry row]> data
                end).
  assert (Hother : forall id', id' <> er_constituency_id row ->
                               data' !! id' = data !! id').
  { intros id' Hne. unfold data'.
    destruct (data !! er_constituency_id row); [reflexivity|].
    apply lookup_insert_ne. congruence. }
  assert (Hsame : exists entry,
             data' !! er_constituency_id row = Some entry /\
             forall y, elections entry !! y
                       = data !! er_constituency_id row
                           ≫= (fun e => elections e !! y)).
  { unfold data'. destruct (data !! er_constituency_id row) as [e|] eqn:E.
    - exists e. rewrite E. auto.
    - exists (fresh_entry row). rewrite lookup_insert_eq.
      split; [reflexivity|]. intros y. apply lookup_empty. }
  destruct Hsame as (entry & Hentry & Helections).
  rewrite Hentry. simpl.
  destruct (decide (er_constituency_id row = id /\ er_election_year row = year))
    as [[<- <-]|Hne].
  - rewrite <- Helections.
    destruct (elections entry !! er_election_year row) as [existing|] eqn:Eex.
    + destruct (er_rep_order row <=? rep_order existing).
      * rewrite Hentry. simpl. exact Eex.
      * rewrite lookup_alter_eq, Hentry. simpl. apply lookup_insert_eq.
    + rewrite lookup_alter_eq, Hentry. simpl. apply lookup_insert_eq.
  - assert (Hkeep : alter (set_election (er_election_year row) (entry_of row))
                      (er_constituency_id row) data' !! id
                    ≫= (fun e => elections e !! year)
                    = data !! id ≫= (fun e => elections e !! year)).
    { destruct (decide (er_constituency_id row = id)) as [<-|Hid].
      - rewrite lookup_alter_eq, Hentry. simpl.
        rewrite lookup_insert_ne by tauto. apply Helections.
      - rewrite lookup_alter_ne by exact Hid. rewrite Hother by congruence.
        reflexivity. }
    destruct (elections entry !! er_election_year row) as [existing|].
    + destruct (er_rep_order row <=? rep_order existing); [|exact Hkeep].
      destruct (decide (er_constituency_id row = id)) as [<-|Hid].
      * rewrite Hentry. simpl. apply Helections.
      * rewrite Hother by congruence. reflexivity.
    + exact Hkeep.
Qed.

Lemma organize_snoc rows row :
  organize (rows ++ [row]) = process_row (organize rows) row.
Proof. unfold organize. apply fold_left_app. Qed.

Lemma candidates_snoc rows row id year :
  candidates (rows ++ [row]) id year
  = (candidates rows id year
     ++ if decide (er_constituency_id row = id /\ er_election_year row = year)
        then [row] else [])%list.
Proof.
  unfold candidates. rewrite filter_app. f_equal.
Qed.

(** The invariant of the loop: the entry stored for a constituency and a
    year comes from the first of the rows seen so far for them that has
    the highest [rep_order]. *)
Lemma organize_stored rows id year :
  match candidates rows id year with
  | [] => stored (organize rows) id year = None
  | _ => exists row,
      first_highest (candidates rows id year) row /\
      stored (organize rows) id year = Some (entry_of row)
  end.
Proof.
  induction rows as [|row rows IH] using rev_ind.
  - reflexivity.
  - rewrite candidates_snoc, organize_snoc, stored_process_row.
    destruct (decide (er_constituency_id row = id
                      /\ er_election_year row = year)) as [Hkey|Hkey].
    + destruct (candidates rows id year) as [|c cs] eqn:Ecs.
      * rewrite IH. simpl. exists row. split; [|reflexivity].
        exists [], []. auto.
      * destruct IH as (best & (before & after & Esplit & Hb & Ha) & Hst).
        rewrite Hst, rep_order_entry_of. simpl.
        change (c :: (cs ++ [row])%list) with ((c :: cs) ++ [row])%list.
        rewrite Esplit.
        destruct (er_rep_order row <=? er_rep_order best) eqn:Ecmp.
        -- apply Z.leb_le in Ecmp. exists best. split; [|reflexivity].
           exists before, (after ++ [row])%list.
           rewrite <- app_assoc. simpl. split; [reflexivity|].
           split; [exact Hb|]. apply Forall_app. auto.
        -- apply Z.leb_gt in Ecmp. exists row. split; [|reflexivity].
           exists (before ++ best :: after)%list, [].
           split; [reflexivity|]. split; [|constructor].
           apply Forall_app. split.
           ++ eapply Forall_impl; [exact Hb|]. simpl. intros. lia.
           ++ constructor; [exact Ecmp|].
              eapply Forall_impl; [exact Ha|]. simpl. intros. lia.
    + rewrite app_nil_r. exact IH.
Qed.

Lemma change_None_iff (pct_from pct_to : Q) :
  change pct_from pct_to = None
  <-> truthy pct_from = false \/ truthy pct_to = false.
Proof.
  unfold change.
  destruct (truthy pct_from), (truthy pct_to); simpl;
    intuition discriminate.
Qed.

(** The sheet has one row per constituency of [constituency_data]. *)
Lemma elem_of_sheet_rows (constituency_data : gmap Z ConstituencyEntry) row :
  row ∈ sheet_rows constituency_data
  <-> exists id data,
        constituency_data !! id = Some data /\ row = row_data id data.
Proof.
  unfold sheet_rows, sorted_keys. rewrite list_elem_of_omap. split.
  - intros (id & _ & H).
    destruct (constituency_data !! id) as [data|] eqn:E; [|discriminate].
    injection H as <-. eauto.
  - intros (id & data & E & ->). exists id. rewrite E. split; [|reflexivity].
    rewrite merge_sort_Permutation. apply list_elem_of_fmap.
    exists (id, data). split; [reflexivity|].
    apply elem_of_map_to_list. exact E.
Qed.

(** The extractor writes one row per constituency. *)
Lemma sheet_rows_NoDup (constituency_data : gmap Z ConstituencyEntry) :
  NoDup (map constituency_id (sheet_rows constituency_data)).
Proof.
  unfold sheet_rows.
  assert (Hkeys : NoDup (sorted_keys constituency_data)).
  { unfold sorted_keys. rewrite merge_sort_Permutation.
    apply NoDup_fst_map_to_list. }
  induction (sorted_keys constituency_data) as [|id ids IH];
    [constructor|].
  apply NoDup_cons in Hkeys as [Hnin Hnd]. cbn [omap list_omap].
  destruct (constituency_data !! id) as [data|]; simpl; [|auto].
  apply NoDup_cons. split; [|auto].
  intros Hin. apply Hnin.
  apply list_elem_of_fmap in Hin as (row & Hid & Hin).
  apply list_elem_of_omap in Hin as (id' & Hin' & Hrow).
  destruct (constituency_data !! id') as [data'|]; [|discriminate].
  injection Hrow as <-. simpl in Hid. subst id'. exact Hin'.
Qed.

(** An entry is stored for a year exactly when the query has a record
    for it, and it is the entry of one of these records. *)
Lemma stored_None_iff rows id year :
  stored (organize rows) id year = None <-> candidates rows id year = [].
Proof.
  pose proof (organize_stored rows id year) as H.
  destruct (candidates rows id year) as [|c cs].
  - tauto.
  - destruct H as (row & _ & ->). split; discriminate.
Qed.

Lemma stored_Some_row rows id year entry :
  stored (organize rows) id year = Some entry ->
  exists row, row ∈ candidates rows id year /\ entry = entry_of row.
Proof.
  pose proof (organize_stored rows id year) as H.
  destruct (candidates rows id year) as [|c cs].
  - rewrite H. discriminate.
  - destruct H as (row & (before & after & -> & _) & ->).
    intros [= <-]. exists row. split; [|reflexivity].
    apply elem_of_app. right. left.
Qed.

(** The percentage kept for a record without CPC entry, or whose CPC
    entry has a share of exactly 0, is 0. *)
Lemma entry_of_no_cpc row :
  (er_party_results row = None
   \/ exists parties, er_party_results row = Some parties
                      /\ Forall (fun p => partyCode p <> Some "CPC") parties) ->
  cpc_percentage (entry_of row) = 0%Q.
Proof.
  unfold entry_of, extract_cpc. intros [->|(parties & -> & Hall)];
    [reflexivity|].
  destruct (List.find is_cpc parties) as [p|] eqn:E; [|reflexivity].
  apply List.find_some in E as [Hin Hcpc].
  rewrite Forall_forall in Hall. apply list_elem_of_In, Hall in Hin.
  unfold is_cpc in Hcpc. apply bool_decide_eq_true in Hcpc. contradiction.
Qed.

Lemma entry_of_zero_share row parties p share :
  er_party_results row = Some parties ->
  List.find is_cpc parties = Some p ->
  percentage p = Some share ->
  (share == 0)%Q ->
  cpc_percentage (entry_of row) = 0%Q.
Proof.
  unfold entry_of, extract_cpc. intros -> -> -> E. simpl.
  rewrite (round_comp _ 0 2); [reflexivity|]. rewrite E. reflexivity.
Qed.

End ExtractFacts.

(** ** C10: which record of an election is retained *)

Module Retained.
Import ExtractVotes ExtractFacts Samples.

Local Open Scope Z_scope.

(** C10.  When the query returns several records for one constituency and
    one election year, the entry kept for them is that of the record with
    the highest [rep_order]; a later record with an equal [rep_order] is
    discarded, so that among the records of highest [rep_order] the first
    in query order is the one kept: every record before it has a strictly
    lower [rep_order], every record after it a lower or equal one. *)
Theorem highest_rep_order_retained
  (rows : list ResultRow) (constituency_id year : Z) :
  candidates rows constituency_id year <> [] ->
  exists before row after,
    candidates rows constituency_id year = (before ++ row :: after)%list /\
    Forall (fun r => er_rep_order r < er_rep_order row) before /\
    Forall (fun r => er_rep_order r <= er_rep_order row) after /\
    stored (organize rows) constituency_id year = Some (entry_of row).
Proof.
  intros Hne. pose proof (organize_stored rows constituency_id year) as H.
  destruct (candidates rows constituency_id year) as [|c cs];
    [congruence|].
  destruct H as (row & (before & after & Esplit & Hb & Ha) & Hst).
  exists before, row, after. auto.
Qed.

Lemma highest_rep_order_retained_witness :
  exists before row after,
    candidates election_rows 7 2021 = (before ++ row :: after)%list /\
    Forall (fun r => er_rep_order r < er_rep_order row) before /\
    Forall (fun r => er_rep_order r <= er_rep_order row) after /\
    stored (organize election_rows) 7 2021 = Some (entry_of row).
Proof.
  apply (highest_rep_order_retained election_rows 7 2021).
  vm_compute. discriminate.
Defined.

End Retained.

(** ** C9: when a change column is left blank *)

Module BlankChange.
Import NumFacts ExtractVotes ExtractFacts Samples.

Local Open Scope Z_scope.

(** C9, as the code has it.  In the row that the extractor writes for a
    constituency, each change column (2021-2025, 2019-2025) is blank
    exactly when the CPC percentage of one of its two years is falsy;
    a percentage is falsy exactly when the election record of the year is
    missing or the percentage kept for it is 0, which it is when the
    record has no CPC entry and when the CPC share is exactly 0.  A
    constituency whose 2021 or 2025 percentage is falsy has no 2021-2025
    value and no row after the loader's filter; one whose 2021 and 2025
    percentages are both truthy keeps its row, whatever 2019 is. *)
Theorem blank_change_columns
  (rows : list ResultRow) (id : Z) (data : ConstituencyEntry) :
  organize rows !! id = Some data ->
  let sheet_row := row_data id data in
  let falsy year := truthy (pct (elections data) year) = false in
  let loaded := load_cpc_votes (sheet_rows (organize rows)) in
  (cpc_change_21_25 sheet_row = None <-> falsy 2021 \/ falsy 2025) /\
  (cpc_change_19_25 sheet_row = None <-> falsy 2019 \/ falsy 2025) /\
  (forall year,
     falsy year
     <-> elections data !! year = None
         \/ exists entry, elections data !! year = Some entry
                          /\ (cpc_percentage entry == 0)%Q) /\
  (forall year,
     elections data !! year = None <-> candidates rows id year = []) /\
  (forall year entry,
     elections data !! year = Some entry ->
     exists row, row ∈ candidates rows id year /\ entry = entry_of row) /\
  (forall row,
     (er_party_results row = None
      \/ exists parties, er_party_results row = Some parties
           /\ Forall (fun p => partyCode p <> Some "CPC") parties) ->
     cpc_percentage (entry_of row) = 0%Q) /\
  (forall row parties p share,
     er_party_results row = Some parties ->
     List.find is_cpc parties = Some p ->
     percentage p = Some share -> (share == 0)%Q ->
     cpc_percentage (entry_of row) = 0%Q) /\
  (falsy 2021 \/ falsy 2025 -> id ∉ map constituency_id loaded) /\
  (~ falsy 2021 -> ~ falsy 2025 -> sheet_row ∈ loaded).
Proof.
  intros Hdata. cbv zeta.
  assert (Hstored : forall year,
            stored (organize rows) id year = elections data !! year)
    by (intros year; unfold stored; rewrite Hdata; reflexivity).
  assert (H21 : cpc_change_21_25 (row_data id data) = None
                <-> truthy (pct (elections data) 2021) = false
                    \/ truthy (pct (elections data) 2025) = false)
    by apply change_None_iff.
  split; [exact H21|]. split; [apply change_None_iff|].
  split; [|split; [|split; [|split; [|split; [|split]]]]].
  - intros year. rewrite truthy_false_iff. unfold pct.
    destruct (elections data !! year) as [entry|].
    + split.
      * intros E. right. exists entry. auto.
      * intros [?|(e & [= <-] & E)]; [discriminate | exact E].
    + split; [auto | reflexivity].
  - intros year. rewrite <- Hstored. apply stored_None_iff.
  - intros year entry. rewrite <- Hstored. apply stored_Some_row.
  - apply entry_of_no_cpc.
  - apply entry_of_zero_share.
  - intros Hfalsy Hin.
    apply list_elem_of_fmap in Hin as (row & Hid & Hin).
    unfold load_cpc_votes in Hin.
    apply list_elem_of_filter in Hin as [Hnotna Hin].
    apply elem_of_sheet_rows in Hin as (id' & data' & Hdata' & ->).
    simpl in Hid. subst id'. rewrite Hdata in Hdata'. injection Hdata' as <-.
    apply H21 in Hfalsy. rewrite Hfalsy in Hnotna. discriminate.
  - intros Hn21 Hn25. unfold load_cpc_votes. apply list_elem_of_filter.
    split; [|apply elem_of_sheet_rows; eauto].
    assert (Hne : cpc_change_21_25 (row_data id data) <> None)
      by (intros E; apply H21 in E; tauto).
    destruct (cpc_change_21_25 (row_data id data));
      [reflexivity | congruence].
Qed.

Lemma blank_change_columns_witness :
  exists data,
    organize election_rows !! 8 = Some data /\
    cpc_change_21_25 (row_data 8 data) = None /\
    8 ∉ map constituency_id
          (load_cpc_votes (sheet_rows (organize election_rows))).
Proof.
  eexists. split; [vm_compute; reflexivity|].
  match goal with
  | |- cpc_change_21_25 (row_data _ ?data) = None /\ _ =>
      assert (H : organize election_rows !! 8 = Some data)
        by (vm_compute; reflexivity);
      destruct (blank_change_columns election_rows 8 data H)
        as (H21 & _ & _ & _ & _ & _ & _ & Hdrop & _)
  end.
  split.
  - apply H21. left. vm_compute. reflexivity.
  - apply Hdrop. left. vm_compute. reflexivity.
Defined.

(** C9, as stated, fails for the 2019-2025 column.  District 7 has a CPC
    share of exactly 0 in 2019: its 2019-2025 change is blank, and its
    row is still there after the loader's filter, which looks at the
    2021-2025 column only. *)
Lemma zero_share_2019_not_dropped :
  exists data row parties p,
    organize election_rows !! 7 = Some data /\
    candidates election_rows 7 2019 = [row] /\
    er_party_results row = Some parties /\
    List.find is_cpc parties = Some p /\
    percentage p = Some 0%Q /\
    truthy (pct (elections data) 2019) = false /\
    cpc_change_19_25 (row_data 7 data) = None /\
    row_data 7 data ∈ load_cpc_votes (sheet_rows (organize election_rows)).
Proof.
  eexists. eexists. eexists. eexists.
  split; [vm_compute; reflexivity|].
  split; [vm_compute; reflexivity|].
  split; [vm_compute; reflexivity|].
  split; [vm_compute; reflexivity|].
  split; [vm_compute; reflexivity|].
  split; [vm_compute; reflexivity|].
  split; [vm_compute; reflexivity|].
  vm_compute. left.
Qed.

End BlankChange.

(** ** C2: what the loaders put in a cell *)

Module Cells.
Import OdictFacts JoinFacts Samples.

Lemma cell_od_set (inner : odict string (option Q)) k v col :
  cell (od_set inner k v) col = if decide (k = col) then v else cell inner col.
Proof.
  unfold cell. destruct (decide (k = col)) as [<-|Hne].
  - rewrite od_get_set_eq. destruct v; reflexivity.
  - rewrite od_get_set_ne by exact Hne. reflexivity.
Qed.

(** The dict of a district after one turn of the loop of [all.py]. *)
Lemma all_add_record_get (d : demo_dict) rec id :
  od_get (All.add_record d rec) id
  = if decide (dg_constituency_id rec = id) then
      Some match All.rate_of (dg_values rec) with
           | Some rate =>
               od_set (default [] (od_get d id))
                 (demo_ (dc_characteristics_id rec)) (Some rate)
           | None => default [] (od_get d id)
           end
    else od_get d id.
Proof.
  unfold All.add_record. cbv zeta.
  set (d1 := if od_mem d (dg_constituency_id rec) then d
             else od_set d (dg_constituency_id rec) []).
  assert (H1 : forall id',
             od_get d1 id'
             = if decide (dg_constituency_id rec = id')
               then Some (default [] (od_get d id')) else od_get d id').
  { intros id'. unfold d1, od_mem.
    destruct (decide (dg_constituency_id rec = id')) as [<-|Hne].
    - destruct (od_get d (dg_constituency_id rec)) eqn:E.
      + rewrite E. reflexivity.
      + rewrite od_get_set_eq. reflexivity.
    - destruct (od_get d (dg_constituency_id rec)); [reflexivity|].
      apply od_get_set_ne. exact Hne. }
  destruct (All.rate_of (dg_values rec)) as [rate|]; [|apply H1].
  destruct (decide (dg_constituency_id rec = id)) as [<-|Hne].
  - rewrite od_get_set_eq, H1, decide_True by reflexivity. reflexivity.
  - rewrite od_get_set_ne, H1, decide_False by exact Hne. reflexivity.
Qed.

(** In the frame of the full sweep a cell holds a number only when a
    record supplied it: nothing is filled in. *)
Lemma all_cell_supplied categories records id inner col q :
  (id, inner) ∈ fst (All.fetch_all_demographics categories records) ->
  cell inner col = Some q ->
  All.supplies records id col q.
Proof.
  simpl. intros Hin Hcell.
  assert (Hget : od_get (fold_left All.add_record records []) id = Some inner).
  { apply od_elem_of_get; [|exact Hin].
    apply (fold_keys_NoDup _ all_add_record_keys). constructor. }
  clear Hin. revert inner Hget Hcell.
  induction records as [|rec records IH] using rev_ind; intros inner Hget Hcell.
  - discriminate.
  - rewrite fold_left_app in Hget. simpl in Hget.
    rewrite all_add_record_get in Hget.
    assert (Hold : forall inner0,
               od_get (fold_left All.add_record records []) id = Some inner0 ->
               cell inner0 col = Some q ->
               All.supplies (records ++ [rec]) id col q).
    { intros inner0 H0 Hc. destruct (IH inner0 H0 Hc) as (r & Hr & Hrest).
      exists r. split; [apply elem_of_app; auto | exact Hrest]. }
    destruct (decide (dg_constituency_id rec = id)) as [Hid|Hid];
      [|eauto].
    injection Hget as <-.
    assert (Hrest : cell (default [] (od_get (fold_left All.add_record
                                               records []) id)) col = Some q ->
                    All.supplies (records ++ [rec]) id col q).
    { destruct (od_get (fold_left All.add_record records []) id)
        as [inner0|] eqn:E0; simpl; [eauto | discriminate]. }
    destruct (All.rate_of (dg_values rec)) as [rate|] eqn:Erate; [|auto].
    rewrite cell_od_set in Hcell.
    destruct (decide (demo_ (dc_characteristics_id rec) = col)) as [Hc|Hc];
      [|auto].
    injection Hcell as <-. exists rec.
    split; [apply elem_of_app; right; left | auto].
Qed.

Lemma od_mem_set (inner : odict string (option Q)) k v k0 :
  od_mem inner k0 = true -> od_mem (od_set inner k v) k0 = true.
Proof.
  unfold od_mem. destruct (decide (k = k0)) as [<-|Hne].
  - rewrite od_get_set_eq. reflexivity.
  - rewrite od_get_set_ne by exact Hne. auto.
Qed.

(** The dict of a district keeps the key of every rate supplied for
    it. *)
Lemma all_rate_key_kept records rec q :
  rec ∈ records ->
  All.rate_of (dg_values rec) = Some q ->
  exists inner,
    od_get (fold_left All.add_record records []) (dg_constituency_id rec)
    = Some inner /\
    od_mem inner (demo_ (dc_characteristics_id rec)) = true.
Proof.
  intros Hin Hrate.
  induction records as [|last records IH] using rev_ind;
    [inversion Hin|].
  rewrite fold_left_app. simpl. rewrite all_add_record_get.
  apply elem_of_app in Hin as [Hin|Hin].
  - destruct (IH Hin) as (inner & Hget & Hmem).
    destruct (decide (dg_constituency_id last = dg_constituency_id rec));
      [|eauto].
    rewrite Hget. simpl. eexists. split; [reflexivity|].
    destruct (All.rate_of (dg_values last)); [|exact Hmem].
    apply od_mem_set. exact Hmem.
  - apply list_elem_of_singleton in Hin as ->.
    rewrite decide_True by reflexivity. rewrite Hrate.
    eexists. split; [reflexivity|].
    unfold od_mem. rewrite od_get_set_eq. reflexivity.
Qed.

Lemma elem_of_add_keys (ks seen : list string) (k : string) :
  k ∈ fold_left (fun acc k => if bool_decide (k ∈ acc) then acc
                              else (acc ++ [k])%list) ks seen
  <-> k ∈ seen \/ k ∈ ks.
Proof.
  revert seen. induction ks as [|k0 ks IH]; intros seen; simpl.
  - split; [auto | intros [H|H]; [exact H | inversion H]].
  - rewrite IH, elem_of_cons. destruct (bool_decide (k0 ∈ seen)) eqn:E.
    + apply bool_decide_eq_true in E. split; [tauto|].
      intros [H|[->|H]]; auto.
    + rewrite elem_of_app, list_elem_of_singleton. tauto.
Qed.

Lemma elem_of_union_keys (seen : list string) (df : DemoFrame) (k : string) :
  k ∈ union_keys seen df
  <-> k ∈ seen \/ exists id inner, (id, inner) ∈ df /\ k ∈ od_keys inner.
Proof.
  revert seen. induction df as [|[id0 inner0] df IH]; intros seen; simpl.
  - split; [auto | intros [H|(id & inner & H & _)]; [exact H | inversion H]].
  - rewrite IH, elem_of_add_keys. split.
    + intros [[H|H]|(id & inner & H & Hk)]; [auto | |].
      * right. exists id0, inner0. split; [left | exact H].
      * right. exists id, inner. split; [right; exact H | exact Hk].
    + intros [H|(id & inner & H & Hk)]; [auto|].
      apply elem_of_cons in H as [[= -> ->]|H]; [auto|].
      right. eauto.
Qed.

(** In the full sweep an attribute has a column in the joined table as
    soon as one record All.supplies a rate for it, for any district. *)
Lemma all_column_exists cpc_df categories records rec q merged :
  rec ∈ records ->
  All.rate_of (dg_values rec) = Some q ->
  merge cpc_df (fst (All.fetch_all_demographics categories records))
  = Ok merged ->
  demo_ (dc_characteristics_id rec) ∈ columns merged.
Proof.
  unfold All.fetch_all_demographics. cbn [fst]. intros Hin Hrate Hmerge.
  destruct (all_rate_key_kept records rec q Hin Hrate)
    as (inner & Hget & Hmem).
  apply od_get_elem_of in Hget. apply od_mem_keys in Hmem.
  unfold merge, demo_frame_columns in Hmerge.
  destruct (fold_left All.add_record records []) as [|d0 df] eqn:E;
    [inversion Hget|].
  assert (Hcols : columns merged
                  = (vote_columns ++ union_keys [] (d0 :: df))%list)
    by (injection Hmerge as <-; reflexivity).
  rewrite Hcols. apply elem_of_app. right. apply elem_of_union_keys. right. eauto.
Qed.

(** C2.  District 2 has, for attribute 2256, one record, without
    payload, and so no rate.  In the joined table of the focused reports
    ([analysis.py] and [scripts/analysis.py]) its cell holds 0; in that of
    the full sweep it is null. *)
Theorem focused_join_zero_filled :
  filter (fun rec => dg_constituency_id rec = 2%Z
                     /\ dc_characteristics_id rec = "2256") records
  = [ {| dg_constituency_id := 2; dc_characteristics_id := "2256";
         dg_values := None |} ] /\
  (exists merged row,
     merge (load_cpc_votes sheet) (Analysis.fetch_demographics records)
     = Ok merged /\
     rows merged = [row] /\ constituency_id (vote row) = 2%Z /\
     cell (demo row) "demo_2256" = Some 0%Q) /\
  (exists merged row,
     merge (load_cpc_votes sheet) (ScriptsAnalysis.fetch_demographics records)
     = Ok merged /\
     rows merged = [row] /\ constituency_id (vote row) = 2%Z /\
     cell (demo row) "demo_2256" = Some 0%Q) /\
  (exists merged row,
     merge (load_cpc_votes sheet)
       (fst (All.fetch_all_demographics [] records))
     = Ok merged /\
     rows merged = [row] /\ constituency_id (vote row) = 2%Z /\
     cell (demo row) "demo_2256" = None).
Proof.
  split; [vm_compute; reflexivity|].
  repeat split; eexists; eexists;
    (split; [vm_compute; reflexivity|]);
    (split; [vm_compute; reflexivity|]);
    (split; vm_compute; reflexivity).
Qed.

End Cells.

(* ===================================================================== *)
(** * Part III. Further properties of the scripts                         *)
(* ===================================================================== *)

(** ** Rounding *)

Module Rounding.
Import NumFacts.

Local Open Scope Q_scope.

Lemma round_half_even_error (q : Q) :
  q - (1 # 2) <= inject_Z (round_half_even q) <= q + (1 # 2).
Proof.
  unfold round_half_even.
  pose proof (Qfloor_le q) as Hlo. pose proof (Qlt_floor q) as Hhi.
  rewrite inject_Z_plus in Hhi. change (inject_Z 1) with 1 in Hhi.
  destruct (Qcompare_spec (q - inject_Z (Qfloor q)) (1 # 2)) as [E|L|G].
  - destruct (Z.even (Qfloor q));
      [|rewrite inject_Z_plus; change (inject_Z 1) with 1]; lra.
  - lra.
  - rewrite inject_Z_plus. change (inject_Z 1) with 1. lra.
Qed.

Lemma round_half_even_mono (q q' : Q) :
  q <= q' -> (round_half_even q <= round_half_even q')%Z.
Proof.
  intros Hle. pose proof (Qfloor_resp_le _ _ Hle) as Hfl.
  destruct (Z.eq_dec (Qfloor q) (Qfloor q')) as [E|Hne].
  - unfold round_half_even. rewrite E.
    destruct (Qcompare_spec (q - inject_Z (Qfloor q')) (1 # 2)) as [E1|L1|G1];
    destruct (Qcompare_spec (q' - inject_Z (Qfloor q')) (1 # 2))
      as [E2|L2|G2];
    try lia; try (destruct (Z.even (Qfloor q')); lia); exfalso; lra.
  - assert (Hlt : (Qfloor q + 1 <= Qfloor q')%Z) by lia.
    pose proof (round_half_even_error q) as [_ H1].
    pose proof (round_half_even_error q') as [H2 _].
    assert (Hup : (round_half_even q <= Qfloor q + 1)%Z).
    { unfold round_half_even.
      destruct (Qcompare (q - inject_Z (Qfloor q)) (1 # 2));
        try destruct (Z.even (Qfloor q)); lia. }
    assert (Hdown : (Qfloor q' <= round_half_even q')%Z).
    { unfold round_half_even.
      destruct (Qcompare (q' - inject_Z (Qfloor q')) (1 # 2));
        try destruct (Z.even (Qfloor q')); lia. }
    lia.
Qed.

Lemma scale_pos (ndigits : nat) : 0 < inject_Z (10 ^ Z.of_nat ndigits).
Proof.
  change 0 with (inject_Z 0). rewrite <- Zlt_Qlt.
  apply Z.pow_pos_nonneg; lia.
Qed.

Lemma round_eq (q : Q) (ndigits : nat) :
  round q ndigits
  == inject_Z (round_half_even (q * inject_Z (10 ^ Z.of_nat ndigits)))
     / inject_Z (10 ^ Z.of_nat ndigits).
Proof. unfold round. cbv zeta. apply Qred_correct. Qed.

(** [round] is monotone. *)
Lemma round_mono (q q' : Q) (ndigits : nat) :
  q <= q' -> round q ndigits <= round q' ndigits.
Proof.
  intros Hle. rewrite !round_eq.
  pose proof (scale_pos ndigits) as Hs.
  set (s := inject_Z (10 ^ Z.of_nat ndigits)) in *.
  assert (Hm : (round_half_even (q * s) <= round_half_even (q' * s))%Z).
  { apply round_half_even_mono. apply Qmult_le_compat_r; lra. }
  rewrite Zle_Qle in Hm.
  apply Qle_shift_div_l; [exact Hs|].
  unfold Qdiv. rewrite <- Qmult_assoc, (Qmult_comm (/ s)), Qmult_inv_r by lra.
  lra.
Qed.

(** [round] is off by at most half a unit of the last digit kept. *)
Lemma round_error (q : Q) (ndigits : nat) :
  Qabs (round q ndigits - q)
  <= (1 # 2) / inject_Z (10 ^ Z.of_nat ndigits).
Proof.
  rewrite round_eq. pose proof (scale_pos ndigits) as Hs.
  set (s := inject_Z (10 ^ Z.of_nat ndigits)) in *.
  pose proof (round_half_even_error (q * s)) as [Hlo Hhi].
  set (z := inject_Z (round_half_even (q * s))) in *.
  assert (E : z / s - q == (z - q * s) / s) by (field; lra).
  rewrite E. apply Qabs_Qle_condition. unfold Qdiv.
  assert (Ht : 0 < / s) by (apply Qinv_lt_0_compat; exact Hs).
  set (t := / s) in *. split.
  - setoid_replace (- ((1 # 2) * t)) with ((- (1 # 2)) * t)
      using relation Qeq by ring.
    apply Qmult_le_compat_r; lra.
  - apply Qmult_le_compat_r; lra.
Qed.

End Rounding.

(** ** The full sweep: which columns give a record *)

Module SweepFacts.
Import NumFacts Rounding All AllFacts Samples.

Local Open Scope Q_scope.

Lemma Qsum_nonneg (l : list Q) : Forall (fun x => 0 <= x) l -> 0 <= Qsum l.
Proof.
  induction 1 as [|x l Hx _ IH]; unfold Qsum in *; simpl; lra.
Qed.

Lemma square_zero (x : Q) : x * x == 0 -> x == 0.
Proof. intros H. apply Qmult_integral in H. tauto. Qed.

Lemma squares_zero (m : Q) (l : list Q) :
  Qsum (map (fun x => (x - m) * (x - m)) l) == 0 ->
  Forall (fun x => x == m) l.
Proof.
  induction l as [|x l IH]; [constructor|].
  unfold Qsum in *. simpl. intros H.
  assert (H0 : 0 <= (x - m) * (x - m)).
  { destruct (Qlt_le_dec (x - m) 0).
    - setoid_replace ((x - m) * (x - m)) with ((- (x - m)) * (- (x - m)))
        using relation Qeq by ring.
      apply Qmult_le_0_compat; lra.
    - apply Qmult_le_0_compat; lra. }
  assert (H1 : 0 <= foldr Qplus 0 (map (fun x => (x - m) * (x - m)) l)).
  { apply Qsum_nonneg. apply Forall_map, Forall_forall. intros y _. simpl.
    destruct (Qlt_le_dec (y - m) 0).
    - setoid_replace ((y - m) * (y - m)) with ((- (y - m)) * (- (y - m)))
        using relation Qeq by ring.
      apply Qmult_le_0_compat; lra.
    - apply Qmult_le_0_compat; lra. }
  constructor.
  - assert (E : (x - m) * (x - m) == 0) by lra.
    apply square_zero in E. lra.
  - apply IH. lra.
Qed.

(** A standard deviation of zero means that all the values are equal. *)
Lemma std_eq_zero_inv (l : list Q) :
  std_eq_zero l = true ->
  (2 <= length l)%nat /\ Forall (fun x => x == mean l) l.
Proof.
  unfold std_eq_zero, var.
  destruct (length l <=? 1)%nat eqn:E; [discriminate|].
  apply Nat.leb_gt in E. intros H. apply Qeq_bool_iff in H.
  split; [lia|]. apply squares_zero.
  unfold Qdiv in H. apply Qmult_integral in H as [H|H]; [exact H|].
  exfalso.
  assert (Hpos : 0 < inject_Z (Z.of_nat (length l) - 1)).
  { change 0 with (inject_Z 0). rewrite <- Zlt_Qlt. lia. }
  apply Qinv_lt_0_compat in Hpos. lra.
Qed.

Section Engine.

Variable pearsonr : list Q -> list Q -> Q * Q.

Lemma passes_sweep_iff merged_df category_info col :
  passes_sweep merged_df col = true
  <-> exists res,
        analyze_column pearsonr merged_df category_info col = Some res.
Proof.
  unfold passes_sweep, analyze_column. cbv zeta.
  rewrite andb_true_iff, negb_true_iff, Nat.leb_le.
  destruct (length (valid_data merged_df col) <? 30)%nat eqn:Elen.
  - apply Nat.ltb_lt in Elen. split; [intros [? _]; lia|].
    intros [res H]. discriminate.
  - apply Nat.ltb_ge in Elen.
    destruct (std_eq_zero (map snd (valid_data merged_df col))).
    + split; [intros [_ ?]; discriminate | intros [res H]; discriminate].
    + destruct (pearsonr _ _). split; eauto.
Qed.

Lemma collect_results_ids merged_df category_info (cols : list string) :
  map characteristics_id
    (omap (analyze_column pearsonr merged_df category_info) cols)
  = map replace_demo
      (filter (fun col => passes_sweep merged_df col = true) cols).
Proof.
  induction cols as [|col cols IH]; [reflexivity|].
  cbn [omap list_omap]. rewrite filter_cons.
  destruct (analyze_column pearsonr merged_df category_info col)
    as [res|] eqn:E.
  - rewrite decide_True by (apply (passes_sweep_iff _ category_info); eauto).
    cbn [map]. rewrite <- IH. f_equal.
    apply analyze_column_Some in E. cbv zeta in E. tauto.
  - rewrite decide_False; [exact IH|].
    intros H. apply (passes_sweep_iff _ category_info) in H as [res H].
    congruence.
Qed.

(** X2.  The sweep returns one record per column that passes its two filters,
    and raises [KeyError] exactly when no column passes. *)
Theorem sweep_outcome
  (merged_df : Joined) (category_info : gmap string CategoryInfo) :
  let passing :=
    filter (fun col => passes_sweep merged_df col = true)
      (demo_cols merged_df) in
  match calculate_all_correlations pearsonr merged_df category_info with
  | Ok results =>
      passing <> [] /\
      map characteristics_id results ≡ₚ map replace_demo passing
  | Raise e => passing = [] /\ e = KeyError "Pearson r"
  end.
Proof.
  cbv zeta. unfold calculate_all_correlations.
  pose proof (collect_results_ids merged_df category_info
                (demo_cols merged_df)) as Hids.
  fold (collect_results pearsonr merged_df category_info) in Hids.
  destruct (collect_results pearsonr merged_df category_info)
    as [|res results] eqn:E.
  - split; [|reflexivity]. symmetry in Hids.
    apply map_eq_nil in Hids. exact Hids.
  - split.
    + intros Hnil. rewrite Hnil in Hids. discriminate.
    + rewrite <- Hids. unfold sort_values_abs_descending.
      rewrite merge_sort_Permutation. reflexivity.
Qed.

End Engine.

End SweepFacts.

(** ** Rounding to four decimals and the thresholds *)

Module StoredCoefficient.
Import NumFacts Rounding All AllFacts Samples.

Local Open Scope Q_scope.

(** Rounding to four decimals does not move a coefficient across one of
    the thresholds 0, 0.2, 0.3, 0.5 or their opposites. *)
Lemma round4_keeps_side (a r : Q) :
  round a 4 == a ->
  (a <= r -> a <= round r 4) /\ (r <= a -> round r 4 <= a).
Proof.
  intros Ha. split; intros H; apply (round_mono _ _ 4) in H; lra.
Qed.

Lemma round4_abs_ge (a r : Q) :
  round a 4 == a -> round (- a) 4 == - a ->
  a <= Qabs r -> a <= Qabs (round r 4).
Proof.
  intros Ha Hna H.
  destruct (round4_keeps_side a r Ha) as [Hup _].
  destruct (round4_keeps_side (- a) r Hna) as [_ Hdown].
  destruct (Qlt_le_dec r 0) as [Hneg|Hpos].
  - rewrite Qabs_neg in H by lra.
    assert (round r 4 <= - a) by (apply Hdown; lra).
    destruct (Qlt_le_dec (round r 4) 0).
    + rewrite Qabs_neg by lra. lra.
    + rewrite Qabs_pos by lra. lra.
  - rewrite Qabs_pos in H by lra.
    assert (a <= round r 4) by (apply Hup; lra).
    apply Qabs_ge. lra.
Qed.

Lemma round4_abs_le (a r : Q) :
  round a 4 == a -> round (- a) 4 == - a ->
  Qabs r <= a -> Qabs (round r 4) <= a.
Proof.
  intros Ha Hna H. apply Qabs_Qle_condition in H as [Hlo Hhi].
  destruct (round4_keeps_side a r Ha) as [_ Hdown].
  destruct (round4_keeps_side (- a) r Hna) as [Hup _].
  apply Qabs_Qle_condition. split; auto.
Qed.

End StoredCoefficient.

(** ** The views of the report of [all.py] *)

Module ReportViews.
Import NumFacts Rounding All AllFacts AllViews ReportFacts Samples.

Local Open Scope Q_scope.

#[local] Existing Instance by_abs_r_descending_total.
#[local] Existing Instance by_abs_r_descending_trans.
#[local] Existing Instance by_r_descending_total.
#[local] Existing Instance by_r_descending_trans.
#[local] Existing Instance by_r_ascending_total.
#[local] Existing Instance by_r_ascending_trans.

Lemma StronglySorted_sublist {A} (R : relation A) (l1 l2 : list A) :
  l1 `sublist_of` l2 -> StronglySorted R l2 -> StronglySorted R l1.
Proof.
  induction 1 as [|x l1 l2 Hsub IH|x l1 l2 Hsub IH]; intros Hs.
  - constructor.
  - apply StronglySorted_inv in Hs as [Hs Hall]. constructor; [auto|].
    apply Forall_forall. intros y Hy. rewrite Forall_forall in Hall.
    apply Hall. eapply elem_of_sublist; eauto.
  - apply StronglySorted_inv in Hs as [Hs _]. auto.
Qed.

Lemma StronglySorted_weaken {A} (R1 R2 : relation A) (P : A -> Prop)
  (l : list A) :
  Forall P l -> (forall a b, P a -> P b -> R1 a b -> R2 a b) ->
  StronglySorted R1 l -> StronglySorted R2 l.
Proof.
  intros HP Himp. induction 1 as [|x l Hs IH Hall]; [constructor|].
  apply Forall_cons in HP as [Hx HP]. constructor; [auto|].
  rewrite Forall_forall in *. intros y Hy. apply Himp; auto.
Qed.

Lemma length_omap_le {A B} (f : A -> option B) (l : list A) :
  (length (omap f l) <= length l)%nat.
Proof.
  induction l as [|x l IH]; [reflexivity|].
  cbn [omap list_omap]. destruct (f x); simpl; lia.
Qed.

(** The head of a sorted frame dominates the rest of it. *)
Lemma take_dominates {A} (R : relation A) (n : nat) (l : list A) a b :
  StronglySorted R l -> a ∈ take n l -> b ∈ drop n l -> R a b.
Proof.
  intros Hs Ha Hb. rewrite <- (take_drop n l) in Hs.
  eapply StronglySorted_app_1_elem_of; eauto.
Qed.

Section Engine.

Variable pearsonr : list Q -> list Q -> Q * Q.
Variable merged_df : Joined.
Variable category_info : gmap string CategoryInfo.
Variable results : list CorrelationResult.
Hypothesis Hrun :
  calculate_all_correlations pearsonr merged_df category_info = Ok results.

Lemma results_sorted : StronglySorted by_abs_r_descending results.
Proof.
  apply calculate_all_correlations_Ok in Hrun as [-> _].
  apply StronglySorted_merge_sort; apply _.
Qed.

Lemma results_nonempty : results <> [].
Proof.
  apply calculate_all_correlations_Ok in Hrun as [-> Hne].
  intros E. apply Hne.
  apply Permutation_nil. rewrite <- E. unfold sort_values_abs_descending.
  apply merge_sort_Permutation.
Qed.

(** The sign of the stored coefficient follows the direction label. *)
Lemma direction_sign res :
  res ∈ results ->
  (direction res = "Positive" -> 0 <= pearson_r res) /\
  (direction res = "Negative" -> pearson_r res <= 0) /\
  (correlation_strength res = "Strong" \/ correlation_strength res = "Moderate"
   -> 3 # 10 <= Qabs (pearson_r res)).
Proof.
  intros Hin.
  apply (elem_of_calculate_all_correlations _ _ _ _ res Hrun) in Hin
    as (col & Hcol & Hres).
  apply analyze_column_Some in Hres. cbv zeta in Hres.
  destruct Hres as (_ & _ & _ & Hr & _ & _ & Hs & Hd & _).
  set (r := fst (pearsonr (map snd (valid_data merged_df col))
                          (map fst (valid_data merged_df col)))) in *.
  destruct (strength_label_spec r) as (S1 & S2 & _ & _).
  destruct (direction_label_spec r) as (D1 & D2).
  rewrite Hs, Hd, Hr.
  assert (F0 : round 0 4 == 0) by (vm_compute; reflexivity).
  assert (F3 : round (3 # 10) 4 == 3 # 10) by (vm_compute; reflexivity).
  assert (F3' : round (- (3 # 10)) 4 == - (3 # 10))
    by (vm_compute; reflexivity).
  split; [|split].
  - intros H. apply D1 in H.
    assert (H' : 0 <= r) by lra. apply (round_mono _ _ 4) in H'. lra.
  - intros H. apply D2 in H.
    assert (H' : r <= 0) by lra. apply (round_mono _ _ 4) in H'. lra.
  - intros H. apply StoredCoefficient.round4_abs_ge; auto.
    destruct H as [H|H]; [apply S1 in H | apply S2 in H]; lra.
Qed.

End Engine.

(** X4.  The lists that [print_top_correlations] prints and the bars that
    [create_visualizations] draws are what their titles say.  The frame
    of significant results, filtered from the sorted results without a
    new sort, is still sorted by [|r|] descending, so its first [top_n]
    rows are the strongest; the first rows of its positive part, taken
    without a sort, are sorted by [r] descending and are the largest
    positive coefficients; the negative parts are sorted by [r]
    ascending. *)
Theorem top_lists_are_the_strongest
  (pearsonr : list Q -> list Q -> Q * Q)
  (merged_df : Joined) (category_info : gmap string CategoryInfo)
  (results : list CorrelationResult) (top_n : nat) :
  calculate_all_correlations pearsonr merged_df category_info = Ok results ->
  let view := print_top_correlations results top_n in
  let bars := create_visualizations results in
  let sig_df := returned_sig_df view in
  let positive := filter (fun row => direction row = "Positive") sig_df in
  StronglySorted by_abs_r_descending sig_df /\
  (forall a b, a ∈ top view -> b ∈ drop top_n sig_df ->
               Qabs (pearson_r b) <= Qabs (pearson_r a)) /\
  StronglySorted by_r_descending (top_positive view) /\
  (forall a b, a ∈ top_positive view -> b ∈ drop 10 positive ->
               pearson_r b <= pearson_r a) /\
  StronglySorted by_r_descending (fst bars) /\
  (forall a b, a ∈ fst bars -> b ∈ drop 12 positive ->
               pearson_r b <= pearson_r a) /\
  StronglySorted by_r_ascending (top_negative view) /\
  StronglySorted by_r_ascending (snd bars).
Proof.
  intros Hrun. cbv zeta. unfold print_top_correlations, create_visualizations.
  cbn [top top_positive top_negative returned_sig_df fst snd].
  set (sig_df := filter (fun row => significant row = "Yes") results).
  set (positive := filter (fun row => direction row = "Positive") sig_df).
  assert (Hsig : StronglySorted by_abs_r_descending sig_df).
  { eapply StronglySorted_sublist; [apply sublist_filter|].
    eapply results_sorted; eauto. }
  assert (Hpos : StronglySorted by_r_descending positive).
  { apply (StronglySorted_weaken by_abs_r_descending by_r_descending
             (fun row => 0 <= pearson_r row)).
    - apply Forall_forall. intros row Hrow.
      apply list_elem_of_filter in Hrow as [Hdir Hrow].
      apply list_elem_of_filter in Hrow as [_ Hrow].
      eapply direction_sign; eauto.
    - unfold by_abs_r_descending, by_r_descending. intros a b Ha Hb.
      rewrite !Qabs_pos by assumption. auto.
    - eapply StronglySorted_sublist; [apply sublist_filter | exact Hsig]. }
  assert (Hneg : forall n,
            StronglySorted by_r_ascending
              (take n (sort_values_ascending
                         (filter (fun row => direction row = "Negative")
                            sig_df)))).
  { intros n. eapply StronglySorted_sublist; [apply sublist_take|].
    apply StronglySorted_merge_sort; apply _. }
  split; [exact Hsig|]. split.
  { intros a b Ha Hb. apply (take_dominates _ top_n sig_df a b Hsig Ha Hb). }
  split.
  { eapply StronglySorted_sublist; [apply sublist_take | exact Hpos]. }
  split.
  { intros a b Ha Hb. apply (take_dominates _ 10 positive a b Hpos Ha Hb). }
  split.
  { eapply StronglySorted_sublist; [apply sublist_take | exact Hpos]. }
  split.
  { intros a b Ha Hb. apply (take_dominates _ 12 positive a b Hpos Ha Hb). }
  split; apply Hneg.
Qed.

Lemma top_lists_are_the_strongest_witness :
  let results := [result_2255; result_2257] in
  let view := print_top_correlations results 20 in
  let bars := create_visualizations results in
  let sig_df := returned_sig_df view in
  let positive := filter (fun row => direction row = "Positive") sig_df in
  StronglySorted by_abs_r_descending sig_df /\
  (forall a b, a ∈ top view -> b ∈ drop 20 sig_df ->
               Qabs (pearson_r b) <= Qabs (pearson_r a)) /\
  StronglySorted by_r_descending (top_positive view) /\
  (forall a b, a ∈ top_positive view -> b ∈ drop 10 positive ->
               pearson_r b <= pearson_r a) /\
  StronglySorted by_r_descending (fst bars) /\
  (forall a b, a ∈ fst bars -> b ∈ drop 12 positive ->
               pearson_r b <= pearson_r a) /\
  StronglySorted by_r_ascending (top_negative view) /\
  StronglySorted by_r_ascending (snd bars).
Proof.
  apply (top_lists_are_the_strongest collinear_pearsonr (districts 40 40) ∅).
  vm_compute. reflexivity.
Defined.

(** X5.  The fill of a coefficient cell: a shade of green exactly for a
    positive stored coefficient, a shade of red exactly for a negative
    one, none for 0, the strong shade from 0.3 on.  In the sheets of the
    sweep a record labelled Positive is never red, one labelled Negative
    never green, and a record labelled Strong or Moderate has the strong
    shade. *)
Theorem fills_follow_sign_and_labels
  (pearsonr : list Q -> list Q -> Q * Q)
  (merged_df : Joined) (category_info : gmap string CategoryInfo)
  (results : list CorrelationResult) (res : CorrelationResult) :
  calculate_all_correlations pearsonr merged_df category_info = Ok results ->
  res ∈ results ->
  let shade := pearson_fill (pearson_r res) in
  (forall value,
     (pearson_fill value = Some strong_pos_fill <-> 3 # 10 <= value) /\
     (pearson_fill value = Some weak_pos_fill <-> 0 < value < 3 # 10) /\
     (pearson_fill value = Some strong_neg_fill <-> value <= - (3 # 10)) /\
     (pearson_fill value = Some weak_neg_fill <-> - (3 # 10) < value < 0) /\
     (pearson_fill value = None <-> value == 0)) /\
  (direction res = "Positive"
   -> shade <> Some strong_neg_fill /\ shade <> Some weak_neg_fill) /\
  (direction res = "Negative"
   -> shade <> Some strong_pos_fill /\ shade <> Some weak_pos_fill) /\
  (correlation_strength res = "Strong" \/ correlation_strength res = "Moderate"
   -> shade = Some strong_pos_fill \/ shade = Some strong_neg_fill).
Proof.
  intros Hrun Hin. cbv zeta.
  assert (Htable : forall value,
     (pearson_fill value = Some strong_pos_fill <-> 3 # 10 <= value) /\
     (pearson_fill value = Some weak_pos_fill <-> 0 < value < 3 # 10) /\
     (pearson_fill value = Some strong_neg_fill <-> value <= - (3 # 10)) /\
     (pearson_fill value = Some weak_neg_fill <-> - (3 # 10) < value < 0) /\
     (pearson_fill value = None <-> value == 0)).
  { intros value. unfold pearson_fill.
    destruct (Qle_bool (3 # 10) value) eqn:E1;
      [apply Qle_bool_iff in E1 | apply Qle_bool_false in E1];
    (destruct (Qlt_bool 0 value) eqn:E2;
      [apply Qlt_bool_iff in E2
      | assert (~ 0 < value)
          by (intros H; apply Qlt_bool_iff in H; congruence)]);
    (destruct (Qle_bool value (- (3 # 10))) eqn:E3;
      [apply Qle_bool_iff in E3 | apply Qle_bool_false in E3]);
    (destruct (Qlt_bool value 0) eqn:E4;
      [apply Qlt_bool_iff in E4
      | assert (~ value < 0)
          by (intros H'; apply Qlt_bool_iff in H'; congruence)]);
    repeat split; intros; try discriminate; try reflexivity; try lra;
      exfalso; lra. }
  split; [exact Htable|].
  destruct (direction_sign pearsonr merged_df category_info results Hrun
              res Hin) as (Hp & Hn & Hs).
  destruct (Htable (pearson_r res)) as (T1 & T2 & T3 & T4 & T5).
  split; [|split].
  - intros H. apply Hp in H. split; intros E; [apply T3 in E | apply T4 in E];
      lra.
  - intros H. apply Hn in H. split; intros E; [apply T1 in E | apply T2 in E];
      lra.
  - intros H. apply Hs in H.
    destruct (Qlt_le_dec (pearson_r res) 0) as [Hneg|Hpos].
    + right. apply T3. rewrite Qabs_neg in H by lra. lra.
    + left. apply T1. rewrite Qabs_pos in H by lra. lra.
Qed.

Lemma fills_follow_sign_and_labels_witness :
  pearson_fill (pearson_r result_2255) = Some strong_pos_fill
  \/ pearson_fill (pearson_r result_2255) = Some strong_neg_fill.
Proof.
  apply (fills_follow_sign_and_labels collinear_pearsonr (districts 40 25) ∅
           [result_2255] result_2255).
  - vm_compute. reflexivity.
  - left.
  - left. reflexivity.
Defined.

(** X6.  The summary that [main] prints: at least one attribute was tested
    (the percentage it prints never divides by zero), the significant
    ones are the positive plus the negative ones, and the counts are the
    lengths of the sheets of the report. *)
Theorem summary_counts_add_up
  (pearsonr : list Q -> list Q -> Q * Q)
  (merged_df : Joined) (category_info : gmap string CategoryInfo)
  (results : list CorrelationResult) :
  calculate_all_correlations pearsonr merged_df category_info = Ok results ->
  let summary := summary_statistics results in
  let report := create_excel_report results in
  (1 <= total_tested summary)%nat /\
  (total_tested summary <= length (demo_cols merged_df))%nat /\
  (significant_count summary = pos_count summary + neg_count summary)%nat /\
  (significant_count summary <= total_tested summary)%nat /\
  significant_count summary = length (sig_df report) /\
  pos_count summary = length (pos_df report) /\
  neg_count summary = length (neg_df report).
Proof.
  intros Hrun. cbv zeta. unfold summary_statistics, create_excel_report.
  cbn [total_tested significant_count pos_count neg_count
       sig_df pos_df neg_df].
  unfold sort_values_abs_descending, sort_values_descending,
    sort_values_ascending. rewrite !merge_sort_Permutation.
  split.
  { pose proof (results_nonempty _ _ _ _ Hrun). destruct results;
      [congruence | simpl; lia]. }
  split.
  { pose proof Hrun as Hrun'.
    apply calculate_all_correlations_Ok in Hrun' as [-> _].
    unfold sort_values_abs_descending. rewrite merge_sort_Permutation.
    unfold collect_results. apply length_omap_le. }
  split.
  { rewrite <- length_app. apply Permutation_length, filter_split.
    intros res Hin _. apply (labels_of_results _ _ _ _ res Hrun Hin). }
  split; [apply length_filter|]. auto.
Qed.

Lemma summary_counts_add_up_witness :
  let summary := summary_statistics [result_2255; result_2257] in
  let report := create_excel_report [result_2255; result_2257] in
  (1 <= total_tested summary)%nat /\
  (total_tested summary <= length (demo_cols (districts 40 40)))%nat /\
  (significant_count summary = pos_count summary + neg_count summary)%nat /\
  (significant_count summary <= total_tested summary)%nat /\
  significant_count summary = length (sig_df report) /\
  pos_count summary = length (pos_df report) /\
  neg_count summary = length (neg_df report).
Proof.
  apply (summary_counts_add_up collinear_pearsonr (districts 40 40) ∅).
  vm_compute. reflexivity.
Defined.

End ReportViews.

(** ** The loaders and the join *)

Module LoaderFacts.
Import OdictFacts JoinFacts Cells Samples MoreSamples.

Local Open Scope nat_scope.

Lemma supplied_rates_snoc records rec id col :
  supplied_rates (records ++ [rec]) id col
  = (supplied_rates records id col
     ++ if decide (dg_constituency_id rec = id
                   /\ demo_ (dc_characteristics_id rec) = col)
        then match All.rate_of (dg_values rec) with
             | Some rate => [rate]
             | None => []
             end
        else [])%list.
Proof.
  unfold supplied_rates. rewrite filter_app, omap_app. f_equal.
  rewrite filter_cons, filter_nil. destruct (decide _); [|reflexivity].
  cbn [omap list_omap]. destruct (All.rate_of _); reflexivity.
Qed.

Lemma stored_rates_snoc records rec id col :
  stored_rates (records ++ [rec]) id col
  = (stored_rates records id col
     ++ if decide (dg_constituency_id rec = id
                   /\ demo_ (dc_characteristics_id rec) = col)
        then [Analysis.rate_of (dg_values rec)] else [])%list.
Proof.
  unfold stored_rates. rewrite filter_app, map_app. f_equal.
  rewrite filter_cons, filter_nil. destruct (decide _); reflexivity.
Qed.

(** The dict of a district after one turn of the loop of the focused
    loaders. *)
Lemma analysis_add_record_get (d : demo_dict) rec id :
  od_get (Analysis.add_record d rec) id
  = if decide (dg_constituency_id rec = id) then
      Some (od_set (default [] (od_get d id))
              (demo_ (dc_characteristics_id rec))
              (Analysis.rate_of (dg_values rec)))
    else od_get d id.
Proof.
  unfold Analysis.add_record. cbv zeta.
  set (d1 := if od_mem d (dg_constituency_id rec) then d
             else od_set d (dg_constituency_id rec) []).
  assert (H1 : forall id',
             od_get d1 id'
             = if decide (dg_constituency_id rec = id')
               then Some (default [] (od_get d id')) else od_get d id').
  { intros id'. unfold d1, od_mem.
    destruct (decide (dg_constituency_id rec = id')) as [<-|Hne].
    - destruct (od_get d (dg_constituency_id rec)) eqn:E.
      + rewrite E. reflexivity.
      + rewrite od_get_set_eq. reflexivity.
    - destruct (od_get d (dg_constituency_id rec)); [reflexivity|].
      apply od_get_set_ne. exact Hne. }
  destruct (decide (dg_constituency_id rec = id)) as [<-|Hne].
  - rewrite od_get_set_eq, H1, decide_True by reflexivity. reflexivity.
  - rewrite od_get_set_ne, H1, decide_False by exact Hne. reflexivity.
Qed.

Lemma all_dict_cell records id col :
  cell (default [] (od_get (fold_left All.add_record records []) id)) col
  = last (supplied_rates records id col).
Proof.
  induction records as [|rec records IH] using rev_ind; [reflexivity|].
  rewrite fold_left_app, supplied_rates_snoc. cbn [fold_left].
  rewrite all_add_record_get.
  destruct (decide (dg_constituency_id rec = id)) as [Hid|Hid].
  - cbn [from_option Datatypes.id].
    destruct (All.rate_of (dg_values rec)) as [rate|].
    + rewrite cell_od_set.
      destruct (decide (demo_ (dc_characteristics_id rec) = col)) as [Hc|Hc].
      * rewrite decide_True by auto. rewrite last_snoc. reflexivity.
      * rewrite decide_False by tauto. rewrite app_nil_r. exact IH.
    + destruct (decide _); rewrite app_nil_r; exact IH.
  - rewrite decide_False by tauto. rewrite app_nil_r. exact IH.
Qed.

Lemma analysis_dict_get records id col :
  od_get (default [] (od_get (fold_left Analysis.add_record records []) id))
    col
  = last (stored_rates records id col).
Proof.
  induction records as [|rec records IH] using rev_ind; [reflexivity|].
  rewrite fold_left_app, stored_rates_snoc. cbn [fold_left].
  rewrite analysis_add_record_get.
  destruct (decide (dg_constituency_id rec = id)) as [Hid|Hid].
  - cbn [from_option Datatypes.id].
    destruct (decide (demo_ (dc_characteristics_id rec) = col)) as [Hc|Hc].
    + rewrite decide_True by auto. rewrite last_snoc, <- Hc.
      apply od_get_set_eq.
    + rewrite decide_False by tauto.
      rewrite app_nil_r, od_get_set_ne by exact Hc. exact IH.
  - rewrite decide_False by tauto. rewrite app_nil_r. exact IH.
Qed.

Lemma frame_row_get (step : demo_dict -> DemoRecord -> demo_dict) records
  id inner :
  extends_keys step ->
  (id, inner) ∈ fold_left step records [] ->
  od_get (fold_left step records []) id = Some inner.
Proof.
  intros Hstep Hin. apply od_elem_of_get; [|exact Hin].
  apply (fold_keys_NoDup _ Hstep). constructor.
Qed.

(** X7.  In the frame of the full sweep the cell of a district and an
    attribute holds the last rate that the records supply for the pair,
    and is null when they supply none. *)
Theorem full_sweep_cell_is_last_supplied_rate
  (categories : list All.CategoryRow) (records : list DemoRecord)
  (id : Z) (inner : odict string (option Q)) (col : string) :
  (id, inner) ∈ fst (All.fetch_all_demographics categories records) ->
  cell inner col = last (supplied_rates records id col).
Proof.
  cbn [fst All.fetch_all_demographics]. intros Hin.
  apply (frame_row_get _ _ _ _ all_add_record_keys) in Hin.
  rewrite <- all_dict_cell, Hin. reflexivity.
Qed.

Lemma full_sweep_cell_is_last_supplied_rate_witness :
  cell [("demo_2255", Some (13 # 1))] "demo_2255"
  = last (supplied_rates repeated_records 5 "demo_2255").
Proof.
  apply (full_sweep_cell_is_last_supplied_rate [] repeated_records 5).
  vm_compute. left.
Defined.

(** X8.  In the frame of the focused loaders ([analysis.py] and
    [scripts/analysis.py]) the entry of a district and an attribute is
    what the last record of the pair gives: its rate, 0 when it has no
    payload or no rate, and null when its rate is null, whatever an
    earlier record gave; without a record the cell is null. *)
Theorem focused_cell_is_last_record
  (records : list DemoRecord)
  (id : Z) (inner : odict string (option Q)) (col : string) :
  (id, inner) ∈ Analysis.fetch_demographics records
  \/ (id, inner) ∈ ScriptsAnalysis.fetch_demographics records ->
  od_get inner col = last (stored_rates records id col) /\
  cell inner col = mjoin (last (stored_rates records id col)).
Proof.
  intros Hin.
  assert (Hget : od_get (fold_left Analysis.add_record records []) id
                 = Some inner).
  { destruct Hin as [Hin|Hin];
      apply (frame_row_get _ _ _ _ analysis_add_record_keys); exact Hin. }
  assert (E : od_get inner col = last (stored_rates records id col))
    by (rewrite <- analysis_dict_get, Hget; reflexivity).
  split; [exact E|]. unfold cell. rewrite E.
  destruct (last _) as [[q|]|]; reflexivity.
Qed.

Lemma focused_cell_is_last_record_witness :
  od_get [("demo_2255", @None Q)] "demo_2255"
  = last (stored_rates repeated_records 5 "demo_2255") /\
  cell [("demo_2255", @None Q)] "demo_2255"
  = mjoin (last (stored_rates repeated_records 5 "demo_2255")).
Proof.
  apply (focused_cell_is_last_record repeated_records 5).
  left. vm_compute. left.
Defined.

End LoaderFacts.

(** ** The joined table *)

Module JoinContent.
Import OdictFacts JoinFacts Cells LoaderFacts All AllFacts Samples MoreSamples.

Local Open Scope nat_scope.

Lemma merge_rows merged cpc_df demo_df :
  merge cpc_df demo_df = Ok merged ->
  columns merged = (vote_columns ++ union_keys [] demo_df)%list /\
  rows merged
  = flat_map
      (fun v => map (fun d => {| vote := v; demo := snd d |})
                  (filter (fun d => fst d = constituency_id v) demo_df))
      cpc_df.
Proof.
  unfold merge, demo_frame_columns. destruct demo_df; [discriminate|].
  intros [= <-]. split; reflexivity.
Qed.

Lemma merge_row_elem merged cpc_df demo_df row :
  merge cpc_df demo_df = Ok merged ->
  row ∈ rows merged ->
  vote row ∈ cpc_df /\ (joined_id row, demo row) ∈ demo_df.
Proof.
  intros Hm Hin. apply merge_rows in Hm as [_ Hrows]. rewrite Hrows in Hin.
  apply list_elem_of_In, in_flat_map in Hin as (v & Hv & Hin).
  apply list_elem_of_In in Hv. apply list_elem_of_In in Hin.
  apply list_elem_of_fmap in Hin as ([id d] & -> & Hd).
  apply list_elem_of_filter in Hd as [Hid Hd]. simpl in Hid.
  unfold joined_id. simpl. rewrite <- Hid. auto.
Qed.

Lemma merge_ids merged cpc_df (demo_df : DemoFrame) :
  NoDup (map fst demo_df) ->
  merge cpc_df demo_df = Ok merged ->
  map joined_id (rows merged)
  = filter (fun id => id ∈ map fst demo_df) (map constituency_id cpc_df).
Proof.
  intros Hnd Hm. apply merge_rows in Hm as [_ ->].
  induction cpc_df as [|v cpc_df IH]; [reflexivity|].
  cbn [flat_map map]. rewrite map_app, IH, filter_cons. f_equal.
  pose proof (count_key_NoDup fst demo_df (constituency_id v) Hnd) as Hc.
  assert (Hall : forall l : DemoFrame,
            map joined_id (map (fun d => {| vote := v; demo := snd d |}) l)
            = replicate (length l) (constituency_id v)).
  { induction l as [|d l IHl]; [reflexivity|]. simpl. rewrite IHl.
    reflexivity. }
  rewrite Hall. unfold DemoFrame in *. rewrite Hc.
  destruct (decide _); reflexivity.
Qed.

(** X9.  The join pairs each vote row with the demographic dict of its own
    district, keeps the order of the vote table, and puts the attribute
    columns after the vote columns. *)
Theorem join_pairs_rows_of_the_same_district
  (cpc_df : list SheetRow) (demo_df : DemoFrame) (merged : Joined) :
  NoDup (map fst demo_df) ->
  merge cpc_df demo_df = Ok merged ->
  (forall row, row ∈ rows merged ->
     vote row ∈ cpc_df /\ (constituency_id (vote row), demo row) ∈ demo_df) /\
  map (fun row => constituency_id (vote row)) (rows merged)
  = filter (fun id => id ∈ map fst demo_df) (map constituency_id cpc_df) /\
  columns merged = (vote_columns ++ union_keys [] demo_df)%list.
Proof.
  intros Hnd Hm. split; [|split].
  - intros row Hrow. apply (merge_row_elem _ _ _ _ Hm Hrow).
  - apply (merge_ids _ _ _ Hnd Hm).
  - apply (merge_rows _ _ _ Hm).
Qed.

Lemma join_pairs_rows_of_the_same_district_witness :
  exists merged,
    merge (load_cpc_votes sheet) (Analysis.fetch_demographics records)
    = Ok merged /\
    map (fun row => constituency_id (vote row)) (rows merged)
    = filter (fun id => id ∈ map fst (Analysis.fetch_demographics records))
        (map constituency_id (load_cpc_votes sheet)).
Proof.
  eexists. split; [vm_compute; reflexivity|].
  refine (proj1 (proj2 (join_pairs_rows_of_the_same_district
                          (load_cpc_votes sheet)
                          (Analysis.fetch_demographics records) _ _ _))).
  - apply (bool_decide_unpack _). vm_compute. exact I.
  - vm_compute. reflexivity.
Defined.

(** Every value in a dict of the full sweep is a number. *)
Lemma all_values_are_numbers records id :
  Forall (fun kv => is_Some (snd kv))
    (default [] (od_get (fold_left All.add_record records []) id)).
Proof.
  induction records as [|rec records IH] using rev_ind; [constructor|].
  rewrite fold_left_app. cbn [fold_left]. rewrite all_add_record_get.
  destruct (decide (dg_constituency_id rec = id)); [|exact IH].
  cbn [from_option Datatypes.id].
  destruct (All.rate_of (dg_values rec)) as [rate|]; [|exact IH].
  apply Forall_forall. intros [k v] Hkv.
  apply od_elem_of_set in Hkv as [[-> ->]|Hkv]; [simpl; eauto|].
  rewrite Forall_forall in IH. apply (IH _ Hkv).
Qed.

Lemma vote_columns_not_demo col :
  col ∈ vote_columns -> String.prefix "demo_" col = false.
Proof.
  unfold vote_columns. rewrite !elem_of_cons.
  intros H. repeat (destruct H as [->|H]; [reflexivity|]). inversion H.
Qed.

Lemma demo_prefix char_id : String.prefix "demo_" (demo_ char_id) = true.
Proof. unfold demo_. simpl. destruct char_id; reflexivity. Qed.

(** X10.  The columns that the full sweep analyses are exactly the attributes
    for which some record supplies a rate. *)
Theorem sweep_columns_are_the_supplied_attributes
  (cpc_df : list SheetRow) (categories : list CategoryRow)
  (records : list DemoRecord) (merged : Joined) (col : string) :
  merge cpc_df (fst (fetch_all_demographics categories records)) = Ok merged ->
  col ∈ demo_cols merged <-> exists id q, supplies records id col q.
Proof.
  intros Hm. unfold demo_cols. rewrite list_elem_of_filter. split.
  - intros [Hprefix Hcol].
    pose proof (merge_rows _ _ _ Hm) as [Hcols _]. rewrite Hcols in Hcol.
    apply elem_of_app in Hcol as [Hcol|Hcol].
    { apply vote_columns_not_demo in Hcol. congruence. }
    apply elem_of_union_keys in Hcol as [Hcol|(id & inner & Hin & Hk)];
      [inversion Hcol|].
    exists id. cbn [fst fetch_all_demographics] in Hin.
    pose proof (frame_row_get _ _ _ _ all_add_record_keys Hin) as Hget.
    pose proof (all_values_are_numbers records id) as Hnum.
    rewrite Hget in Hnum. cbn [from_option Datatypes.id] in Hnum.
    apply od_mem_keys in Hk. unfold od_mem in Hk.
    destruct (od_get inner col) as [v|] eqn:Ev; [|discriminate].
    rewrite Forall_forall in Hnum.
    destruct (Hnum _ (od_get_elem_of _ _ _ Ev)) as [q Hq]. simpl in Hq.
    subst v. exists q. apply (all_cell_supplied categories _ _ inner).
    + exact Hin.
    + unfold cell. rewrite Ev. reflexivity.
  - intros (id & q & rec & Hin & _ & <- & Hrate).
    split; [apply demo_prefix|].
    eapply all_column_exists; eauto.
Qed.

Lemma sweep_columns_are_the_supplied_attributes_witness :
  exists merged,
    merge (load_cpc_votes sheet) (fst (fetch_all_demographics [] records))
    = Ok merged /\
    ("demo_2256" ∈ demo_cols merged
     <-> exists id q, supplies records id "demo_2256" q).
Proof.
  eexists. split; [vm_compute; reflexivity|].
  apply (sweep_columns_are_the_supplied_attributes
           (load_cpc_votes sheet) [] records).
  vm_compute. reflexivity.
Defined.

End JoinContent.

(** ** The pipeline of [all.py], from the sources to the records *)

Module PipelineFacts.
Import OdictFacts JoinFacts JoinContent All AllFacts Samples MoreSamples.

Local Open Scope nat_scope.

Lemma valid_data_with_targets (merged_df : Joined) (col : string) :
  Forall (fun row => is_Some (cpc_change_21_25 (vote row))) (rows merged_df) ->
  length (valid_data merged_df col)
  = length (filter (fun row => is_Some (cell (demo row) col))
              (rows merged_df)).
Proof.
  unfold valid_data. induction 1 as [|row l [y Hy] _ IH]; [reflexivity|].
  cbn [omap list_omap]. rewrite filter_cons. unfold valid_pair at 1.
  rewrite Hy. destruct (cell (demo row) col) as [x|].
  - rewrite decide_True by eauto. simpl. rewrite IH. reflexivity.
  - rewrite decide_False by (intros [? ?]; discriminate). exact IH.
Qed.

(** X11.  In a run of the pipeline every joined row has its vote change, so the
    sample size of a record is the number of joined districts that have
    a value for the attribute; it is at least 30 and at most the number
    of districts loaded from the spreadsheet. *)
Theorem pipeline_sample_size_counts_districts
  (pearsonr : list Q -> list Q -> Q * Q)
  (excel_file : list SheetRow) (categories : list CategoryRow)
  (records : list DemoRecord)
  (merged : Joined) (results : list CorrelationResult) :
  pipeline pearsonr excel_file categories records = Ok (merged, results) ->
  (forall row, row ∈ rows merged -> is_Some (cpc_change_21_25 (vote row))) /\
  length (rows merged) <= length (load_cpc_votes excel_file) /\
  forall res, res ∈ results ->
    exists col,
      col ∈ demo_cols merged /\
      characteristics_id res = replace_demo col /\
      sample_size res
      = length (filter (fun row => is_Some (cell (demo row) col))
                  (rows merged)) /\
      30 <= sample_size res <= length (rows merged).
Proof.
  unfold pipeline. cbn [fetch_all_demographics].
  destruct (merge (load_cpc_votes excel_file)
              (fold_left add_record records [])) as [merged'|e] eqn:Hm;
    [|discriminate].
  cbn [bind].
  destruct (calculate_all_correlations pearsonr merged'
              (build_category_info categories)) as [results'|e] eqn:Hrun;
    [|discriminate].
  cbn [bind]. intros [= <- <-].
  assert (Htargets : forall row, row ∈ rows merged' ->
                       is_Some (cpc_change_21_25 (vote row))).
  { intros row Hrow. apply (merge_row_elem _ _ _ _ Hm) in Hrow as [Hv _].
    unfold load_cpc_votes in Hv. apply list_elem_of_filter in Hv as [Hv _].
    destruct (cpc_change_21_25 (vote row)); [eauto | discriminate]. }
  split; [exact Htargets|]. split.
  { assert (Hnd : NoDup (map fst (fold_left add_record records [])))
      by (apply (fold_keys_NoDup _ all_add_record_keys); constructor).
    pose proof (merge_ids _ _ _ Hnd Hm) as Hids.
    apply (f_equal length) in Hids. rewrite length_map in Hids.
    rewrite Hids. etransitivity; [apply length_filter|].
    rewrite length_map. reflexivity. }
  intros res Hin.
  apply (elem_of_calculate_all_correlations _ _ _ _ res Hrun) in Hin
    as (col & Hcol & Hres).
  apply analyze_column_Some in Hres. cbv zeta in Hres.
  destruct Hres as (Hlen & _ & Hid & _ & _ & _ & _ & _ & Hn).
  exists col. split; [exact Hcol|]. split; [exact Hid|].
  rewrite Hn.
  rewrite valid_data_with_targets in *
    by (apply Forall_forall; exact Htargets).
  split; [reflexivity|]. split; [exact Hlen | apply length_filter].
Qed.

Lemma pipeline_sample_size_counts_districts_witness :
  exists merged,
    pipeline collinear_pearsonr (wide_sheet 40) [] (wide_records 35)
    = Ok (merged, [ {| characteristics_id := "2255"; category_l1 := "";
                       subcategory_l2 := ""; subsubcategory_l3 := "";
                       pearson_r := 1; p_value := 0; significant := "Yes";
                       correlation_strength := "Strong"; r_squared := 1;
                       sample_size := 35; direction := "Positive" |} ]) /\
    length (rows merged) <= length (load_cpc_votes (wide_sheet 40)).
Proof.
  eexists. split; [vm_compute; reflexivity|].
  refine (proj1 (proj2 (pipeline_sample_size_counts_districts
                          collinear_pearsonr (wide_sheet 40) []
                          (wide_records 35) _ _ _))).
  vm_compute. reflexivity.
Defined.

End PipelineFacts.

(** ** The focused engines *)

Module FocusedFacts.
Import NumFacts Rounding Wording Samples.

Local Open Scope nat_scope.

Section Engine.

Variable pearsonr : list Q -> list Q -> Q * Q.
Variable spearmanr : list Q -> list Q -> Q * Q.

Lemma analysis_category_cases merged_df char_id label :
  if passes_focused merged_df char_id
  then exists res,
         Analysis.analyze_category pearsonr spearmanr merged_df
           (char_id, label) = Some res
         /\ Analysis.f_characteristics_id res = char_id
         /\ Analysis.f_category res = label
         /\ Analysis.f_n res = length (valid_data merged_df (demo_ char_id))
  else Analysis.analyze_category pearsonr spearmanr merged_df (char_id, label)
       = None.
Proof.
  unfold passes_focused, Analysis.analyze_category.
  destruct (bool_decide (demo_ char_id ∈ columns merged_df));
    cbn [andb negb]; [|reflexivity].
  destruct (10 <=? length (valid_data merged_df (demo_ char_id))) eqn:E.
  - apply Nat.leb_le in E. apply Nat.ltb_ge in E. rewrite E.
    destruct (pearsonr _ _) as [r p]. destruct (spearmanr _ _) as [rho ps].
    eexists. split; [reflexivity|]. simpl. auto.
  - apply Nat.leb_gt in E. apply Nat.ltb_lt in E. rewrite E. reflexivity.
Qed.

Lemma scripts_category_cases merged_df char_id info :
  if passes_focused merged_df char_id
  then exists res,
         ScriptsAnalysis.analyze_category pearsonr spearmanr merged_df
           (char_id, info) = Some res
         /\ ScriptsAnalysis.f_characteristics_id res = char_id
         /\ ScriptsAnalysis.f_n res
            = length (valid_data merged_df (demo_ char_id))
  else ScriptsAnalysis.analyze_category pearsonr spearmanr merged_df
         (char_id, info) = None.
Proof.
  unfold passes_focused, ScriptsAnalysis.analyze_category.
  destruct info;
    (destruct (bool_decide (demo_ char_id ∈ columns merged_df));
       cbn [andb negb]; [|reflexivity];
     destruct (10 <=? length (valid_data merged_df (demo_ char_id))) eqn:E;
       [ apply Nat.leb_le in E; apply Nat.ltb_ge in E; rewrite E;
         destruct (pearsonr _ _) as [r p];
         destruct (spearmanr _ _) as [rho ps]; eexists;
         split; [reflexivity|]; simpl; auto
       | apply Nat.leb_gt in E; apply Nat.ltb_lt in E; rewrite E;
         reflexivity ]).
Qed.

(** X12.  The focused engines give one record per listed attribute that has a
    column and at least ten valid rows, in the order of the listing and
    with that count as its [n]; an attribute that fails either test is
    left out, and nothing else is tested. *)
Theorem focused_records_follow_the_listing
  (merged_df : Joined) (demo_categories_dict : odict string
                                                 ScriptsAnalysis.cat_info) :
  let passes char_id := passes_focused merged_df char_id = true in
  let results :=
    Analysis.calculate_correlations pearsonr spearmanr merged_df in
  let scripts_results :=
    ScriptsAnalysis.calculate_correlations pearsonr spearmanr merged_df
      demo_categories_dict in
  map Analysis.f_characteristics_id results
  = filter passes ["2255"; "2256"; "2257"; "2258"] /\
  Forall (fun res =>
            Analysis.f_n res
            = length (valid_data merged_df
                        (demo_ (Analysis.f_characteristics_id res)))
            /\ od_get Analysis.DEMO_CATEGORIES
                 (Analysis.f_characteristics_id res)
               = Some (Analysis.f_category res)) results /\
  map ScriptsAnalysis.f_characteristics_id scripts_results
  = filter passes (od_keys demo_categories_dict) /\
  Forall (fun res =>
            ScriptsAnalysis.f_n res
            = length (valid_data merged_df
                        (demo_ (ScriptsAnalysis.f_characteristics_id res))))
    scripts_results.
Proof.
  cbv zeta. split; [|split; [|split]].
  - unfold Analysis.calculate_correlations, Analysis.DEMO_CATEGORIES.
    cbn [omap list_omap]. rewrite !filter_cons, filter_nil.
    repeat match goal with
    | |- context [Analysis.analyze_category _ _ _ (?c, ?l)] =>
        let H := fresh in
        pose proof (analysis_category_cases merged_df c l) as H;
        destruct (passes_focused merged_df c);
        [ destruct H as (? & -> & <- & _ & _);
          rewrite decide_True by reflexivity
        | rewrite H, decide_False by discriminate ]
    end; reflexivity.
  - unfold Analysis.calculate_correlations. apply Forall_forall.
    intros res Hin. apply list_elem_of_omap in Hin as ([c l] & Hitem & Hres).
    pose proof (analysis_category_cases merged_df c l) as H.
    destruct (passes_focused merged_df c); [|congruence].
    destruct H as (res' & E & Hid & Hlabel & Hn).
    rewrite E in Hres. injection Hres as <-. rewrite Hid, Hn, Hlabel.
    split; [reflexivity|].
    unfold Analysis.DEMO_CATEGORIES in *.
    rewrite !elem_of_cons in Hitem.
    destruct Hitem as [E'|[E'|[E'|[E'|E']]]];
      try (injection E' as -> ->; reflexivity). inversion E'.
  - unfold ScriptsAnalysis.calculate_correlations, od_keys.
    induction demo_categories_dict as [|[c info] d IH]; [reflexivity|].
    cbn [omap list_omap map fst]. rewrite filter_cons.
    pose proof (scripts_category_cases merged_df c info) as H.
    destruct (passes_focused merged_df c).
    + destruct H as (res & -> & <- & _).
      rewrite decide_True by reflexivity. cbn [map]. rewrite IH. reflexivity.
    + rewrite H, decide_False by discriminate. exact IH.
  - unfold ScriptsAnalysis.calculate_correlations. apply Forall_forall.
    intros res Hin. apply list_elem_of_omap in Hin as ([c l] & Hitem & Hres).
    pose proof (scripts_category_cases merged_df c l) as H.
    destruct (passes_focused merged_df c); [|congruence].
    destruct H as (res' & E & Hid & Hn).
    rewrite E in Hres. injection Hres as <-. rewrite Hid, Hn. reflexivity.
Qed.

(** X13.  A star on a chart of the focused report implies that the record is
    flagged significant.  The stars are read off the p-value rounded to
    six decimals, the flag off the p-value itself; rounding can remove a
    star but never add one. *)
Theorem stars_imply_significant
  (merged_df : Joined)
  (demo_categories_dict : odict string ScriptsAnalysis.cat_info)
  (res : ScriptsAnalysis.FocusedResult) :
  res ∈ ScriptsAnalysis.calculate_correlations pearsonr spearmanr merged_df
          demo_categories_dict ->
  stars (ScriptsAnalysis.f_pearson_p res) <> "" ->
  ScriptsAnalysis.f_significant res = true.
Proof.
  unfold ScriptsAnalysis.calculate_correlations. intros Hin Hstars.
  apply list_elem_of_omap in Hin as ([c info] & _ & Hres).
  unfold ScriptsAnalysis.analyze_category in Hres.
  destruct info;
    (destruct (negb _); [discriminate|];
     destruct (_ <? 10); [discriminate|];
     destruct (pearsonr _ _) as [r p]; destruct (spearmanr _ _) as [rho ps];
     injection Hres as <-; simpl in *;
     apply Qlt_bool_iff;
     assert (Hround : (round p 6 < 5 # 100)%Q);
     [ unfold stars in Hstars;
       destruct (Qlt_bool (round p 6) (1 # 1000)) eqn:E1;
         [apply Qlt_bool_iff in E1; lra|];
       destruct (Qlt_bool (round p 6) (1 # 100)) eqn:E2;
         [apply Qlt_bool_iff in E2; lra|];
       destruct (Qlt_bool (round p 6) (5 # 100)) eqn:E3;
         [apply Qlt_bool_iff in E3; exact E3 | congruence]
     | destruct (Qlt_le_dec p (5 # 100)) as [Hlt|Hge]; [exact Hlt|];
       apply (round_mono _ _ 6) in Hge;
       assert (F : (round (5 # 100) 6 == 5 # 100)%Q)
         by (vm_compute; reflexivity);
       lra ]).
Qed.

End Engine.

Lemma stars_imply_significant_witness :
  ScriptsAnalysis.f_significant
    {| ScriptsAnalysis.f_characteristics_id := "2255";
       ScriptsAnalysis.f_category := Some "Sales";
       ScriptsAnalysis.f_subcategory := Some "";
       ScriptsAnalysis.f_subsubcategory := Some "";
       ScriptsAnalysis.f_short_name := "Sales";
       ScriptsAnalysis.f_full_name := "Sales";
       ScriptsAnalysis.f_n := 12;
       ScriptsAnalysis.f_pearson_r := 1;
       ScriptsAnalysis.f_pearson_p := 0;
       ScriptsAnalysis.f_spearman_rho := 1;
       ScriptsAnalysis.f_spearman_p := 0;
       ScriptsAnalysis.f_significant := true |} = true.
Proof.
  apply (stars_imply_significant collinear_pearsonr collinear_pearsonr
           (districts 12 12)
           [("2255", ScriptsAnalysis.CatLabel "Sales")]).
  - vm_compute. left.
  - vm_compute. discriminate.
Defined.

(** The two classifiers agree at one and the same number. *)
Lemma wording_at_same_number (r : Q) :
  (strength_text r = "strong" <-> All.strength_label r = "Strong") /\
  (strength_text r = "moderate" <-> All.strength_label r = "Moderate") /\
  (strength_text r = "weak"
   <-> All.strength_label r = "Weak" \/ All.strength_label r = "Very Weak") /\
  (direction_text r = "positive" <-> All.direction_label r = "Positive") /\
  (direction_text r = "negative" <-> All.direction_label r = "Negative").
Proof.
  unfold strength_text, direction_text, All.strength_label,
    All.direction_label. cbv zeta.
  destruct (Qle_bool (5 # 10) (Qabs r)), (Qle_bool (3 # 10) (Qabs r)),
    (Qle_bool (2 # 10) (Qabs r)), (Qlt_bool 0 r);
    repeat split; intros; try discriminate; try reflexivity; auto;
    try (destruct H; discriminate).
Qed.

Lemma strength_text_spec (r : Q) :
  (strength_text r = "strong" <-> 5 # 10 <= Qabs r)%Q /\
  (strength_text r = "moderate" <-> 3 # 10 <= Qabs r < 5 # 10)%Q /\
  (strength_text r = "weak" <-> Qabs r < 3 # 10)%Q.
Proof.
  unfold strength_text.
  destruct (Qle_bool (5 # 10) (Qabs r)) eqn:E5;
    [apply Qle_bool_iff in E5 | apply Qle_bool_false in E5];
  (destruct (Qle_bool (3 # 10) (Qabs r)) eqn:E3;
    [apply Qle_bool_iff in E3 | apply Qle_bool_false in E3]);
  repeat split; intros; try discriminate; try lra; try reflexivity.
Qed.

Lemma abs_round4_close (r : Q) :
  (Qabs (round r 4) - (5 # 100000) <= Qabs r)%Q.
Proof.
  pose proof (round_error r 4) as He.
  assert (E : ((1 # 2) / inject_Z (10 ^ Z.of_nat 4) == 5 # 100000)%Q)
    by (vm_compute; reflexivity).
  rewrite E in He. apply Qabs_Qle_condition in He as [H1 H2].
  destruct (Qlt_le_dec r 0), (Qlt_le_dec (round r 4) 0);
    repeat first [rewrite (Qabs_neg r) by lra
                 | rewrite (Qabs_pos r) by lra
                 | rewrite (Qabs_neg (round r 4)) by lra
                 | rewrite (Qabs_pos (round r 4)) by lra]; lra.
Qed.

(** X14.  [analysis.py] words the coefficient that [pearsonr] returned,
    and its wording agrees with the labels that the full sweep gives to
    the same coefficient: "strong" with "Strong", "moderate" with
    "Moderate", "weak" with "Weak" and "Very Weak", "positive" with
    "Positive".  [scripts/analysis.py] words the stored coefficient,
    rounded to four decimals: its wording is that of the label or, only
    for a coefficient within 0.00005 of a threshold, the next stronger
    one, and "negative" under the label "Positive" only for a
    coefficient of at most 0.00005.  Such a case exists: 0.49996 is
    labelled "Moderate" and stored as 0.5, which is worded "strong". *)
Theorem wording_agrees_with_labels (r : Q) :
  let stored := round r 4 in
  ((strength_text r = "strong" <-> All.strength_label r = "Strong") /\
   (strength_text r = "moderate" <-> All.strength_label r = "Moderate") /\
   (strength_text r = "weak"
    <-> All.strength_label r = "Weak" \/ All.strength_label r = "Very Weak")
   /\
   (direction_text r = "positive" <-> All.direction_label r = "Positive") /\
   (direction_text r = "negative" <-> All.direction_label r = "Negative")) /\
  (All.strength_label r = "Strong" -> strength_text stored = "strong") /\
  (All.strength_label r = "Moderate" ->
   strength_text stored = "moderate"
   \/ (strength_text stored = "strong" /\ 49995 # 100000 <= Qabs r)%Q) /\
  (All.strength_label r = "Weak" \/ All.strength_label r = "Very Weak" ->
   strength_text stored = "weak"
   \/ (strength_text stored = "moderate" /\ 29995 # 100000 <= Qabs r)%Q) /\
  (All.direction_label r = "Negative" -> direction_text stored = "negative") /\
  (All.direction_label r = "Positive" ->
   direction_text stored = "positive"
   \/ (direction_text stored = "negative" /\ r <= 5 # 100000)%Q) /\
  (All.strength_label (49996 # 100000) = "Moderate"
   /\ strength_text (round (49996 # 100000) 4) = "strong").
Proof.
  cbv zeta. split; [apply wording_at_same_number|].
  destruct (AllFacts.strength_label_spec r) as (S1 & S2 & S3 & S4).
  destruct (AllFacts.direction_label_spec r) as (D1 & D2).
  destruct (strength_text_spec (round r 4)) as (T1 & T2 & T3).
  pose proof (abs_round4_close r) as Hclose.
  assert (F5 : (round (5 # 10) 4 == 5 # 10)%Q) by (vm_compute; reflexivity).
  assert (F5' : (round (- (5 # 10)) 4 == - (5 # 10))%Q)
    by (vm_compute; reflexivity).
  assert (F3 : (round (3 # 10) 4 == 3 # 10)%Q) by (vm_compute; reflexivity).
  assert (F3' : (round (- (3 # 10)) 4 == - (3 # 10))%Q)
    by (vm_compute; reflexivity).
  assert (F0 : (round 0 4 == 0)%Q) by (vm_compute; reflexivity).
  pose proof (StoredCoefficient.round4_abs_ge (5 # 10) r F5 F5') as G5.
  pose proof (StoredCoefficient.round4_abs_ge (3 # 10) r F3 F3') as G3.
  pose proof (StoredCoefficient.round4_abs_le (5 # 10) r F5 F5') as L5.
  pose proof (StoredCoefficient.round4_abs_le (3 # 10) r F3 F3') as L3.
  destruct (StoredCoefficient.round4_keeps_side 0 r F0) as [Hup Hdown].
  split; [intros H; apply T1, G5, S1, H|].
  split.
  { intros H. apply S2 in H as [Hlo Hhi].
    assert (H3 : (3 # 10 <= Qabs (round r 4))%Q) by (apply G3; exact Hlo).
    destruct (Qlt_le_dec (Qabs (round r 4)) (5 # 10)) as [Hlt|Hge].
    - left. apply T2. split; assumption.
    - right. split; [apply T1; exact Hge | lra]. }
  split.
  { intros H.
    assert (Hlt : (Qabs r < 3 # 10)%Q).
    { destruct H as [H|H]; [apply S3 in H | apply S4 in H]; lra. }
    assert (H5 : (Qabs (round r 4) <= 3 # 10)%Q) by (apply L3; lra).
    destruct (Qlt_le_dec (Qabs (round r 4)) (3 # 10)) as [Hlt'|Hge].
    - left. apply T3. exact Hlt'.
    - right. split; [apply T2; split; lra | lra]. }
  split.
  { intros H. apply D2 in H.
    assert (Hle : (round r 4 <= 0)%Q) by (apply Hdown; lra).
    unfold direction_text.
    destruct (Qlt_bool 0 (round r 4)) eqn:E; [|reflexivity].
    apply Qlt_bool_iff in E. lra. }
  split.
  { intros H. apply D1 in H. unfold direction_text.
    destruct (Qlt_bool 0 (round r 4)) eqn:E; [left; reflexivity|].
    right. split; [reflexivity|].
    assert (Hle : (round r 4 <= 0)%Q)
      by (destruct (Qlt_le_dec 0 (round r 4)) as [Hgt|]; [|assumption];
          apply Qlt_bool_iff in Hgt; congruence).
    pose proof (round_error r 4) as He.
    assert (Ee : ((1 # 2) / inject_Z (10 ^ Z.of_nat 4) == 5 # 100000)%Q)
      by (vm_compute; reflexivity).
    rewrite Ee in He. apply Qabs_Qle_condition in He as [H1 H2]. lra. }
  split; vm_compute; reflexivity.
Qed.

End FocusedFacts.

(** * The scripts' views: category names, the top and bottom chart, and
      the label helpers of [scripts/analysis.py] *)

Module ScriptsViewsFacts.
Import OdictFacts ScriptsAnalysis ScriptsViews ReportViews.

Local Open Scope nat_scope.

Lemma string_app_assoc (a b c : string) :
  ((a ++ b) ++ c)%string = (a ++ b ++ c)%string.
Proof.
  induction a as [|x a IH]; [reflexivity|].
  change (String x ((a ++ b) ++ c) = String x (a ++ b ++ c))%string.
  f_equal. exact IH.
Qed.

Lemma join_snoc (sep : string) (parts : list string) (p : string) :
  exists prefix, join sep (parts ++ [p]) = (prefix ++ p)%string.
Proof.
  induction parts as [|q parts IH].
  - exists ""%string. reflexivity.
  - destruct IH as [prefix IH].
    exists (q ++ sep ++ prefix)%string.
    change ((q :: parts) ++ [p])%list with (q :: (parts ++ [p]))%list.
    destruct (parts ++ [p])%list as [|x rest] eqn:E.
    + destruct parts; discriminate.
    + change (join sep (q :: x :: rest))
        with (q ++ sep ++ join sep (x :: rest))%string.
      rewrite IH. rewrite !string_app_assoc. reflexivity.
Qed.

Lemma full_name_ends_with_last cat subcat subsubcat :
  exists prefix,
    full_name_of cat subcat subsubcat
    = (prefix ++ default "Unknown"%string
                   (last (name_parts cat subcat subsubcat)))%string.
Proof.
  unfold full_name_of.
  destruct (name_parts cat subcat subsubcat) as [|p parts] eqn:E.
  - exists ""%string. reflexivity.
  - destruct (exists_last (l := p :: parts)) as [front [x Hx]];
      [discriminate|].
    rewrite Hx, last_snoc. cbn [default from_option Datatypes.id].
    destruct (join_snoc " → " front x) as [prefix Hj].
    exists prefix.
    destruct (front ++ [x])%list as [|y rest] eqn:E'.
    + destruct front; discriminate.
    + exact Hj.
Qed.

Lemma short_name_is_last cat subcat subsubcat :
  short_name_of cat subcat subsubcat
  = default "Unknown"%string (last (name_parts cat subcat subsubcat)).
Proof.
  unfold short_name_of, or_label, name_parts, label_truthy.
  destruct cat as [c|], subcat as [s|], subsubcat as [t|];
    cbn [omap list_omap];
    repeat case_bool_decide; cbn [negb omap list_omap mbind option_bind];
    reflexivity.
Qed.

Lemma fetch_categories_snoc rows row :
  fetch_all_demographic_categories (rows ++ [row])
  = (let '(char_id, cat, subcat, subsubcat) := row in
     od_set (fetch_all_demographic_categories rows) char_id
       (CatDict cat subcat subsubcat
          (full_name_of cat subcat subsubcat)
          (short_name_of cat subcat subsubcat))).
Proof.
  unfold fetch_all_demographic_categories.
  rewrite fold_left_app. reflexivity.
Qed.

(** X15.  In the dictionary of categories, an attribute id has an entry
    exactly when the query returned a row for it; the entry is built from
    the last such row, its short name is the deepest level that is neither
    null nor empty (["Unknown"] when there is none), and its full name
    ends with the short name. *)
Theorem category_entry_names (rows : list CategoryRow) (char_id : string) :
  match od_get (fetch_all_demographic_categories rows) char_id with
  | Some info =>
      exists before after cat subcat subsubcat prefix,
        rows = (before ++ (char_id, cat, subcat, subsubcat) :: after)%list
        /\ Forall (fun row => row.1.1.1 <> char_id) after
        /\ info = CatDict cat subcat subsubcat
                    (full_name_of cat subcat subsubcat)
                    (short_name_of cat subcat subsubcat)
        /\ short_name_of cat subcat subsubcat
           = default "Unknown"%string
               (last (name_parts cat subcat subsubcat))
        /\ Forall (fun p => p <> ""%string)
             (name_parts cat subcat subsubcat)
        /\ full_name_of cat subcat subsubcat
           = (prefix ++ short_name_of cat subcat subsubcat)%string
  | None => Forall (fun row => row.1.1.1 <> char_id) rows
  end.
Proof.
  induction rows as [|row rows IH] using rev_ind.
  - constructor.
  - rewrite fetch_categories_snoc.
    destruct row as [[[id cat] subcat] subsubcat].
    destruct (decide (id = char_id)) as [->|Hne].
    + rewrite od_get_set_eq.
      destruct (full_name_ends_with_last cat subcat subsubcat)
        as [prefix Hp].
      exists rows, [], cat, subcat, subsubcat, prefix.
      repeat split.
      * constructor.
      * apply short_name_is_last.
      * unfold name_parts, label_truthy.
        destruct cat as [c|], subcat as [s|], subsubcat as [t|];
          cbn [omap list_omap];
          repeat case_bool_decide;
          cbn [negb omap list_omap mbind option_bind];
          repeat constructor; assumption.
      * rewrite short_name_is_last. exact Hp.
    + rewrite od_get_set_ne by exact Hne.
      destruct (od_get (fetch_all_demographic_categories rows) char_id)
        as [info|].
      * destruct IH as
          (before & after & c & s & t & prefix & -> & Hafter & Hrest).
        exists before, (after ++ [(id, cat, subcat, subsubcat)])%list,
          c, s, t, prefix.
        split; [now rewrite <- app_assoc|].
        split; [|exact Hrest].
        apply Forall_app. split; [exact Hafter|].
        repeat constructor. exact Hne.
      * apply Forall_app. split; [exact IH|].
        repeat constructor. exact Hne.
Qed.


#[local] Instance by_pearson_r_descending_total :
  Total by_pearson_r_descending.
Proof.
  intros a b. unfold by_pearson_r_descending.
  destruct (Qlt_le_dec (f_pearson_r a) (f_pearson_r b)) as [H|H].
  - right. apply Qlt_le_weak. exact H.
  - left. exact H.
Qed.

#[local] Instance by_pearson_r_descending_trans :
  Transitive by_pearson_r_descending.
Proof.
  intros a b c Hab Hbc. unfold by_pearson_r_descending in *.
  eapply Qle_trans; eassumption.
Qed.


Section Text.

Context {C : Type} `{EqDecision C}.
Variable isalnum : C -> bool.
Variables dot space underscore hyphen : C.

Local Abbreviation kept := (kept isalnum space underscore hyphen).
Local Abbreviation safe_label := (safe_label isalnum space underscore hyphen).

Lemma kept_spec (c : C) :
  isalnum c || bool_decide (c ∈ [space; underscore; hyphen]) = true
  <-> kept c.
Proof.
  unfold ScriptsViews.kept.
  rewrite orb_true_iff, bool_decide_eq_true. reflexivity.
Qed.

Lemma underscore_kept : kept underscore.
Proof. right. set_solver. Qed.

Local Abbreviation truncate_label := (truncate_label dot).

(** X17.  A label cut for a chart or a title is never longer than the
    limit (of at least three characters): a label within the limit is
    left as it is, a longer one keeps its first [limit - 3] characters,
    ends with three dots and is exactly [limit] characters long. *)
Theorem truncated_label_fits (limit : nat) (label : list C)
  (Hlimit : 3 <= limit) :
  length (truncate_label limit label) <= limit
  /\ (length label <= limit -> truncate_label limit label = label)
  /\ (limit < length label ->
        length (truncate_label limit label) = limit
        /\ take (limit - 3) (truncate_label limit label)
           = take (limit - 3) label
        /\ drop (limit - 3) (truncate_label limit label)
           = [dot; dot; dot]).
Proof.
  unfold ScriptsViews.truncate_label.
  destruct (Nat.ltb_spec limit (length label)) as [Hlong|Hshort].
  - assert (Hl : length (take (limit - 3) label) = limit - 3)
      by (rewrite length_take; lia).
    split; [rewrite length_app, Hl; simpl; lia|].
    split; [lia|]. intros _.
    split; [rewrite length_app, Hl; simpl; lia|].
    split.
    + rewrite take_app_le by lia. rewrite take_take.
      f_equal. lia.
    + rewrite drop_app_ge by lia. rewrite Hl.
      replace (limit - 3 - (limit - 3)) with 0 by lia. reflexivity.
  - split; [exact Hshort|]. split; [reflexivity|]. lia.
Qed.

(** X18.  The file-name form of a label has the length of the label, at
    most 30; each of its characters is alphanumeric, a space, an
    underscore or a hyphen; among the first 30 characters the ones of that
    kind stay in place and every other one becomes an underscore; cleaning
    twice changes nothing more. *)
Theorem safe_label_is_clean (label : list C) :
  length (safe_label label) = min 30 (length label)
  /\ Forall kept (safe_label label)
  /\ (forall i c, label !! i = Some c -> i < 30 ->
        (kept c -> safe_label label !! i = Some c)
        /\ (~ kept c -> safe_label label !! i = Some underscore))
  /\ (forall i, 30 <= i -> safe_label label !! i = None)
  /\ safe_label (safe_label label) = safe_label label.
Proof.
  assert (Hkept : Forall kept (safe_label label)).
  { unfold ScriptsViews.safe_label. apply Forall_forall. intros c Hc.
    apply list_elem_of_fmap in Hc as (c0 & -> & _).
    destruct (isalnum c0 || bool_decide (c0 ∈ [space; underscore; hyphen]))
      eqn:E.
    - apply kept_spec. exact E.
    - apply underscore_kept. }
  assert (Hlen : length (safe_label label) = min 30 (length label)).
  { unfold ScriptsViews.safe_label. rewrite length_map, length_take.
    reflexivity. }
  split; [exact Hlen|]. split; [exact Hkept|].
  split.
  { intros i c Hi Hlt. unfold ScriptsViews.safe_label.
    change (map ?f ?l) with (f <$> l).
    rewrite list_lookup_fmap, lookup_take_lt, Hi by exact Hlt.
    cbn [fmap option_fmap option_map].
    split; intros Hc.
    - apply kept_spec in Hc. rewrite Hc. reflexivity.
    - destruct (isalnum c || bool_decide (c ∈ [space; underscore; hyphen]))
        eqn:E; [|reflexivity].
      apply kept_spec in E. contradiction. }
  split.
  { intros i Hi. apply lookup_ge_None. lia. }
  unfold ScriptsViews.safe_label at 1.
  rewrite take_ge by lia. clear Hlen.
  induction (safe_label label) as [|c l IH]; [reflexivity|].
  apply Forall_cons in Hkept as [Hc Hl].
  cbn [map]. rewrite IH by exact Hl.
  apply kept_spec in Hc. rewrite Hc. reflexivity.
Qed.

End Text.

Lemma truncated_label_fits_witness :
  let label := replicate 60 "a"%char in
  3 <= 50
  /\ length (truncate_label "."%char 50 label) = 50
  /\ drop 47 (truncate_label "."%char 50 label)
     = ["."%char; "."%char; "."%char].
Proof.
  cbv zeta.
  destruct (truncated_label_fits "."%char 50 (replicate 60 "a"%char))
    as (_ & _ & Hlong); [lia|].
  destruct Hlong as (Hlen & _ & Hdots); [vm_compute; lia|].
  split; [lia|]. split; [exact Hlen | exact Hdots].
Defined.

End ScriptsViewsFacts.

(** * The extractor: what a sheet row holds *)

Module ExtractMore.
Import NumFacts Rounding ExtractVotes ExtractFacts ExtractSummary Samples.

Local Open Scope Z_scope.

Lemma round_half_even_Z (z : Z) : round_half_even (inject_Z z) = z.
Proof.
  unfold round_half_even. rewrite Qfloor_Z.
  destruct (Qcompare_spec (inject_Z z - inject_Z z) (1 # 2)) as [E|L|G];
    [exfalso; lra | reflexivity | exfalso; lra].
Qed.

(** A number with [ndigits] decimals is left alone by [round]. *)
Lemma round_fixed (k : Z) (ndigits : nat) :
  (round (inject_Z k / inject_Z (10 ^ Z.of_nat ndigits)) ndigits
   == inject_Z k / inject_Z (10 ^ Z.of_nat ndigits))%Q.
Proof.
  rewrite round_eq. pose proof (scale_pos ndigits) as Hs.
  set (s := inject_Z (10 ^ Z.of_nat ndigits)) in *.
  rewrite (round_half_even_comp (inject_Z k / s * s) (inject_Z k))
    by (field; lra).
  rewrite round_half_even_Z. reflexivity.
Qed.

Lemma entry_pct_two_decimals (row : ResultRow) :
  exists k : Z, (cpc_percentage (entry_of row) == inject_Z k / 100)%Q.
Proof.
  unfold entry_of. destruct (extract_cpc (er_party_results row)) as [v q].
  cbn [cpc_percentage]. eexists. apply (round_eq q 2).
Qed.

Lemma round_difference_exact (a b : Q) (ka kb : Z) :
  (a == inject_Z ka / 100 -> b == inject_Z kb / 100 ->
   round (b - a) 2 == b - a)%Q.
Proof.
  intros Ea Eb.
  assert (E : (b - a == inject_Z (kb - ka) / 100)%Q).
  { rewrite Ea, Eb. unfold Z.sub. rewrite inject_Z_plus, inject_Z_opp.
    field. }
  rewrite (round_comp _ _ 2 E), E. apply (round_fixed (kb - ka) 2).
Qed.

Lemma filter_first {A} (P : A -> Prop) `{forall x, Decision (P x)}
  (l : list A) (x : A) (rest : list A) :
  filter P l = x :: rest ->
  exists before after,
    l = (before ++ x :: after)%list /\ Forall (fun y => ~ P y) before /\ P x.
Proof.
  induction l as [|y l IH]; [discriminate|].
  rewrite filter_cons. destruct (decide (P y)) as [Hy|Hy].
  - intros [= -> _]. exists [], l. auto.
  - intros E. destruct (IH E) as (before & after & -> & Hb & Hx).
    exists (y :: before), after. auto.
Qed.

Lemma process_row_lookup data row id :
  match data !! id with
  | Some d =>
      exists d', process_row data row !! id = Some d'
                 /\ metadata d' = metadata d
  | None =>
      if decide (er_constituency_id row = id)
      then exists d', process_row data row !! id = Some d'
                      /\ metadata d' = row_metadata row
      else process_row data row !! id = None
  end.
Proof.
  unfold process_row. cbv zeta.
  set (data' := match data !! er_constituency_id row with
                | Some _ => data
                | None => <[er_constituency_id row := fresh_entry row]> data
                end).
  assert (Hdata' : match data !! id with
                   | Some d => data' !! id = Some d
                   | None =>
                       if decide (er_constituency_id row = id)
                       then data' !! id = Some (fresh_entry row)
                       else data' !! id = None
                   end).
  { unfold data'.
    destruct (decide (er_constituency_id row = id)) as [<-|Hne].
    - destruct (data !! er_constituency_id row) as [d0|] eqn:E0;
        [exact E0 | apply lookup_insert_eq].
    - destruct (data !! er_constituency_id row) as [d0|] eqn:E0.
      + destruct (data !! id) as [d|] eqn:E; reflexivity.
      + rewrite lookup_insert_ne by exact Hne.
        destruct (data !! id) as [d|] eqn:E; reflexivity. }
  assert (Halter : forall d,
             data' !! id = Some d ->
             exists d',
               alter (set_election (er_election_year row) (entry_of row))
                 (er_constituency_id row) data' !! id = Some d'
               /\ metadata d' = metadata d).
  { intros d Hd. destruct (decide (er_constituency_id row = id)) as [<-|Hne].
    - rewrite lookup_alter_eq, Hd. simpl. eauto.
    - rewrite lookup_alter_ne by exact Hne. eauto. }
  assert (Hnone : data' !! id = None ->
             alter (set_election (er_election_year row) (entry_of row))
               (er_constituency_id row) data' !! id = None).
  { intros Hd. destruct (decide (er_constituency_id row = id)) as [<-|Hne].
    - rewrite lookup_alter_eq, Hd. reflexivity.
    - rewrite lookup_alter_ne by exact Hne. exact Hd. }
  assert (Hgoal : forall d,
             data' !! id = Some d ->
             exists d',
               match data' !! er_constituency_id row
                     ≫= (fun data0 => elections data0 !! er_election_year row)
               with
               | Some existing =>
                   if er_rep_order row <=? rep_order existing then data'
                   else alter (set_election (er_election_year row)
                                 (entry_of row))
                          (er_constituency_id row) data'
               | None =>
                   alter (set_election (er_election_year row) (entry_of row))
                     (er_constituency_id row) data'
               end !! id = Some d'
               /\ metadata d' = metadata d).
  { intros d Hd.
    destruct (data' !! er_constituency_id row
              ≫= (fun data0 => elections data0 !! er_election_year row))
      as [existing|]; [|auto].
    destruct (er_rep_order row <=? rep_order existing); eauto. }
  destruct (data !! id) as [d|].
  - apply Hgoal. exact Hdata'.
  - destruct (decide (er_constituency_id row = id)) as [Heq|Hne].
    + destruct (Hgoal _ Hdata') as (d' & Hd' & Hm).
      exists d'. split; [exact Hd' | exact Hm].
    + destruct (data' !! er_constituency_id row
                ≫= (fun data0 => elections data0 !! er_election_year row))
        as [existing|]; [|auto].
      destruct (er_rep_order row <=? rep_order existing); auto.
Qed.

(** The invariant of the loop for the descriptive fields: they are those
    of the first query row of the constituency. *)
Lemma organize_lookup rows id :
  match filter (fun row => er_constituency_id row = id) rows with
  | [] => organize rows !! id = None
  | first :: _ =>
      exists d, organize rows !! id = Some d
                /\ metadata d = row_metadata first
  end.
Proof.
  induction rows as [|row rows IH] using rev_ind; [reflexivity|].
  rewrite filter_app, organize_snoc.
  pose proof (process_row_lookup (organize rows) row id) as Hstep.
  destruct (filter (fun row => er_constituency_id row = id) rows)
    as [|first rest].
  - rewrite IH in Hstep. rewrite filter_cons, filter_nil.
    destruct (decide (er_constituency_id row = id)); exact Hstep.
  - destruct IH as (d & Hd & Hm). rewrite Hd in Hstep.
    destruct Hstep as (d' & Hd' & Hm').
    exists d'. split; [exact Hd' | congruence].
Qed.

Lemma sheet_rows_ids (constituency_data : gmap Z ConstituencyEntry) :
  map constituency_id (sheet_rows constituency_data)
  = sorted_keys constituency_data.
Proof.
  unfold sheet_rows.
  assert (Hkeys : forall id, id ∈ sorted_keys constituency_data ->
                             is_Some (constituency_data !! id)).
  { intros id Hin. unfold sorted_keys in Hin.
    rewrite merge_sort_Permutation in Hin.
    apply list_elem_of_fmap in Hin as ([id' d] & -> & Hin).
    apply elem_of_map_to_list in Hin. eauto. }
  induction (sorted_keys constituency_data) as [|id ids IH];
    [reflexivity|].
  cbn [omap list_omap].
  destruct (Hkeys id) as [d Hd]; [left|]. rewrite Hd. simpl.
  f_equal. apply IH. intros id' Hin. apply Hkeys. right. exact Hin.
Qed.

Lemma sorted_keys_strict (constituency_data : gmap Z ConstituencyEntry) :
  StronglySorted Z.lt (sorted_keys constituency_data).
Proof.
  assert (Hnd : NoDup (sorted_keys constituency_data)).
  { unfold sorted_keys. rewrite merge_sort_Permutation.
    apply NoDup_fst_map_to_list. }
  assert (Hs : StronglySorted Z.le (sorted_keys constituency_data)).
  { unfold sorted_keys. apply StronglySorted_merge_sort; apply _. }
  induction Hs as [|x l Hl IH Hx]; [constructor|].
  apply NoDup_cons in Hnd as [Hnin Hnd].
  constructor; [apply IH; exact Hnd|].
  rewrite Forall_forall in Hx |- *. intros y Hy.
  specialize (Hx y Hy).
  assert (x <> y) by (intros ->; contradiction). lia.
Qed.

(** X19.  The sheet has exactly one row for each constituency id of the
    query, in strictly ascending order of id; the name, code, province,
    region and subregion of a row are those of the first query row of
    its constituency, whatever record supplies the votes. *)
Theorem sheet_lists_each_constituency_once (rows : list ResultRow) :
  StronglySorted Z.lt
    (map constituency_id (sheet_rows (organize rows)))
  /\ (forall id,
        id ∈ map constituency_id (sheet_rows (organize rows))
        <-> id ∈ map er_constituency_id rows)
  /\ Forall
       (fun r =>
          exists before first after,
            rows = (before ++ first :: after)%list
            /\ er_constituency_id first = constituency_id r
            /\ Forall (fun row => er_constituency_id row <> constituency_id r)
                 before
            /\ sheet_metadata r = row_metadata first)
       (sheet_rows (organize rows)).
Proof.
  split; [rewrite sheet_rows_ids; apply sorted_keys_strict|].
  split.
  - intros id. rewrite sheet_rows_ids. unfold sorted_keys.
    rewrite merge_sort_Permutation.
    pose proof (organize_lookup rows id) as H.
    split.
    + intros Hin. apply list_elem_of_fmap in Hin as ([id' d] & -> & Hin).
      apply elem_of_map_to_list in Hin. simpl in *.
      destruct (filter (fun row => er_constituency_id row = id') rows)
        as [|first rest] eqn:E; [congruence|].
      apply filter_first in E as (before & after & -> & _ & Hid).
      apply list_elem_of_fmap. exists first. split; [auto|].
      apply elem_of_app. right. left.
    + intros Hin. apply list_elem_of_fmap in Hin as (row & -> & Hin).
      destruct (filter (fun row0 => er_constituency_id row0
                                    = er_constituency_id row) rows)
        as [|first rest] eqn:E.
      * assert (Hrow : row ∈ filter (fun row0 => er_constituency_id row0
                                       = er_constituency_id row) rows)
          by (apply list_elem_of_filter; auto).
        rewrite E in Hrow. inversion Hrow.
      * destruct H as (d & Hd & _).
        apply list_elem_of_fmap. exists (er_constituency_id row, d).
        split; [reflexivity|]. apply elem_of_map_to_list. exact Hd.
  - apply Forall_forall. intros r Hr.
    apply elem_of_sheet_rows in Hr as (id & data & Hdata & ->).
    pose proof (organize_lookup rows id) as H.
    destruct (filter (fun row => er_constituency_id row = id) rows)
      as [|first rest] eqn:E; [congruence|].
    destruct H as (d & Hd & Hm). rewrite Hdata in Hd. injection Hd as <-.
    apply filter_first in E as (before & after & -> & Hb & Hid).
    exists before, first, after.
    split; [reflexivity|]. split; [exact Hid|]. split; [exact Hb|].
    exact Hm.
Qed.

Lemma find_first {A} (f : A -> bool) (l : list A) (x : A) :
  List.find f l = Some x ->
  exists before after,
    l = (before ++ x :: after)%list
    /\ Forall (fun y => f y = false) before /\ f x = true.
Proof.
  induction l as [|y l IH]; [discriminate|].
  cbn [List.find]. destruct (f y) eqn:Ey.
  - intros [= ->]. exists [], l. auto.
  - intros E. destruct (IH E) as (before & after & -> & Hb & Hx).
    exists (y :: before), after. auto.
Qed.

Lemma is_cpc_false (p : Party) :
  is_cpc p = false <-> partyCode p <> Some "CPC"%string.
Proof. unfold is_cpc. apply bool_decide_eq_false. Qed.

(** X20.  The entry stored for a query row keeps the row's total votes
    and [rep_order]; its CPC votes and percentage come from the first
    party entry whose code is CPC, the percentage being the share times
    100 to two decimals (off by at most 0.005); without such an entry,
    and without party results, both are 0. *)
Theorem entry_reads_first_cpc_party (row : ResultRow) :
  total_votes (entry_of row) = er_total_votes row
  /\ rep_order (entry_of row) = er_rep_order row
  /\ (exists k : Z, (cpc_percentage (entry_of row) == inject_Z k / 100)%Q)
  /\ match er_party_results row with
     | None =>
         cpc_votes (entry_of row) = 0 /\ cpc_percentage (entry_of row) = 0%Q
     | Some parties =>
         (Forall (fun p => partyCode p <> Some "CPC"%string) parties
          /\ cpc_votes (entry_of row) = 0
          /\ cpc_percentage (entry_of row) = 0%Q)
         \/ exists before p after,
              parties = (before ++ p :: after)%list
              /\ Forall (fun q => partyCode q <> Some "CPC"%string) before
              /\ partyCode p = Some "CPC"%string
              /\ cpc_votes (entry_of row) = default 0 (votes p)
              /\ (Qabs (cpc_percentage (entry_of row)
                        - default 0 (percentage p) * 100) <= 1 # 200)%Q
     end.
Proof.
  split; [unfold entry_of; destruct (extract_cpc _); reflexivity|].
  split; [apply rep_order_entry_of|].
  split; [apply entry_pct_two_decimals|].
  unfold entry_of, extract_cpc.
  destruct (er_party_results row) as [parties|]; [|split; reflexivity].
  destruct (List.find is_cpc parties) as [p|] eqn:E.
  - right. apply find_first in E as (before & after & -> & Hb & Hp).
    exists before, p, after. split; [reflexivity|].
    split; [eapply Forall_impl; [exact Hb|]; intros q; apply is_cpc_false|].
    split; [apply bool_decide_eq_true in Hp; exact Hp|].
    split; [reflexivity|]. cbn [cpc_percentage].
    eapply Qle_trans; [apply round_error|].
    apply Qle_bool_imp_le. reflexivity.
  - left. split; [|split; reflexivity].
    apply Forall_forall. intros q Hq. apply is_cpc_false.
    apply (List.find_none _ _ E). apply list_elem_of_In. exact Hq.
Qed.

Lemma pct_cell_inv rows id data year a :
  organize rows !! id = Some data ->
  pct_cell (pct (elections data) year) = Some a ->
  (~ a == 0)%Q
  /\ is_Some (elections data !! year)
  /\ exists k : Z, (a == inject_Z k / 100)%Q.
Proof.
  intros Hdata. unfold pct_cell.
  destruct (truthy (pct (elections data) year)) eqn:T; [|discriminate].
  intros [= <-].
  split.
  { intros E. apply truthy_false_iff in E. congruence. }
  unfold pct in *.
  destruct (elections data !! year) as [e|] eqn:Ee;
    [|vm_compute in T; discriminate].
  split; [eauto|].
  assert (Hst : stored (organize rows) id year = Some e)
    by (unfold stored; rewrite Hdata; exact Ee).
  apply stored_Some_row in Hst as (row & _ & ->).
  apply entry_pct_two_decimals.
Qed.

Lemma change_of_cells (p q : Q) :
  change p q
  = match pct_cell p, pct_cell q with
    | Some a, Some b => Some (round (b - a) 2)
    | _, _ => None
    end.
Proof.
  unfold change, pct_cell. destruct (truthy p), (truthy q); reflexivity.
Qed.

(** X21.  In every row of the sheet each change cell is determined by the
    two percentage cells of the same row: it is blank when one of them is
    blank and their rounded difference otherwise, and as the percentages
    have two decimals the rounding changes nothing, so the change is
    exactly the difference of the two cells.  A percentage cell that is
    filled is not 0 and stands beside a filled votes cell. *)
Theorem change_cells_match_percentage_cells (rows : list ResultRow) :
  Forall
    (fun r =>
       cpc_change_21_25 r
       = match cpc_pct_2021 r, cpc_pct_2025 r with
         | Some a, Some b => Some (round (b - a) 2)
         | _, _ => None
         end
       /\ cpc_change_19_25 r
          = match cpc_pct_2019 r, cpc_pct_2025 r with
            | Some a, Some b => Some (round (b - a) 2)
            | _, _ => None
            end
       /\ (forall a b, cpc_pct_2021 r = Some a -> cpc_pct_2025 r = Some b ->
             (round (b - a) 2 == b - a)%Q)
       /\ (forall a b, cpc_pct_2019 r = Some a -> cpc_pct_2025 r = Some b ->
             (round (b - a) 2 == b - a)%Q)
       /\ (forall a, cpc_pct_2019 r = Some a ->
             (~ a == 0)%Q /\ is_Some (cpc_votes_2019 r))
       /\ (forall a, cpc_pct_2021 r = Some a ->
             (~ a == 0)%Q /\ is_Some (cpc_votes_2021 r))
       /\ (forall a, cpc_pct_2025 r = Some a ->
             (~ a == 0)%Q /\ is_Some (cpc_votes_2025 r)))
    (sheet_rows (organize rows)).
Proof.
  apply Forall_forall. intros r Hr.
  apply elem_of_sheet_rows in Hr as (id & data & Hdata & ->).
  pose proof (pct_cell_inv rows id data) as Hinv.
  unfold row_data. cbv zeta.
  cbn [cpc_change_21_25 cpc_change_19_25 cpc_pct_2019 cpc_pct_2021
       cpc_pct_2025 cpc_votes_2019 cpc_votes_2021 cpc_votes_2025].
  split; [apply change_of_cells|]. split; [apply change_of_cells|].
  split.
  { intros a b Ha Hb.
    destruct (Hinv _ _ Hdata Ha) as (_ & _ & ka & Eka).
    destruct (Hinv _ _ Hdata Hb) as (_ & _ & kb & Ekb).
    exact (round_difference_exact a b ka kb Eka Ekb). }
  split.
  { intros a b Ha Hb.
    destruct (Hinv _ _ Hdata Ha) as (_ & _ & ka & Eka).
    destruct (Hinv _ _ Hdata Hb) as (_ & _ & kb & Ekb).
    exact (round_difference_exact a b ka kb Eka Ekb). }
  repeat split;
    try (destruct (Hinv _ _ Hdata H) as (Hnz & _ & _); exact Hnz);
    destruct (Hinv _ _ Hdata H) as (_ & [e He] & _);
    rewrite He; eauto.
Qed.

Lemma sheet_rows_Permutation (constituency_data : gmap Z ConstituencyEntry) :
  sheet_rows constituency_data
  ≡ₚ map (fun kv => row_data kv.1 kv.2) (map_to_list constituency_data).
Proof.
  unfold sheet_rows, sorted_keys. rewrite merge_sort_Permutation.
  assert (Hl : forall l : list (Z * ConstituencyEntry),
             (forall kv, kv ∈ l -> constituency_data !! kv.1 = Some kv.2) ->
             omap (fun id => row_data id <$> constituency_data !! id)
               (map fst l)
             = map (fun kv => row_data kv.1 kv.2) l).
  { induction l as [|kv l IH]; intros Hin; [reflexivity|].
    cbn [map omap list_omap]. rewrite (Hin kv) by left. simpl.
    f_equal. apply IH. intros kv' Hkv'. apply Hin. right. exact Hkv'. }
  rewrite Hl; [reflexivity|].
  intros [id d] Hin. apply elem_of_map_to_list in Hin. exact Hin.
Qed.

Lemma length_filter_map {A B} (P : A -> Prop) (Q : B -> Prop)
  `{forall x, Decision (P x)} `{forall y, Decision (Q y)}
  (f : A -> B) (l : list A) :
  (forall x, P x <-> Q (f x)) ->
  length (filter P l) = length (filter Q (map f l)).
Proof.
  intros HPQ. induction l as [|x l IH]; [reflexivity|].
  cbn [map]. rewrite !filter_cons.
  destruct (decide (P x)) as [Hx|Hx], (decide (Q (f x))) as [Hy|Hy];
    simpl; try (rewrite IH; reflexivity);
    exfalso; apply HPQ in Hx || apply HPQ in Hy; contradiction.
Qed.

Lemma length_filter_impl {A} (P Q : A -> Prop)
  `{forall x, Decision (P x)} `{forall y, Decision (Q y)} (l : list A) :
  (forall x, x ∈ l -> P x -> Q x) ->
  (length (filter P l) <= length (filter Q l))%nat.
Proof.
  induction l as [|x l IH]; intros HPQ; [reflexivity|].
  assert (IH' : (length (filter P l) <= length (filter Q l))%nat)
    by (apply IH; intros y Hy; apply HPQ; right; exact Hy).
  rewrite !filter_cons.
  destruct (decide (P x)) as [Hx|Hx], (decide (Q x)) as [Hy|Hy];
    simpl; try lia.
  exfalso. apply Hy, HPQ; [left | exact Hx].
Qed.

Lemma truthy_pct (elections : gmap Z ElectionEntry) (year : Z) :
  truthy (pct elections year) = true -> is_Some (elections !! year).
Proof.
  unfold pct. destruct (elections !! year); [eauto|].
  intros T. vm_compute in T. discriminate.
Qed.

Lemma change_filled_years (elections : gmap Z ElectionEntry) (y1 y2 : Z) :
  is_Some (change (pct elections y1) (pct elections y2)) ->
  is_Some (elections !! y1) /\ is_Some (elections !! y2).
Proof.
  unfold change.
  destruct (truthy (pct elections y1)) eqn:T1,
           (truthy (pct elections y2)) eqn:T2;
    cbn [andb]; intros [c Hc]; try discriminate.
  split; apply truthy_pct; assumption.
Qed.

(** X22.  The count of constituencies with all three elections printed
    at the end is the number of sheet rows whose three votes cells are
    filled; it is at least the number of rows with both change cells
    filled and at most the number of rows, which is the number of
    constituencies. *)
Theorem all_years_count_is_rows_with_votes
  (constituency_data : gmap Z ConstituencyEntry) :
  constituencies_with_all_years constituency_data
  = length (filter (fun r => all_votes_filled r = true)
              (sheet_rows constituency_data))
  /\ (length (filter (fun r => both_changes_filled r = true)
                (sheet_rows constituency_data))
      <= constituencies_with_all_years constituency_data)%nat
  /\ (constituencies_with_all_years constituency_data
      <= length (sheet_rows constituency_data))%nat
  /\ length (sheet_rows constituency_data) = size constituency_data.
Proof.
  assert (Hcount : constituencies_with_all_years constituency_data
                   = length (filter (fun r => all_votes_filled r = true)
                               (sheet_rows constituency_data))).
  { unfold constituencies_with_all_years.
    rewrite sheet_rows_Permutation.
    rewrite <- (length_filter_map
                  (fun kv : Z * ConstituencyEntry =>
                     has_all_years kv.2 = true)
                  (fun c => has_all_years c = true) snd)
      by reflexivity.
    apply length_filter_map. intros [id d].
    unfold has_all_years, all_votes_filled, row_data. cbv zeta.
    cbn [cpc_votes_2019 cpc_votes_2021 cpc_votes_2025 fst snd].
    rewrite !andb_true_iff, !bool_decide_eq_true, !fmap_is_Some.
    reflexivity. }
  split; [exact Hcount|].
  split.
  { rewrite Hcount. apply length_filter_impl. intros r Hr.
    apply elem_of_sheet_rows in Hr as (id & d & _ & ->).
    unfold both_changes_filled, all_votes_filled, row_data. cbv zeta.
    cbn [cpc_votes_2019 cpc_votes_2021 cpc_votes_2025
         cpc_change_21_25 cpc_change_19_25].
    rewrite !andb_true_iff, !bool_decide_eq_true, !fmap_is_Some.
    intros [H21 H19].
    apply change_filled_years in H21 as [? ?].
    apply change_filled_years in H19 as [? ?]. auto. }
  split; [rewrite Hcount; apply length_filter|].
  rewrite sheet_rows_Permutation, length_map. apply length_map_to_list.
Qed.

End ExtractMore.

(** * Column names and attribute ids *)

Module ColumnNames.

Lemma replace_demo_other (c : ascii) (rest : string) :
  c <> "d"%char ->
  replace_demo (String c rest) = String c (replace_demo rest).
Proof.
  intros Hc.
  destruct c as [[] [] [] [] [] [] [] []];
    try reflexivity; exfalso; apply Hc; reflexivity.
Qed.

Lemma replace_demo_without_d (s : string) :
  "d"%char ∉ list_ascii_of_string s -> replace_demo s = s.
Proof.
  induction s as [|c s IH]; [reflexivity|].
  cbn [list_ascii_of_string]. intros Hd.
  apply not_elem_of_cons in Hd as [Hc Hs].
  rewrite replace_demo_other by congruence.
  rewrite IH by exact Hs. reflexivity.
Qed.

(** X23.  The full sweep names the column of an attribute [demo_] plus
    its id and recovers the id by deleting every [demo_] from the column
    name.  For an id without the letter d, as the numeric ids are, the id
    recovered is the id itself, and its column name is one that the sweep
    picks up; the id made of [demo_] and that id is recovered as the same
    id, so that the two share a key. *)
Theorem column_name_gives_back_id (char_id : string)
  (Hd : "d"%char ∉ list_ascii_of_string char_id) :
  replace_demo (demo_ char_id) = char_id
  /\ replace_demo (demo_ (demo_ char_id)) = char_id
  /\ String.prefix "demo_" (demo_ char_id) = true.
Proof.
  assert (E : forall s, replace_demo (demo_ s) = replace_demo s)
    by reflexivity.
  rewrite !E. split; [|split].
  - apply replace_demo_without_d. exact Hd.
  - apply replace_demo_without_d. exact Hd.
  - apply JoinContent.demo_prefix.
Qed.

Lemma column_name_gives_back_id_witness :
  replace_demo (demo_ "2255") = "2255"%string
  /\ replace_demo (demo_ (demo_ "2255")) = "2255"%string
  /\ String.prefix "demo_" (demo_ "2255") = true.
Proof.
  apply (column_name_gives_back_id "2255").
  apply (bool_decide_unpack _). vm_compute. exact I.
Defined.

End ColumnNames.


(* ===================================================================== *)
(** * Part IV. The full sweep with the floats of pandas and scipy        *)
(* ===================================================================== *)

(** ** The float engine and its numeric runs *)

Module SweepEngine.
Import NumFacts Rounding Sweep.

Local Open Scope Q_scope.

(** On a number the labels are those of [All]; NaN, for which every
    comparison is false, falls through to the last branch. *)
Lemma strength_label_Number (q : Q) :
  strength_label (Number q) = All.strength_label q.
Proof. reflexivity. Qed.

Lemma direction_label_Number (q : Q) :
  direction_label (Number q) = All.direction_label q.
Proof. reflexivity. Qed.

Lemma significant_label_Number (q : Q) :
  significant_label (Number q) = All.significant_label q.
Proof. reflexivity. Qed.

Lemma labels_of_NaN :
  strength_label NaN = "Very Weak" /\ direction_label NaN = "Negative"
  /\ significant_label NaN = "No".
Proof. repeat split. Qed.

#[export] Instance by_abs_r_descending_total : Total by_abs_r_descending.
Proof.
  intros a b. unfold by_abs_r_descending.
  destruct (pearson_r a) as [x|], (pearson_r b) as [y|]; auto.
  destruct (Qlt_le_dec (Qabs x) (Qabs y)); [right|left]; lra.
Qed.

#[export] Instance by_abs_r_descending_trans :
  Transitive by_abs_r_descending.
Proof.
  intros a b c. unfold by_abs_r_descending.
  destruct (pearson_r a) as [x|], (pearson_r b) as [y|],
    (pearson_r c) as [z|]; try tauto.
  lra.
Qed.

Section Engine.

Variable std_is_zero : list Q -> bool.
Variable pearsonr : list Q -> list Q -> float * float.

(** What the loop body did when it appended a record. *)
Lemma record_of_column merged_df category_info col res :
  analyze_column std_is_zero pearsonr merged_df category_info col = Some res ->
  let valid := valid_data merged_df col in
  let rp := pearsonr (map snd valid) (map fst valid) in
  (30 <= length valid)%nat /\
  std_is_zero (map snd valid) = false /\
  characteristics_id res = replace_demo col /\
  pearson_r res = fround (fst rp) 4 /\
  p_value res = snd rp /\
  significant res = significant_label (snd rp) /\
  correlation_strength res = strength_label (fst rp) /\
  direction res = direction_label (fst rp) /\
  r_squared res = fround (fsquare (fst rp)) 4 /\
  sample_size res = length valid.
Proof.
  unfold analyze_column. intros H. cbv zeta.
  destruct (length (valid_data merged_df col) <? 30)%nat eqn:Elen;
    [discriminate|].
  destruct (std_is_zero (map snd (valid_data merged_df col))) eqn:Estd;
    [discriminate|].
  destruct (pearsonr _ _) as [r p].
  injection H as <-. cbn [fst snd].
  apply Nat.ltb_ge in Elen. repeat split; try reflexivity. exact Elen.
Qed.

(** Nothing but the two filters stops a record. *)
Lemma analyze_column_emits merged_df category_info col :
  (30 <= length (valid_data merged_df col))%nat ->
  std_is_zero (map snd (valid_data merged_df col)) = false ->
  exists res,
    analyze_column std_is_zero pearsonr merged_df category_info col
    = Some res.
Proof.
  intros Hlen Hstd. unfold analyze_column. cbv zeta.
  apply Nat.ltb_ge in Hlen. rewrite Hlen, Hstd.
  destruct (pearsonr _ _) as [r p]. eauto.
Qed.

Lemma analyze_column_None merged_df category_info col :
  analyze_column std_is_zero pearsonr merged_df category_info col = None ->
  (length (valid_data merged_df col) < 30)%nat
  \/ std_is_zero (map snd (valid_data merged_df col)) = true.
Proof.
  unfold analyze_column. cbv zeta.
  destruct (length (valid_data merged_df col) <? 30)%nat eqn:Elen.
  - intros _. left. apply Nat.ltb_lt. exact Elen.
  - destruct (std_is_zero (map snd (valid_data merged_df col))).
    + intros _. right. reflexivity.
    + destruct (pearsonr _ _). discriminate.
Qed.

Lemma sweep_Ok merged_df category_info results :
  calculate_all_correlations std_is_zero pearsonr merged_df category_info
  = Ok results ->
  results = sort_values_abs_descending
              (collect_results std_is_zero pearsonr merged_df category_info)
  /\ collect_results std_is_zero pearsonr merged_df category_info <> [].
Proof.
  unfold calculate_all_correlations.
  destruct (collect_results std_is_zero pearsonr merged_df category_info)
    eqn:E; [discriminate|].
  intros H. injection H as <-. split; [reflexivity | discriminate].
Qed.

Lemma elem_of_sweep
  merged_df category_info results res :
  calculate_all_correlations std_is_zero pearsonr merged_df category_info
  = Ok results ->
  res ∈ results <->
  exists col, col ∈ All.demo_cols merged_df /\
    analyze_column std_is_zero pearsonr merged_df category_info col
    = Some res.
Proof.
  intros H. apply sweep_Ok in H as [-> _].
  unfold sort_values_abs_descending, collect_results.
  rewrite merge_sort_Permutation, list_elem_of_omap. reflexivity.
Qed.

(** The sweep returns as soon as one column passes both filters, and the
    record of that column is among the results. *)
Lemma sweep_returns merged_df category_info col :
  col ∈ All.demo_cols merged_df ->
  (30 <= length (valid_data merged_df col))%nat ->
  std_is_zero (map snd (valid_data merged_df col)) = false ->
  exists results res,
    calculate_all_correlations std_is_zero pearsonr merged_df category_info
    = Ok results
    /\ res ∈ results
    /\ analyze_column std_is_zero pearsonr merged_df category_info col
       = Some res.
Proof.
  intros Hcol Hlen Hstd.
  destruct (analyze_column_emits merged_df category_info col Hlen Hstd)
    as [res Hres].
  assert (Hin : res ∈ collect_results std_is_zero pearsonr merged_df
                        category_info).
  { unfold collect_results. apply list_elem_of_omap. eauto. }
  unfold calculate_all_correlations.
  destruct (collect_results std_is_zero pearsonr merged_df category_info)
    as [|r0 rest] eqn:E; [inversion Hin|].
  eexists. exists res. split; [reflexivity|]. split; [|exact Hres].
  unfold sort_values_abs_descending. rewrite merge_sort_Permutation.
  exact Hin.
Qed.

End Engine.

(** The engine of [All] is the float engine run with the exact variance
    test and a [pearsonr] that answers numbers. *)
Lemma numeric_run_agrees pearsonr merged_df category_info col :
  analyze_column std_eq_zero (numeric_answers pearsonr) merged_df
    category_info col
  = of_numeric <$> All.analyze_column pearsonr merged_df category_info col.
Proof.
  unfold analyze_column, All.analyze_column, numeric_answers. cbv zeta.
  destruct (length (valid_data merged_df col) <? 30)%nat; [reflexivity|].
  destruct (std_eq_zero (map snd (valid_data merged_df col)));
    [reflexivity|].
  destruct (pearsonr _ _) as [r p]. reflexivity.
Qed.

End SweepEngine.

(** ** The sample tables of the float engine *)

Module SweepSampleFacts.
Import NumFacts Rounding Sweep SweepEngine Formula Samples SweepSamples.

Local Open Scope Q_scope.

Lemma near_half_run :
  calculate_all_correlations std_eq_zero near_half_pearsonr
    (point_table near_half_points) ∅
  = Ok [near_half_result].
Proof. vm_compute. reflexivity. Qed.

Lemma near_zero_run :
  calculate_all_correlations std_eq_zero near_zero_pearsonr
    (point_table near_zero_points) ∅
  = Ok [near_zero_result].
Proof. vm_compute. reflexivity. Qed.

(** The coefficient of the first table is exactly 0.49996, that of the
    second exactly 0.00004, and the sample [pearsonr] answers them. *)
Lemma near_half_formula :
  let valid := valid_data (point_table near_half_points) "demo_2255" in
  length valid = 30%nat
  /\ std_eq_zero (map snd valid) = false
  /\ pearson_formula (map snd valid) (map fst valid) (49996 # 100000)
  /\ near_half_pearsonr (map snd valid) (map fst valid)
     = (Number (12499 # 25000), Number (4904 # 1000000)).
Proof.
  cbv zeta. split; [vm_compute; reflexivity|].
  split; [vm_compute; reflexivity|].
  split; [|vm_compute; reflexivity].
  unfold pearson_formula.
  split; [vm_compute; reflexivity|]. split; [vm_compute; reflexivity|].
  split; [vm_compute; reflexivity|].
  split; intros _; vm_compute; discriminate.
Qed.

Lemma near_zero_formula :
  let valid := valid_data (point_table near_zero_points) "demo_2255" in
  length valid = 30%nat
  /\ std_eq_zero (map snd valid) = false
  /\ pearson_formula (map snd valid) (map fst valid) (4 # 100000)
  /\ near_zero_pearsonr (map snd valid) (map fst valid)
     = (Number (1 # 25000), Number (999833 # 1000000)).
Proof.
  cbv zeta. split; [vm_compute; reflexivity|].
  split; [vm_compute; reflexivity|].
  split; [|vm_compute; reflexivity].
  unfold pearson_formula.
  split; [vm_compute; reflexivity|]. split; [vm_compute; reflexivity|].
  split; [vm_compute; reflexivity|].
  split; intros _; vm_compute; discriminate.
Qed.

End SweepSampleFacts.

(** ** The records of the float engine *)

Module SweepRecords.
Import NumFacts Rounding AllFacts Sweep SweepEngine SweepSamples
  SweepSampleFacts.

Local Open Scope Q_scope.

(** X1.  The full sweep gives no record for a column exactly when the
    column has fewer than 30 valid rows or pandas evaluates the standard
    deviation of its valid values to 0.  Every other column gets a
    record over all its valid rows, whatever [pearsonr] answers: a NaN
    coefficient is recorded as NaN, with a NaN R-squared and the labels
    "Very Weak" and "Negative", and a NaN p-value as not significant. *)
Theorem sweep_column_outcome
  (std_is_zero : list Q -> bool)
  (pearsonr : list Q -> list Q -> float * float)
  (merged_df : Joined) (category_info : gmap string All.CategoryInfo)
  (col : string) :
  let valid := valid_data merged_df col in
  let answer := pearsonr (map snd valid) (map fst valid) in
  match analyze_column std_is_zero pearsonr merged_df category_info col with
  | None =>
      (length valid < 30)%nat \/ std_is_zero (map snd valid) = true
  | Some res =>
      (30 <= length valid)%nat /\
      std_is_zero (map snd valid) = false /\
      characteristics_id res = replace_demo col /\
      sample_size res = length valid /\
      (fst answer = NaN ->
       pearson_r res = NaN /\ r_squared res = NaN /\
       correlation_strength res = "Very Weak" /\
       direction res = "Negative") /\
      (snd answer = NaN -> p_value res = NaN /\ significant res = "No") /\
      (forall q, fst answer = Number q ->
         pearson_r res = Number (round q 4) /\
         r_squared res = Number (round (q * q) 4))
  end.
Proof.
  cbv zeta.
  destruct (analyze_column std_is_zero pearsonr merged_df category_info col)
    as [res|] eqn:E.
  - apply record_of_column in E. cbv zeta in E.
    destruct E as (Hlen & Hstd & Hid & Hr & Hp & Hsig & Hs & Hd & Hr2 & Hn).
    split; [exact Hlen|]. split; [exact Hstd|]. split; [exact Hid|].
    split; [exact Hn|].
    split; [|split].
    + intros Hnan. rewrite Hr, Hr2, Hs, Hd, Hnan. repeat split.
    + intros Hnan. rewrite Hp, Hsig, Hnan. split; reflexivity.
    + intros q Hq. rewrite Hr, Hr2, Hq. split; reflexivity.
  - apply analyze_column_None in E. exact E.
Qed.

(** X3.  The coefficient stored in a record of the sweep is NaN exactly
    when [pearsonr] answered NaN for its column, and the record is then
    labelled "Very Weak" and "Negative".  Otherwise it lies on the side
    of the thresholds that the labels of the record say, and within
    0.00005 of the coefficient that [pearsonr] returned. *)
Theorem stored_coefficient_agrees_with_labels
  (std_is_zero : list Q -> bool)
  (pearsonr : list Q -> list Q -> float * float)
  (merged_df : Joined) (category_info : gmap string All.CategoryInfo)
  (results : list CorrelationResult) (res : CorrelationResult) :
  calculate_all_correlations std_is_zero pearsonr merged_df category_info
  = Ok results ->
  res ∈ results ->
  exists col,
    col ∈ All.demo_cols merged_df /\
    let answer := fst (pearsonr (map snd (valid_data merged_df col))
                                (map fst (valid_data merged_df col))) in
    match pearson_r res with
    | NaN =>
        answer = NaN /\
        correlation_strength res = "Very Weak" /\
        direction res = "Negative"
    | Number stored =>
        (exists r, answer = Number r /\ Qabs (stored - r) <= 1 # 20000) /\
        (correlation_strength res = "Strong" -> 5 # 10 <= Qabs stored) /\
        (correlation_strength res = "Moderate"
         -> 3 # 10 <= Qabs stored <= 5 # 10) /\
        (correlation_strength res = "Weak"
         -> 2 # 10 <= Qabs stored <= 3 # 10) /\
        (correlation_strength res = "Very Weak" -> Qabs stored <= 2 # 10) /\
        (direction res = "Positive" -> 0 <= stored) /\
        (direction res = "Negative" -> stored <= 0)
    end.
Proof.
  intros Hrun Hin.
  apply (elem_of_sweep _ _ _ _ _ res Hrun) in Hin
    as (col & Hcol & Hres).
  apply record_of_column in Hres. cbv zeta in Hres.
  destruct Hres as (_ & _ & _ & Hr & _ & _ & Hs & Hd & _).
  exists col. split; [exact Hcol|]. cbv zeta.
  destruct (fst (pearsonr (map snd (valid_data merged_df col))
                          (map fst (valid_data merged_df col))))
    as [r|]; rewrite Hr, Hs, Hd; cbn [fround].
  2: { repeat split. }
  rewrite strength_label_Number, direction_label_Number.
  destruct (strength_label_spec r) as (S1 & S2 & S3 & S4).
  destruct (direction_label_spec r) as (D1 & D2).
  assert (F5 : round (5 # 10) 4 == 5 # 10) by (vm_compute; reflexivity).
  assert (F5' : round (- (5 # 10)) 4 == - (5 # 10))
    by (vm_compute; reflexivity).
  assert (F3 : round (3 # 10) 4 == 3 # 10) by (vm_compute; reflexivity).
  assert (F3' : round (- (3 # 10)) 4 == - (3 # 10))
    by (vm_compute; reflexivity).
  assert (F2 : round (2 # 10) 4 == 2 # 10) by (vm_compute; reflexivity).
  assert (F2' : round (- (2 # 10)) 4 == - (2 # 10))
    by (vm_compute; reflexivity).
  assert (F0 : round 0 4 == 0) by (vm_compute; reflexivity).
  split; [|split; [|split; [|split; [|split; [|split]]]]].
  - exists r. split; [reflexivity|].
    pose proof (round_error r 4) as He.
    assert (E : (1 # 2) / inject_Z (10 ^ Z.of_nat 4) == 1 # 20000)
      by (vm_compute; reflexivity).
    rewrite E in He. exact He.
  - intros H. apply S1 in H. apply StoredCoefficient.round4_abs_ge; auto.
  - intros H. apply S2 in H as [Hlo Hhi]. split.
    + apply StoredCoefficient.round4_abs_ge; auto.
    + apply StoredCoefficient.round4_abs_le; auto. lra.
  - intros H. apply S3 in H as [Hlo Hhi]. split.
    + apply StoredCoefficient.round4_abs_ge; auto.
    + apply StoredCoefficient.round4_abs_le; auto. lra.
  - intros H. apply S4 in H. apply StoredCoefficient.round4_abs_le; auto.
    lra.
  - intros H. apply D1 in H.
    destruct (StoredCoefficient.round4_keeps_side 0 r F0) as [Hup _].
    apply Hup. lra.
  - intros H. apply D2 in H.
    destruct (StoredCoefficient.round4_keeps_side 0 r F0) as [_ Hdown].
    apply Hdown. lra.
Qed.

Lemma stored_coefficient_agrees_with_labels_witness :
  exists col,
    col ∈ All.demo_cols (point_table near_half_points) /\
    let answer :=
      fst (near_half_pearsonr
             (map snd (valid_data (point_table near_half_points) col))
             (map fst (valid_data (point_table near_half_points) col))) in
    match pearson_r near_half_result with
    | NaN =>
        answer = NaN /\
        correlation_strength near_half_result = "Very Weak" /\
        direction near_half_result = "Negative"
    | Number stored =>
        (exists r, answer = Number r /\ Qabs (stored - r) <= 1 # 20000) /\
        (correlation_strength near_half_result = "Strong"
         -> 5 # 10 <= Qabs stored) /\
        (correlation_strength near_half_result = "Moderate"
         -> 3 # 10 <= Qabs stored <= 5 # 10) /\
        (correlation_strength near_half_result = "Weak"
         -> 2 # 10 <= Qabs stored <= 3 # 10) /\
        (correlation_strength near_half_result = "Very Weak"
         -> Qabs stored <= 2 # 10) /\
        (direction near_half_result = "Positive" -> 0 <= stored) /\
        (direction near_half_result = "Negative" -> stored <= 0)
    end.
Proof.
  apply (stored_coefficient_agrees_with_labels std_eq_zero
           near_half_pearsonr (point_table near_half_points) ∅
           [near_half_result] near_half_result).
  - vm_compute. reflexivity.
  - left.
Defined.

End SweepRecords.

(** ** C3: the classification of an emitted result *)

Module Classification.
Import NumFacts Rounding AllFacts Sweep SweepEngine Formula SweepSamples
  SweepSampleFacts.

Local Open Scope Q_scope.

(** The labels of a number, and the sides of its rounded value. *)
Lemma labels_of_rounded (q : Q) :
  (5 # 10 < Qabs (round q 4) -> All.strength_label q = "Strong") /\
  (3 # 10 < Qabs (round q 4) < 5 # 10
   -> All.strength_label q = "Moderate") /\
  (2 # 10 < Qabs (round q 4) < 3 # 10 -> All.strength_label q = "Weak") /\
  (Qabs (round q 4) < 2 # 10 -> All.strength_label q = "Very Weak") /\
  (0 < round q 4 -> All.direction_label q = "Positive") /\
  (round q 4 < 0 -> All.direction_label q = "Negative").
Proof.
  destruct (strength_label_spec q) as (S1 & S2 & S3 & S4).
  destruct (direction_label_spec q) as (D1 & D2).
  assert (F5 : round (5 # 10) 4 == 5 # 10) by (vm_compute; reflexivity).
  assert (F5' : round (- (5 # 10)) 4 == - (5 # 10))
    by (vm_compute; reflexivity).
  assert (F3 : round (3 # 10) 4 == 3 # 10) by (vm_compute; reflexivity).
  assert (F3' : round (- (3 # 10)) 4 == - (3 # 10))
    by (vm_compute; reflexivity).
  assert (F2 : round (2 # 10) 4 == 2 # 10) by (vm_compute; reflexivity).
  assert (F2' : round (- (2 # 10)) 4 == - (2 # 10))
    by (vm_compute; reflexivity).
  assert (F0 : round 0 4 == 0) by (vm_compute; reflexivity).
  pose proof (StoredCoefficient.round4_abs_ge (5 # 10) q F5 F5') as G5.
  pose proof (StoredCoefficient.round4_abs_ge (3 # 10) q F3 F3') as G3.
  pose proof (StoredCoefficient.round4_abs_ge (2 # 10) q F2 F2') as G2.
  pose proof (StoredCoefficient.round4_abs_le (5 # 10) q F5 F5') as L5.
  pose proof (StoredCoefficient.round4_abs_le (3 # 10) q F3 F3') as L3.
  pose proof (StoredCoefficient.round4_abs_le (2 # 10) q F2 F2') as L2.
  destruct (StoredCoefficient.round4_keeps_side 0 q F0) as [Hup Hdown].
  destruct (Qlt_le_dec (Qabs q) (5 # 10)) as [A5|A5];
  destruct (Qlt_le_dec (Qabs q) (3 # 10)) as [A3|A3];
  destruct (Qlt_le_dec (Qabs q) (2 # 10)) as [A2|A2];
  try (exfalso; lra);
  (split; [intros H; apply S1; try lra;
           exfalso; assert (Qabs (round q 4) <= 5 # 10) by (apply L5; lra);
           lra|]);
  (split; [intros [H H']; apply S2; split; try lra;
           exfalso;
           first [ assert (Qabs (round q 4) <= 3 # 10) by (apply L3; lra);
                   lra
                 | assert (5 # 10 <= Qabs (round q 4)) by (apply G5; lra);
                   lra ]|]);
  (split; [intros [H H']; apply S3; split; try lra;
           exfalso;
           first [ assert (Qabs (round q 4) <= 2 # 10) by (apply L2; lra);
                   lra
                 | assert (3 # 10 <= Qabs (round q 4)) by (apply G3; lra);
                   lra ]|]);
  (split; [intros H; apply S4; try lra;
           exfalso; assert (2 # 10 <= Qabs (round q 4)) by (apply G2; lra);
           lra|]);
  (split; [intros H; apply D1;
           destruct (Qlt_le_dec 0 q) as [?|Hq]; [assumption|];
           apply Hdown in Hq; lra
          |intros H; apply D2; intros Hq;
           assert (0 <= round q 4) by (apply Hup; lra); lra]).
Qed.

(** C3, as the code has it.  The labels of a result whose coefficient is
    a number are those of the threshold table applied to the coefficient
    [q] that [pearsonr] returned, before it is rounded to four decimals
    for the report: "Strong" exactly when [|q| >= 0.5], "Moderate"
    exactly when [0.3 <= |q| < 0.5], "Weak" exactly when
    [0.2 <= |q| < 0.3], "Very Weak" exactly when [|q| < 0.2], "Positive"
    exactly when [q > 0] and "Negative" otherwise, so also for [q == 0].
    On the reported coefficient the table holds whenever that value is
    not exactly at a boundary ([0.5], [0.3] or [0.2] in absolute value,
    or [0]). *)
Theorem labels_follow_unrounded_coefficient
  (std_is_zero : list Q -> bool)
  (pearsonr : list Q -> list Q -> float * float)
  (merged_df : Joined) (category_info : gmap string All.CategoryInfo)
  (results : list CorrelationResult) (res : CorrelationResult) :
  calculate_all_correlations std_is_zero pearsonr merged_df category_info
  = Ok results ->
  res ∈ results ->
  exists (col : string) (r p : float),
    col ∈ All.demo_cols merged_df /\
    pearsonr (map snd (valid_data merged_df col))
             (map fst (valid_data merged_df col)) = (r, p) /\
    pearson_r res = fround r 4 /\
    forall q : Q, r = Number q ->
      let reported := round q 4 in
      pearson_r res = Number reported /\
      (correlation_strength res = "Strong" <-> 5 # 10 <= Qabs q) /\
      (correlation_strength res = "Moderate" <-> 3 # 10 <= Qabs q < 5 # 10) /\
      (correlation_strength res = "Weak" <-> 2 # 10 <= Qabs q < 3 # 10) /\
      (correlation_strength res = "Very Weak" <-> Qabs q < 2 # 10) /\
      (direction res = "Positive" <-> 0 < q) /\
      (direction res = "Negative" <-> ~ 0 < q) /\
      (q == 0 -> direction res = "Negative") /\
      (5 # 10 < Qabs reported -> correlation_strength res = "Strong") /\
      (3 # 10 < Qabs reported < 5 # 10
       -> correlation_strength res = "Moderate") /\
      (2 # 10 < Qabs reported < 3 # 10
       -> correlation_strength res = "Weak") /\
      (Qabs reported < 2 # 10 -> correlation_strength res = "Very Weak") /\
      (0 < reported -> direction res = "Positive") /\
      (reported < 0 -> direction res = "Negative").
Proof.
  intros Hrun Hin.
  apply (elem_of_sweep _ _ _ _ _ res Hrun) in Hin
    as (col & Hcol & Hres).
  apply record_of_column in Hres. cbv zeta in Hres.
  destruct Hres as (_ & _ & _ & Hr & _ & _ & Hs & Hd & _).
  destruct (pearsonr _ _) as [r p] eqn:Erp. cbn [fst snd] in Hr, Hs, Hd.
  exists col, r, p.
  split; [exact Hcol|]. split; [exact Erp|]. split; [exact Hr|].
  intros q ->. cbv zeta.
  rewrite Hs, Hd, Hr, strength_label_Number, direction_label_Number.
  destruct (strength_label_spec q) as (S1 & S2 & S3 & S4).
  destruct (direction_label_spec q) as (D1 & D2).
  destruct (labels_of_rounded q) as (R1 & R2 & R3 & R4 & R5 & R6).
  split; [reflexivity|].
  split; [exact S1|]. split; [exact S2|]. split; [exact S3|].
  split; [exact S4|]. split; [exact D1|]. split; [exact D2|].
  split; [intros H0; apply D2; lra|].
  split; [exact R1|]. split; [exact R2|]. split; [exact R3|].
  split; [exact R4|]. split; [exact R5 | exact R6].
Qed.

Lemma labels_follow_unrounded_coefficient_witness :
  exists (col : string) (r p : float),
    col ∈ All.demo_cols (point_table near_half_points) /\
    near_half_pearsonr
      (map snd (valid_data (point_table near_half_points) col))
      (map fst (valid_data (point_table near_half_points) col)) = (r, p) /\
    pearson_r near_half_result = fround r 4 /\
    forall q : Q, r = Number q ->
      let reported := round q 4 in
      pearson_r near_half_result = Number reported /\
      (correlation_strength near_half_result = "Strong"
       <-> 5 # 10 <= Qabs q) /\
      (correlation_strength near_half_result = "Moderate"
       <-> 3 # 10 <= Qabs q < 5 # 10) /\
      (correlation_strength near_half_result = "Weak"
       <-> 2 # 10 <= Qabs q < 3 # 10) /\
      (correlation_strength near_half_result = "Very Weak"
       <-> Qabs q < 2 # 10) /\
      (direction near_half_result = "Positive" <-> 0 < q) /\
      (direction near_half_result = "Negative" <-> ~ 0 < q) /\
      (q == 0 -> direction near_half_result = "Negative") /\
      (5 # 10 < Qabs reported
       -> correlation_strength near_half_result = "Strong") /\
      (3 # 10 < Qabs reported < 5 # 10
       -> correlation_strength near_half_result = "Moderate") /\
      (2 # 10 < Qabs reported < 3 # 10
       -> correlation_strength near_half_result = "Weak") /\
      (Qabs reported < 2 # 10
       -> correlation_strength near_half_result = "Very Weak") /\
      (0 < reported -> direction near_half_result = "Positive") /\
      (reported < 0 -> direction near_half_result = "Negative").
Proof.
  apply (labels_follow_unrounded_coefficient std_eq_zero
           near_half_pearsonr (point_table near_half_points) ∅
           [near_half_result] near_half_result).
  - vm_compute. reflexivity.
  - left.
Defined.

(** C3, as stated, fails on the coefficient that a result carries.  The
    attribute of the first table has the coefficient 0.49996: its result
    reports 0.5 and is labelled "Moderate", not "Strong".  That of the
    second table has the coefficient 0.00004: its result reports 0 and is
    labelled "Positive", not "Negative". *)
Lemma reported_boundary_gets_the_other_label :
  calculate_all_correlations std_eq_zero near_half_pearsonr
    (point_table near_half_points) ∅ = Ok [near_half_result] /\
  pearson_r near_half_result = Number (1 # 2) /\
  5 # 10 <= Qabs (1 # 2) /\
  correlation_strength near_half_result = "Moderate" /\
  correlation_strength near_half_result <> "Strong" /\
  calculate_all_correlations std_eq_zero near_zero_pearsonr
    (point_table near_zero_points) ∅ = Ok [near_zero_result] /\
  pearson_r near_zero_result = Number 0 /\
  direction near_zero_result = "Positive" /\
  direction near_zero_result <> "Negative".
Proof.
  split; [exact near_half_run|]. split; [reflexivity|].
  split; [vm_compute; discriminate|]. split; [reflexivity|].
  split; [discriminate|]. split; [exact near_zero_run|].
  split; [reflexivity|]. split; [reflexivity | discriminate].
Qed.

End Classification.

(** ** C7: the reported coefficient *)

Module ReportedCoefficient.
Import NumFacts Rounding Sweep SweepEngine Formula SweepSamples
  SweepSampleFacts.

Local Open Scope Q_scope.

Lemma Qsquare_nonneg (x : Q) : 0 <= x * x.
Proof.
  destruct (Qlt_le_dec x 0).
  - setoid_replace (x * x) with ((- x) * (- x)) using relation Qeq by ring.
    apply Qmult_le_0_compat; lra.
  - apply Qmult_le_0_compat; lra.
Qed.

Lemma Qmult_nonneg_cancel (a d : Q) : 0 < a -> 0 <= a * d -> 0 <= d.
Proof.
  intros Ha H. destruct (Qlt_le_dec d 0) as [Hd|Hd]; [|exact Hd].
  exfalso.
  assert (H' : 0 <= a * (- d)) by (apply Qmult_le_0_compat; lra).
  assert (E : a * (- d) == - (a * d)) by ring.
  assert (Hz : a * d == 0) by lra.
  apply Qmult_integral in Hz as [Hz|Hz]; lra.
Qed.

(** One more term on each side of the Cauchy-Schwarz inequality. *)
Lemma cauchy_schwarz_step (A B C a b : Q) :
  0 <= A -> 0 <= B -> C * C <= A * B ->
  (C + a * b) * (C + a * b) <= (A + a * a) * (B + b * b).
Proof.
  intros HA HB HC.
  set (D := (A + a * a) * (B + b * b) - (C + a * b) * (C + a * b)).
  assert (HD : 0 <= D); [|unfold D in HD; lra].
  pose proof (Qsquare_nonneg a) as Ha2.
  destruct (Qlt_le_dec 0 A) as [Hpos|Hzero].
  - apply (Qmult_nonneg_cancel A); [exact Hpos|].
    assert (E : A * D == (A + a * a) * (A * B - C * C)
                          + (A * b - a * C) * (A * b - a * C))
      by (unfold D; ring).
    rewrite E.
    pose proof (Qsquare_nonneg (A * b - a * C)).
    assert (0 <= (A + a * a) * (A * B - C * C))
      by (apply Qmult_le_0_compat; lra).
    lra.
  - assert (EA : A == 0) by lra.
    assert (HC0 : C * C <= 0) by (rewrite EA in HC; lra).
    pose proof (Qsquare_nonneg C).
    assert (EC : C == 0).
    { assert (Hz : C * C == 0) by lra.
      apply Qmult_integral in Hz. tauto. }
    assert (E : D == (a * a) * B) by (unfold D; rewrite EA, EC; ring).
    rewrite E. apply Qmult_le_0_compat; assumption.
Qed.

Lemma deviations_nonneg (m : Q) (xs : list Q) :
  0 <= Qsum (zip_with (fun x y => (x - m) * (y - m)) xs xs).
Proof.
  induction xs as [|x xs IH]; unfold Qsum in *; simpl; [lra|].
  pose proof (Qsquare_nonneg (x - m)). lra.
Qed.

Lemma cauchy_schwarz (m1 m2 : Q) (xs ys : list Q) :
  Qsum (zip_with (fun x y => (x - m1) * (y - m2)) xs ys)
  * Qsum (zip_with (fun x y => (x - m1) * (y - m2)) xs ys)
  <= Qsum (zip_with (fun x y => (x - m1) * (y - m1)) xs xs)
     * Qsum (zip_with (fun x y => (x - m2) * (y - m2)) ys ys).
Proof.
  revert ys. induction xs as [|x xs IH]; intros ys.
  - unfold Qsum. simpl. lra.
  - destruct ys as [|y ys].
    + unfold Qsum. simpl. lra.
    + pose proof (deviations_nonneg m1 xs) as H1.
      pose proof (deviations_nonneg m2 ys) as H2.
      pose proof (cauchy_schwarz_step _ _ _ (x - m1) (y - m2) H1 H2 (IH ys))
        as Hstep.
      unfold Qsum in *. simpl. lra.
Qed.

Lemma square_le_one (rho P S : Q) :
  0 < P -> rho * rho * P == S -> S <= P -> -1 <= rho <= 1.
Proof.
  intros HP E HS.
  assert (H1 : rho * rho <= 1).
  { assert (H : 0 <= P * (1 - rho * rho)).
    { setoid_replace (P * (1 - rho * rho)) with (P - rho * rho * P)
        using relation Qeq by ring. lra. }
    apply Qmult_nonneg_cancel in H; [lra | exact HP]. }
  assert (H2 : 0 <= (1 - rho) * (1 + rho))
    by (setoid_replace ((1 - rho) * (1 + rho)) with (1 - rho * rho)
          using relation Qeq by ring; lra).
  split.
  - destruct (Qlt_le_dec rho (-1)) as [Hlt|]; [|assumption]. exfalso.
    assert (H3 : 0 <= (1 - rho) * (- (1 + rho)))
      by (apply Qmult_le_0_compat; lra).
    assert (E3 : (1 - rho) * (- (1 + rho)) == - ((1 - rho) * (1 + rho)))
      by ring.
    assert (Hz : (1 - rho) * (1 + rho) == 0) by lra.
    apply Qmult_integral in Hz as [Hz|Hz]; lra.
  - destruct (Qlt_le_dec 1 rho) as [Hlt|]; [|assumption]. exfalso.
    assert (H3 : 0 <= (- (1 - rho)) * (1 + rho))
      by (apply Qmult_le_0_compat; lra).
    assert (E3 : (- (1 - rho)) * (1 + rho) == - ((1 - rho) * (1 + rho)))
      by ring.
    assert (Hz : (1 - rho) * (1 + rho) == 0) by lra.
    apply Qmult_integral in Hz as [Hz|Hz]; lra.
Qed.

(** A value of the standard formula lies between -1 and 1. *)
Lemma pearson_formula_range (xs ys : list Q) (rho : Q) :
  pearson_formula xs ys rho -> -1 <= rho <= 1.
Proof.
  intros (Hx & Hy & E & _).
  apply (square_le_one rho (Sxy xs xs * Sxy ys ys) (Sxy xs ys * Sxy xs ys)).
  - apply Qmult_lt_0_compat; assumption.
  - exact E.
  - unfold Sxy. cbv zeta. apply cauchy_schwarz.
Qed.

(** Rounding keeps a coefficient between -1 and 1. *)
Lemma round4_range (r : Q) : -1 <= r <= 1 -> -1 <= round r 4 <= 1.
Proof.
  intros [Hlo Hhi].
  assert (F1 : round 1 4 == 1) by (vm_compute; reflexivity).
  assert (F1' : round (-1) 4 == -1) by (vm_compute; reflexivity).
  apply (round_mono _ _ 4) in Hlo. apply (round_mono _ _ 4) in Hhi. lra.
Qed.

Lemma round4_error (r : Q) : Qabs (round r 4 - r) <= 1 # 20000.
Proof.
  pose proof (round_error r 4) as He.
  assert (E : (1 # 2) / inject_Z (10 ^ Z.of_nat 4) == 1 # 20000)
    by (vm_compute; reflexivity).
  rewrite E in He. exact He.
Qed.

(** C7, as the code has it.  For an attribute column with at least 30
    valid pairs whose standard deviation pandas does not evaluate to 0,
    the sweep returns, and when [pearsonr] answers a number [r] for the
    aligned non-null attribute and target values, the coefficient
    reported for the column is [r] rounded to four decimals.  It is
    within 0.00005 of [r], so within [tol + 0.00005] of the value of the
    standard formula when [r] is within [tol] of that value; it lies
    between -1 and 1 when [r] does, as the value of the formula does. *)
Theorem reported_coefficient_is_rounded
  (std_is_zero : list Q -> bool)
  (pearsonr : list Q -> list Q -> float * float)
  (merged_df : Joined) (category_info : gmap string All.CategoryInfo)
  (col : string) (r : Q) (p : float) :
  let valid := valid_data merged_df col in
  col ∈ All.demo_cols merged_df ->
  (30 <= length valid)%nat ->
  std_is_zero (map snd valid) = false ->
  pearsonr (map snd valid) (map fst valid) = (Number r, p) ->
  exists results res,
    calculate_all_correlations std_is_zero pearsonr merged_df category_info
    = Ok results /\
    res ∈ results /\
    characteristics_id res = replace_demo col /\
    sample_size res = length valid /\
    pearson_r res = Number (round r 4) /\
    Qabs (round r 4 - r) <= 1 # 20000 /\
    (-1 <= r <= 1 -> -1 <= round r 4 <= 1) /\
    (forall rho tol,
       pearson_formula (map snd valid) (map fst valid) rho ->
       Qabs (r - rho) <= tol ->
       -1 <= rho <= 1 /\ Qabs (round r 4 - rho) <= tol + (1 # 20000)) /\
    (pearson_formula (map snd valid) (map fst valid) r ->
     -1 <= round r 4 <= 1).
Proof.
  cbv zeta. intros Hcol Hlen Hstd Hrp.
  destruct (sweep_returns std_is_zero pearsonr merged_df category_info col
              Hcol Hlen Hstd) as (results & res & Hrun & Hin & Hres).
  exists results, res.
  apply record_of_column in Hres. cbv zeta in Hres.
  destruct Hres as (_ & _ & Hid & Hr & _ & _ & _ & _ & _ & Hn).
  rewrite Hrp in Hr. cbn [fst fround] in Hr.
  pose proof (round4_error r) as Herr.
  split; [exact Hrun|]. split; [exact Hin|]. split; [exact Hid|].
  split; [exact Hn|]. split; [exact Hr|]. split; [exact Herr|].
  split; [apply round4_range|].
  split.
  - intros rho tol Hrho Htol.
    split; [exact (pearson_formula_range _ _ _ Hrho)|].
    apply Qabs_Qle_condition in Herr as [E1 E2].
    apply Qabs_Qle_condition in Htol as [T1 T2].
    apply Qabs_Qle_condition. split; lra.
  - intros Hrho. apply round4_range.
    exact (pearson_formula_range _ _ _ Hrho).
Qed.

Lemma reported_coefficient_is_rounded_witness :
  let merged_df := point_table near_half_points in
  let valid := valid_data merged_df "demo_2255" in
  exists results res,
    calculate_all_correlations std_eq_zero near_half_pearsonr merged_df ∅
    = Ok results /\
    res ∈ results /\
    characteristics_id res = replace_demo "demo_2255" /\
    sample_size res = length valid /\
    pearson_r res = Number (round (12499 # 25000) 4) /\
    Qabs (round (12499 # 25000) 4 - (12499 # 25000)) <= 1 # 20000 /\
    (-1 <= 12499 # 25000 <= 1 -> -1 <= round (12499 # 25000) 4 <= 1) /\
    (forall rho tol,
       pearson_formula (map snd valid) (map fst valid) rho ->
       Qabs ((12499 # 25000) - rho) <= tol ->
       -1 <= rho <= 1
       /\ Qabs (round (12499 # 25000) 4 - rho) <= tol + (1 # 20000)) /\
    (pearson_formula (map snd valid) (map fst valid) (12499 # 25000) ->
     -1 <= round (12499 # 25000) 4 <= 1).
Proof.
  cbv zeta.
  apply (reported_coefficient_is_rounded std_eq_zero near_half_pearsonr
           (point_table near_half_points) ∅ "demo_2255" (12499 # 25000)
           (Number (4904 # 1000000))).
  - vm_compute. left.
  - vm_compute. lia.
  - vm_compute. reflexivity.
  - vm_compute. reflexivity.
Defined.

(** C7, as stated, fails.  The attribute of the sample table has 30
    valid pairs and a nonzero variance, and the standard formula gives
    exactly 0.49996 for it, which [pearsonr] answers; the coefficient
    reported is 0.5, at a distance of 0.00004 from the formula's
    value. *)
Lemma reported_differs_from_formula :
  let valid := valid_data (point_table near_half_points) "demo_2255" in
  length valid = 30%nat /\
  std_eq_zero (map snd valid) = false /\
  pearson_formula (map snd valid) (map fst valid) (49996 # 100000) /\
  near_half_pearsonr (map snd valid) (map fst valid)
  = (Number (12499 # 25000), Number (4904 # 1000000)) /\
  12499 # 25000 == 49996 # 100000 /\
  calculate_all_correlations std_eq_zero near_half_pearsonr
    (point_table near_half_points) ∅ = Ok [near_half_result] /\
  pearson_r near_half_result = Number (1 # 2) /\
  ~ (1 # 2 == 49996 # 100000) /\
  Qabs ((1 # 2) - (49996 # 100000)) == 4 # 100000.
Proof.
  cbv zeta. destruct near_half_formula as (Hlen & Hstd & Hrho & Hrp).
  split; [exact Hlen|]. split; [exact Hstd|]. split; [exact Hrho|].
  split; [exact Hrp|]. split; [reflexivity|].
  split; [exact near_half_run|]. split; [reflexivity|].
  split; [vm_compute; discriminate | vm_compute; reflexivity].
Qed.

End ReportedCoefficient.

(** ** C8: determinism of the engine *)

Module Determinism.
Import NumFacts Rounding Sweep SweepEngine Formula Samples SweepSamples
  SweepSampleFacts.

Local Open Scope Q_scope.

(** Sums, means and the sample filters do not see the order of the
    values. *)
Lemma Qsum_map_ext {A} (f g : A -> Q) (l : list A) :
  (forall x, f x == g x) -> Qsum (map f l) == Qsum (map g l).
Proof.
  intros Hfg. unfold Qsum.
  induction l as [|z l IH]; simpl; [reflexivity|].
  rewrite IH, Hfg. reflexivity.
Qed.

Lemma Qsum_map_Permutation {A} (f g : A -> Q) (l l' : list A) :
  l ≡ₚ l' -> (forall x, f x == g x) ->
  Qsum (map f l) == Qsum (map g l').
Proof.
  intros Hp Hfg. rewrite <- (Qsum_map_ext f g l' Hfg).
  induction Hp as [|x l l' _ IH|x y l|l l' l'' _ IH1 _ IH2].
  - reflexivity.
  - unfold Qsum in *. simpl. rewrite IH. reflexivity.
  - unfold Qsum. simpl. ring.
  - rewrite IH1. exact IH2.
Qed.

Lemma Qsum_Permutation (l l' : list Q) : l ≡ₚ l' -> Qsum l == Qsum l'.
Proof.
  intros Hp.
  pose proof (Qsum_map_Permutation (fun x => x) (fun x => x) l l' Hp
                (fun x => Qeq_refl x)) as H.
  rewrite !map_id in H. exact H.
Qed.

Lemma mean_Permutation (l l' : list Q) : l ≡ₚ l' -> mean l == mean l'.
Proof.
  intros Hp. unfold mean.
  rewrite (Qsum_Permutation l l' Hp), (Permutation_length Hp).
  reflexivity.
Qed.

Lemma Qeq_bool_zero_comp (v v' : Q) :
  v == v' -> Qeq_bool v 0 = Qeq_bool v' 0.
Proof.
  intros E.
  destruct (Qeq_bool v 0) eqn:E1, (Qeq_bool v' 0) eqn:E2; try reflexivity.
  - apply Qeq_bool_iff in E1. apply Qeq_bool_neq in E2.
    exfalso. apply E2. rewrite <- E. exact E1.
  - apply Qeq_bool_iff in E2. apply Qeq_bool_neq in E1.
    exfalso. apply E1. rewrite E. exact E2.
Qed.

Lemma std_eq_zero_Permutation (l l' : list Q) :
  l ≡ₚ l' -> std_eq_zero l = std_eq_zero l'.
Proof.
  intros Hp. unfold std_eq_zero, var.
  rewrite <- (Permutation_length Hp).
  destruct (length l <=? 1)%nat; [reflexivity|].
  apply Qeq_bool_zero_comp.
  rewrite (Qsum_map_Permutation
             (fun x => (x - mean l) * (x - mean l))
             (fun x => (x - mean l') * (x - mean l')) l l' Hp).
  - reflexivity.
  - intros x. rewrite (mean_Permutation l l' Hp). reflexivity.
Qed.

Lemma zip_with_map_both {A B C D} (f : B -> C -> D) (g : A -> B) (h : A -> C)
  (l : list A) :
  zip_with f (map g l) (map h l) = map (fun a => f (g a) (h a)) l.
Proof. induction l as [|a l IH]; simpl; [reflexivity | now rewrite IH]. Qed.

Lemma Sxy_Permutation (g h : Q * Q -> Q) (pairs pairs' : list (Q * Q)) :
  pairs ≡ₚ pairs' ->
  Sxy (map g pairs) (map h pairs) == Sxy (map g pairs') (map h pairs').
Proof.
  intros Hp. unfold Sxy. cbv zeta. rewrite !zip_with_map_both.
  apply Qsum_map_Permutation; [exact Hp|].
  intros a.
  rewrite (mean_Permutation (map g pairs) (map g pairs')),
          (mean_Permutation (map h pairs) (map h pairs'));
    [reflexivity | |]; apply Permutation_map; exact Hp.
Qed.

(** The sample routines are blind to the order of the observations. *)
Lemma sample_routines_order_blind (p_value : Q) :
  order_blind std_eq_zero (equal_spread_pearsonr p_value).
Proof.
  split.
  - apply std_eq_zero_Permutation.
  - intros pairs pairs' Hp. unfold equal_spread_pearsonr.
    f_equal. f_equal. apply Qred_complete.
    rewrite (Sxy_Permutation snd fst pairs pairs' Hp),
            (Sxy_Permutation snd snd pairs pairs' Hp).
    reflexivity.
Qed.

(** A frame sorted on a key by which no two of its rows agree has one
    sorted arrangement only. *)
Lemma sorted_arrangement_unique {A} (R : relation A) (l other : list A) :
  (forall a b, a ∈ l -> b ∈ l -> R a b -> R b a -> a = b) ->
  StronglySorted R l -> StronglySorted R other -> other ≡ₚ l ->
  other = l.
Proof.
  revert other. induction l as [|x l IH]; intros other Hkeys Hl Ho Hp.
  - apply Permutation_nil_r in Hp. exact Hp.
  - destruct other as [|y other].
    { symmetry in Hp. apply Permutation_nil_r in Hp. discriminate. }
    apply StronglySorted_inv in Hl as [Hl Hx].
    apply StronglySorted_inv in Ho as [Ho Hy].
    rewrite Forall_forall in Hx, Hy.
    assert (Hyx : y = x).
    { assert (Hyin : y ∈ x :: l) by (rewrite <- Hp; left).
      assert (Hxin : x ∈ y :: other) by (rewrite Hp; left).
      apply elem_of_cons in Hyin as [E|Hyin]; [exact E|].
      apply elem_of_cons in Hxin as [E|Hxin]; [symmetry; exact E|].
      apply Hkeys.
      - right. exact Hyin.
      - left.
      - apply Hy. exact Hxin.
      - apply Hx. exact Hyin. }
    subst y. f_equal.
    apply IH; [|exact Hl | exact Ho|].
    + intros a b Ha Hb. apply Hkeys; right; assumption.
    + apply Permutation.Permutation_cons_inv in Hp. exact Hp.
Qed.

Section Engine.

Variable std_is_zero : list Q -> bool.
Variable pearsonr : list Q -> list Q -> float * float.
Hypothesis Hblind : order_blind std_is_zero pearsonr.

Lemma analyze_column_rows merged_df1 merged_df2 category_info col :
  rows merged_df1 ≡ₚ rows merged_df2 ->
  analyze_column std_is_zero pearsonr merged_df1 category_info col
  = analyze_column std_is_zero pearsonr merged_df2 category_info col.
Proof.
  intros Hrows. destruct Hblind as [Hstd Hpearson].
  assert (Hvalid : valid_data merged_df1 col ≡ₚ valid_data merged_df2 col).
  { unfold valid_data. rewrite Hrows. reflexivity. }
  unfold analyze_column. cbv zeta.
  rewrite (Permutation_length Hvalid).
  rewrite (Hstd (map snd (valid_data merged_df1 col))
                (map snd (valid_data merged_df2 col)))
    by (apply Permutation_map; exact Hvalid).
  rewrite (Hpearson _ _ Hvalid). reflexivity.
Qed.

Lemma collect_results_rows merged_df1 merged_df2 category_info :
  columns merged_df1 = columns merged_df2 ->
  rows merged_df1 ≡ₚ rows merged_df2 ->
  collect_results std_is_zero pearsonr merged_df1 category_info
  = collect_results std_is_zero pearsonr merged_df2 category_info.
Proof.
  intros Hcols Hrows. unfold collect_results, All.demo_cols.
  rewrite <- Hcols.
  induction (filter (fun col => String.prefix "demo_" col = true)
               (columns merged_df1)) as [|col cols IH]; [reflexivity|].
  cbn [omap list_omap].
  rewrite (analyze_column_rows merged_df1 merged_df2 category_info col Hrows).
  rewrite IH. reflexivity.
Qed.

End Engine.

(** C8.  A run of the engine takes nothing from outside but the joined
    table, the category lookup and the answers of the two float routines
    (the test of the standard deviation and [pearsonr]).  Two runs on
    joined tables that hold the same rows under the same columns, in
    whatever order the rows come, return identical outcomes: the same
    records, with the same coefficient, p-value, sample size and labels,
    in the same order, or the same exception; a column that passes the
    two filters has its record in both, with the numbers and labels of
    its valid rows.  This holds as long as the two routines do not
    depend on the order of the observations, which in floating point
    they do through the order of their sums only.  The order of the
    records is that of the ordering key alone: the records are those of
    the loop, sorted by [|r|] descending with NaN last, and when no two
    of them share the key this is their only sorted arrangement. *)
Theorem engine_ignores_row_order
  (std_is_zero : list Q -> bool)
  (pearsonr : list Q -> list Q -> float * float)
  (merged_df1 merged_df2 : Joined)
  (category_info : gmap string All.CategoryInfo) :
  order_blind std_is_zero pearsonr ->
  columns merged_df1 = columns merged_df2 ->
  rows merged_df1 ≡ₚ rows merged_df2 ->
  calculate_all_correlations std_is_zero pearsonr merged_df1 category_info
  = calculate_all_correlations std_is_zero pearsonr merged_df2 category_info
  /\ (forall col,
       col ∈ All.demo_cols merged_df1 ->
       (30 <= length (valid_data merged_df1 col))%nat ->
       std_is_zero (map snd (valid_data merged_df1 col)) = false ->
       let answer := pearsonr (map snd (valid_data merged_df2 col))
                              (map fst (valid_data merged_df2 col)) in
       exists results res,
         calculate_all_correlations std_is_zero pearsonr merged_df1
           category_info = Ok results /\
         calculate_all_correlations std_is_zero pearsonr merged_df2
           category_info = Ok results /\
         res ∈ results /\
         characteristics_id res = replace_demo col /\
         sample_size res = length (valid_data merged_df2 col) /\
         pearson_r res = fround (fst answer) 4 /\
         p_value res = snd answer /\
         significant res = significant_label (snd answer) /\
         correlation_strength res = strength_label (fst answer) /\
         direction res = direction_label (fst answer))
  /\ forall results,
       calculate_all_correlations std_is_zero pearsonr merged_df1
         category_info = Ok results ->
       calculate_all_correlations std_is_zero pearsonr merged_df2
         category_info = Ok results
       /\ results
          ≡ₚ collect_results std_is_zero pearsonr merged_df2 category_info
       /\ StronglySorted by_abs_r_descending results
       /\ forall other,
            other ≡ₚ results ->
            StronglySorted by_abs_r_descending other ->
            distinct_keys results ->
            other = results.
Proof.
  intros Hblind Hcols Hrows.
  assert (Hcollect :
            collect_results std_is_zero pearsonr merged_df1 category_info
            = collect_results std_is_zero pearsonr merged_df2 category_info)
    by (apply collect_results_rows; assumption).
  assert (Hsame :
            calculate_all_correlations std_is_zero pearsonr merged_df1
              category_info
            = calculate_all_correlations std_is_zero pearsonr merged_df2
                category_info)
    by (unfold calculate_all_correlations; rewrite Hcollect; reflexivity).
  split; [exact Hsame|].
  split.
  { intros col Hcol Hlen Hstd. cbv zeta.
    destruct (sweep_returns std_is_zero pearsonr merged_df1 category_info col
                Hcol Hlen Hstd) as (results & res & Hrun & Hin & Hres).
    exists results, res.
    rewrite (analyze_column_rows std_is_zero pearsonr Hblind
               merged_df1 merged_df2 category_info col Hrows) in Hres.
    apply record_of_column in Hres. cbv zeta in Hres.
    destruct Hres as (_ & _ & Hid & Hr & Hp & Hsig & Hs & Hd & _ & Hn).
    split; [exact Hrun|]. split; [rewrite <- Hsame; exact Hrun|].
    split; [exact Hin|]. split; [exact Hid|]. split; [exact Hn|].
    split; [exact Hr|]. split; [exact Hp|]. split; [exact Hsig|].
    split; [exact Hs | exact Hd]. }
  intros results Hrun.
  split; [rewrite <- Hsame; exact Hrun|].
  rewrite Hsame in Hrun.
  apply sweep_Ok in Hrun as [-> _].
  assert (Hsorted :
            StronglySorted by_abs_r_descending
              (sort_values_abs_descending
                 (collect_results std_is_zero pearsonr merged_df2
                    category_info)))
    by (apply StronglySorted_merge_sort; apply _).
  split; [apply merge_sort_Permutation|].
  split; [exact Hsorted|].
  intros other Hperm Hother Hkeys.
  apply (sorted_arrangement_unique by_abs_r_descending); assumption.
Qed.

Lemma engine_ignores_row_order_witness :
  calculate_all_correlations std_eq_zero near_half_pearsonr
    (point_table near_half_points) ∅
  = calculate_all_correlations std_eq_zero near_half_pearsonr
      (reversed (point_table near_half_points)) ∅
  /\ (forall col,
       col ∈ All.demo_cols (point_table near_half_points) ->
       (30 <= length (valid_data (point_table near_half_points) col))%nat ->
       std_eq_zero (map snd (valid_data (point_table near_half_points) col))
       = false ->
       let answer :=
         near_half_pearsonr
           (map snd (valid_data (reversed (point_table near_half_points))
                       col))
           (map fst (valid_data (reversed (point_table near_half_points))
                       col)) in
       exists results res,
         calculate_all_correlations std_eq_zero near_half_pearsonr
           (point_table near_half_points) ∅ = Ok results /\
         calculate_all_correlations std_eq_zero near_half_pearsonr
           (reversed (point_table near_half_points)) ∅ = Ok results /\
         res ∈ results /\
         characteristics_id res = replace_demo col /\
         sample_size res
         = length (valid_data (reversed (point_table near_half_points))
                     col) /\
         pearson_r res = fround (fst answer) 4 /\
         p_value res = snd answer /\
         significant res = significant_label (snd answer) /\
         correlation_strength res = strength_label (fst answer) /\
         direction res = direction_label (fst answer))
  /\ forall results,
       calculate_all_correlations std_eq_zero near_half_pearsonr
         (point_table near_half_points) ∅ = Ok results ->
       calculate_all_correlations std_eq_zero near_half_pearsonr
         (reversed (point_table near_half_points)) ∅ = Ok results
       /\ results
          ≡ₚ collect_results std_eq_zero near_half_pearsonr
               (reversed (point_table near_half_points)) ∅
       /\ StronglySorted by_abs_r_descending results
       /\ forall other,
            other ≡ₚ results ->
            StronglySorted by_abs_r_descending other ->
            distinct_keys results ->
            other = results.
Proof.
  apply (engine_ignores_row_order std_eq_zero near_half_pearsonr
           (point_table near_half_points)
           (reversed (point_table near_half_points)) ∅).
  - exact (sample_routines_order_blind _).
  - reflexivity.
  - symmetry. apply reverse_Permutation.
Defined.

End Determinism.

(** ** C5: the sheets of the report *)

Module ReportSheets.
Import NumFacts All AllFacts ReportFacts ReportViews Samples.

Local Open Scope Q_scope.

#[local] Existing Instance by_abs_r_descending_total.
#[local] Existing Instance by_abs_r_descending_trans.
#[local] Existing Instance by_r_descending_total.
#[local] Existing Instance by_r_descending_trans.
#[local] Existing Instance by_r_ascending_total.
#[local] Existing Instance by_r_ascending_trans.

(** C5.  In the report of the full sweep the sheet of significant
    results holds exactly the results with [p < 0.05].  The positive
    sheet holds exactly the significant results of direction Positive
    and the negative sheet exactly those of direction Negative, so that
    the two split the significant sheet, every significant result being
    in exactly one of them; no coefficient of the positive sheet is
    below 0 and none of the negative sheet above.  The positive sheet is
    sorted by [r] descending, the negative sheet by [r] ascending, and
    the results (the primary view) and the significant sheet by [|r|]
    descending. *)
Theorem report_sheets_partition
  (pearsonr : list Q -> list Q -> Q * Q)
  (merged_df : Joined) (category_info : gmap string CategoryInfo)
  (results : list CorrelationResult) :
  calculate_all_correlations pearsonr merged_df category_info = Ok results ->
  let report := create_excel_report results in
  (forall res, res ∈ sig_df report
               <-> res ∈ results /\ p_value res < 5 # 100) /\
  sig_df report
    ≡ₚ filter (fun res => Qlt_bool (p_value res) (5 # 100) = true) results /\
  (forall res, res ∈ pos_df report
               <-> res ∈ sig_df report /\ direction res = "Positive") /\
  (forall res, res ∈ neg_df report
               <-> res ∈ sig_df report /\ direction res = "Negative") /\
  pos_df report
    ≡ₚ filter (fun res => direction res = "Positive") (sig_df report) /\
  neg_df report
    ≡ₚ filter (fun res => direction res = "Negative") (sig_df report) /\
  sig_df report ≡ₚ pos_df report ++ neg_df report /\
  (forall res, res ∈ pos_df report -> res ∉ neg_df report) /\
  (forall res, res ∈ pos_df report -> 0 <= pearson_r res) /\
  (forall res, res ∈ neg_df report -> pearson_r res <= 0) /\
  StronglySorted by_r_descending (pos_df report) /\
  StronglySorted by_r_ascending (neg_df report) /\
  StronglySorted by_abs_r_descending (sig_df report) /\
  StronglySorted by_abs_r_descending results /\
  all_results report = results.
Proof.
  intros Hrun. cbv zeta. unfold create_excel_report. simpl.
  unfold sort_values_abs_descending, sort_values_descending,
    sort_values_ascending.
  assert (Hlabels : forall res, res ∈ results ->
            (significant res = "Yes" <-> p_value res < 5 # 100) /\
            (direction res = "Negative" <-> ~ direction res = "Positive"))
    by (intros res; apply (labels_of_results _ _ _ _ res Hrun)).
  assert (Hsign : forall res, res ∈ results ->
            (direction res = "Positive" -> 0 <= pearson_r res) /\
            (direction res = "Negative" -> pearson_r res <= 0)).
  { intros res Hin.
    destruct (direction_sign pearsonr merged_df category_info results Hrun
                res Hin) as (Hp & Hn & _). auto. }
  split.
  { intros res. rewrite merge_sort_Permutation, list_elem_of_filter.
    split.
    - intros [Hs Hin]. split; [exact Hin|]. apply (Hlabels res Hin), Hs.
    - intros [Hin Hp]. split; [|exact Hin]. apply (Hlabels res Hin), Hp. }
  split.
  { rewrite merge_sort_Permutation.
    rewrite (filter_ext_in _
               (fun res => Qlt_bool (p_value res) (5 # 100) = true));
      [reflexivity|].
    intros res Hin. rewrite Qlt_bool_iff. apply (Hlabels res Hin). }
  split.
  { intros res. rewrite !merge_sort_Permutation, !list_elem_of_filter.
    tauto. }
  split.
  { intros res. rewrite !merge_sort_Permutation, !list_elem_of_filter.
    tauto. }
  split.
  { rewrite !merge_sort_Permutation, list_filter_filter.
    apply Permutation_refl'. apply filter_ext_in. intros res _. tauto. }
  split.
  { rewrite !merge_sort_Permutation, list_filter_filter.
    apply Permutation_refl'. apply filter_ext_in. intros res _. tauto. }
  split.
  { rewrite !merge_sort_Permutation. apply filter_split.
    intros res Hin _. apply (Hlabels res Hin). }
  split.
  { intros res. rewrite !merge_sort_Permutation, !list_elem_of_filter.
    intros [[_ Hpos] _] [[_ Hneg] _]. congruence. }
  split.
  { intros res. rewrite merge_sort_Permutation, list_elem_of_filter.
    intros [[_ Hpos] Hin]. apply (Hsign res Hin). exact Hpos. }
  split.
  { intros res. rewrite merge_sort_Permutation, list_elem_of_filter.
    intros [[_ Hneg] Hin]. apply (Hsign res Hin). exact Hneg. }
  repeat split; try apply StronglySorted_merge_sort; try apply _.
  apply calculate_all_correlations_Ok in Hrun as [-> _].
  apply StronglySorted_merge_sort; apply _.
Qed.

Lemma report_sheets_partition_witness :
  let results := [result_2255; result_2257] in
  let report := create_excel_report results in
  (forall res, res ∈ sig_df report
               <-> res ∈ results /\ p_value res < 5 # 100) /\
  sig_df report
    ≡ₚ filter (fun res => Qlt_bool (p_value res) (5 # 100) = true) results /\
  (forall res, res ∈ pos_df report
               <-> res ∈ sig_df report /\ direction res = "Positive") /\
  (forall res, res ∈ neg_df report
               <-> res ∈ sig_df report /\ direction res = "Negative") /\
  pos_df report
    ≡ₚ filter (fun res => direction res = "Positive") (sig_df report) /\
  neg_df report
    ≡ₚ filter (fun res => direction res = "Negative") (sig_df report) /\
  sig_df report ≡ₚ pos_df report ++ neg_df report /\
  (forall res, res ∈ pos_df report -> res ∉ neg_df report) /\
  (forall res, res ∈ pos_df report -> 0 <= pearson_r res) /\
  (forall res, res ∈ neg_df report -> pearson_r res <= 0) /\
  StronglySorted by_r_descending (pos_df report) /\
  StronglySorted by_r_ascending (neg_df report) /\
  StronglySorted by_abs_r_descending (sig_df report) /\
  StronglySorted by_abs_r_descending results /\
  all_results report = results.
Proof.
  apply (report_sheets_partition collinear_pearsonr (districts 40 40) ∅).
  vm_compute. reflexivity.
Defined.

End ReportSheets.
